(* ===== verification/_CoqProject ===== *)
-Q . S2P
Prelude.v
Text.v
Locator.v
Routes.v
Json.v
Prog.v
Bounds.v
Sim.v
Browser.v
Dashboard.v
Agents.v
Transparency.v
EndToEnd.v
Main.v
Process.v
