(* ===== verification/Prelude.v ===== *)
(** * Verification of the Xperience end-to-end flow scripts

    The repository's program is three Python scripts under
    [src/verification/] that drive a headless Chromium through the
    Playwright sync API against the running Xperience web application:

    - [test_dashboard.py], [verify_dashboard]: open [/dashboard], wait for
      network idle, assert five section headings, take a screenshot, click
      the "Agentes" heading, wait, assert "Meus Agentes de IA", close.
    - [verify_agents.py], [verify_agents_flow]: open [/agents] inside a
      [try]/[except] that prints and returns, assert "Meus Agentes", pick
      the entry control by one visibility probe ("first visible wins"),
      open the creation modal, fill two inputs, select an option, submit,
      assert the chat view, take a screenshot, close.
    - [verify_transparency.py], [run]: open a context and a page, register
      two mocked routes, then in [try]/[except]/[finally] exercise
      [/transparencia], [/contact] and [/leads]; on an exception take
      [verification/error.png] and re-raise; always close the browser.

    The scripts share no state; each one interacts only with Playwright,
    which interacts with the application under test.

    ** How the development models it

    The scripts are effectful programs over one interface, the Playwright
    API.  They are modelled as programs of a finite free monad over the
    API calls they make ([Prog.v]: [Call], [Prog] with [Ret], [Throw]
    and [Vis]), written call by call in the order of the source, with
    Python's [try]/[except Exception], [try]/[finally] and the [with
    sync_playwright()] block as combinators of the monad.  [run] executes a
    program against any handler (a function answering each call, with an
    explicit world threaded through), and records the trace of calls and
    answers.  Because the handler is a parameter, the theorems about the
    scripts hold for every behaviour of the browser and of the application:
    every call may answer or raise.

    Files, in dependency order:
    - [Prelude.v] (this file): the [result] type of outcomes, list
      helpers and their lemmas, the hint database [xp], tactics.
    - [Text.v]: Playwright's text matching (whitespace normalisation,
      ASCII case folding, substring or exact match), used by locators;
      [contains_spec] characterises the substring test.
    - [Locator.v]: the locators the scripts build ([get_by_role],
      [get_by_text], [get_by_placeholder], [locator], [.first], scoped
      locators) as an inductive type, their resolution on a document
      (a list of elements with role, name, text, placeholder, visibility
      and ancestors) and strict mode ([target]: no match, one, or many).
    - [Routes.v]: [page.route] / [route.fulfill]: responses, URL globs
      ([*] and [**]) compiled to tokens and matched by [glob_match], the
      newest-first route table and [dispatch], and a network session
      ([serve_all]) in which a request no route matches reaches the
      backend and is logged.
    - [Json.v]: JSON values, their printing with Python's separators and
      a parser bounded by fuel, with the round trip [parse_json_print];
      the front end models of [EndToEnd.v] read the mocked bodies with it.
    - [Prog.v]: calls, exceptions, the program monad, [run] and the
      combinator laws ([run_bind], [run_try_except], [run_try_finally],
      the [with] block's frame lemmas), straight-line blocks
      ([seq_calls]) and their lemmas; footprints ([only_calls]); where
      exceptions come from ([raised_by]: every exception a program ends
      with was raised by one of its calls), and [exit_status], the status
      the interpreter exits with.
    - [Bounds.v]: [calls_le P n p], an inductive bound on the number of
      calls satisfying [P] that any run of [p] makes, with a closure lemma
      per combinator, so a script's bound is computed from its text.
    - [Sim.v]: relational Hoare triples over [Prog] ([rsim P Q p]: two
      runs of [p] from worlds related by [P] have the same outcome and
      trace and end related by [Q]), built along the combinators; the
      one-handler case [diag] gives invariants.
    - [Browser.v]: a browser to run the scripts against, for any
      application given as an instance of the class [App] (views, the
      requests each view makes, its document, what a click opens) and
      any backend: the page's routes answer the requests they match, the
      backend the others; strict mode for actions and assertions.  Its
      step lemmas say what every call does to the network.
    - [Dashboard.v], [Agents.v], [Transparency.v]: one file per script,
      each the script as a [Prog] and its theorems for every handler; the
      [__main__] blocks are [dashboard_main], [agents_main],
      [transparency_main].
    - [EndToEnd.v]: the flows in the browser, for every application and
      backend; models of the Xperience front end serve as the concrete
      inputs of the witnesses.
    - [Main.v]: the three processes: exit status, and termination with
      tight bounds on the number of calls.
    - [Process.v]: what an invocation leaves behind: the output
      directory written by [page.screenshot] (create or overwrite),
      standard output, the traceback on standard error and the exit
      status ([python]); successive invocations as a step relation
      ([session]) with the invariant of the directory.

    ** What the theorems show (see each file)

    All of them hold for every handler, that is for every behaviour of
    the browser and the application (or, in [EndToEnd.v], for every
    application and backend of the browser model).
    - cleanup: in [run] the browser is closed exactly on the paths that
      reach the [try], whatever fails inside it; in the dashboard script
      [browser.close()] is reached exactly when the last assertion passed;
    - error paths: the early [return] of the agents script turns a failed
      navigation into a normal return with no assertion made and no
      [browser.close()]; a failing call aborts the dashboard script with
      that exception, after every earlier call answered and before any
      later one (no retry, no partial pass); the transparency script
      prints the exception, takes its diagnostic screenshot and re-raises
      it, then closes the browser;
    - what a pass means: every heading, form step and chat assertion of
      the script was made and answered, and a passing transparency run
      took no diagnostic screenshot;
    - the agents entry point is chosen by exactly one visibility probe:
      the first candidate when the probe answers true, the second
      otherwise;
    - ordering and routing: both routes are registered before the first
      navigation, and they answer exactly the URLs ending in their API
      paths;
    - end to end, in the browser: no request a mock pattern matches ever
      reaches the backend; when the application only makes requests the
      mocks answer, the run does not depend on the backend; a passing run
      wrote exactly its screenshots (and the transparency one its six
      progress lines);
    - exit status: the dashboard and transparency processes exit 0
      exactly on the runs where every call answered; the agents process
      also exits 0 after a failed navigation;
    - termination and bounds: no script loops or retries; every run makes
      at most 22, 26 and 35 calls, each bound reached by a concrete run;
      the transparency script takes at most four screenshots and at most
      one [error.png];
    - the output directory: over any session of invocations, it holds
      only the six files of section 6 of the specification, each written
      by one of them.

    ** Bounds and fuel

    [Json.parse_value] recurses on a fuel argument; [parse_json] gives it
    one more than the length of the text, which is enough: every value's
    [size] is at most the length of its printed text
    ([size_le_print]).  [Json.digits_rev] is given one more digit than the
    number itself.  All other definitions are structural.  The call
    bounds of [Main.v] (22, 26, 35) count the entry and exit of the
    [with] block, every statement, and the [except] handler's two calls;
    they are derived by [Bounds.v] from the program text, not chosen.

    ** Not modelled

    Browser process management, rendering and the DOM of the real
    application, network timing, auto-waiting and timeouts: they are the
    handler's business, and every flow theorem of the script files
    quantifies over the handler.  The browser of [Browser.v] sees a
    document as it is when a call is made (no polling), serves only the
    requests the application declares for a view, and takes the
    application's server to be up or down as a whole.  The application
    under test is not in this repository.
    Python's [BaseException]s that [except Exception] does not catch are
    not modelled; the traceback on standard error is reduced to its first
    and last lines (the frames are left out), and a screenshot file is
    identified by the invocation that wrote it, not by its pixels.  The
    [import] lines are the Playwright library, which is the handler. *)

From Stdlib Require Import String Ascii List Bool Lia.
Import ListNotations.

(** ** Outcomes *)

(** The outcome of a Python computation: a value, or a raised exception. *)
Inductive result (E A : Type) : Type :=
| Ok (a : A)
| Err (e : E).
Arguments Ok {E A} a.
Arguments Err {E A} e.

Definition is_ok {E A} (r : result E A) : bool :=
  match r with Ok _ => true | Err _ => false end.

Declare Scope xp_scope.
Delimit Scope xp_scope with xp.

(** [l1 <<= l2]: [l1] is a prefix of [l2]. *)
Definition is_prefix {A} (l1 l2 : list A) : Prop := exists l, l2 = l1 ++ l.
Notation "l1 <<= l2" := (is_prefix l1 l2) (at level 70) : xp_scope.
Open Scope xp_scope.

(** ** Generic list lemmas *)

Create HintDb xp.

Lemma is_prefix_refl {A} (l : list A) : l <<= l.
Proof. exists []. now rewrite app_nil_r. Qed.

Lemma is_prefix_app {A} (l1 l2 : list A) : l1 <<= l1 ++ l2.
Proof. now exists l2. Qed.

Lemma is_prefix_cons {A} (x : A) l1 l2 : l1 <<= l2 -> x :: l1 <<= x :: l2.
Proof. intros [l ->]. now exists l. Qed.

#[export] Hint Resolve is_prefix_refl is_prefix_app is_prefix_cons : xp.

Lemma in_map_fst {A B} (x : A) (y : B) l : In (x, y) l -> In x (map fst l).
Proof. intros H. apply (in_map fst) in H. exact H. Qed.

#[export] Hint Resolve in_map_fst : xp.

(** ** Tactics *)

(** [inv H]: invert [H] and clean up. *)
Ltac inv H := inversion H; subst; clear H.

(** [split_pairs]: destruct every tuple-valued [let] in the goal. *)
Ltac split_pairs :=
  repeat match goal with
  | |- context [let '(_, _) := ?p in _] => destruct p
  end.

(** [red_pairs]: reduce the tuple matches and projections of the goal and
    the hypotheses, without unfolding any definition. *)
Ltac red_pairs := cbv beta iota zeta delta [fst snd] in *.

(** [app_norm]: push [++] to the right and [::] outwards, to compare two
    concatenations of lists. *)
Ltac app_norm := repeat progress (cbn [app]; rewrite <- ?app_assoc).

(** Two distinct members make a list of length at least two. *)
Lemma two_in_length {A} (x y : A) (l : list A) : In x l -> In y l -> x <> y -> 2 <= length l.
Proof.
  destruct l as [|a [|b l]]; simpl; intros Hx Hy Hne; try lia; try contradiction.
  destruct Hx as [<-|[]]; destruct Hy as [<-|[]]; contradiction.
Qed.
