(* ===== verification/Text.v ===== *)
(** * Text matching of Playwright locators

    [get_by_text], [get_by_role(..., name=...)] and [get_by_placeholder]
    compare a needle with an element's text after normalising the
    whitespace of both (trim, then collapse every run of white space to
    one blank).  Without [exact=True], which none of the scripts pass, the
    comparison is a case-insensitive substring test; with it, equality.

    Strings are byte strings; white space and case folding are those of
    ASCII.  The non-ASCII letters of the scripts' needles (Á, é, ç, ú)
    are compared byte for byte: they fold to themselves. *)

From Stdlib Require Import String Ascii List Bool Lia.
From S2P Require Import Prelude.
Import ListNotations.
Local Open Scope string_scope.

(** ** Characters *)

Definition is_space (c : ascii) : bool :=
  match nat_of_ascii c with
  | 32 | 9 | 10 | 11 | 12 | 13 => true
  | _ => false
  end.

Definition lower_ascii (c : ascii) : ascii :=
  let n := nat_of_ascii c in
  if Nat.leb 65 n && Nat.leb n 90 then ascii_of_nat (n + 32) else c.

Fixpoint lower (s : string) : string :=
  match s with
  | EmptyString => EmptyString
  | String c s' => String (lower_ascii c) (lower s')
  end.

(** ** Whitespace normalisation *)

(** [words s]: the maximal runs of non-blank characters of [s], in order.
    [cur] is the run being read, reversed. *)
Fixpoint words_from (cur : list ascii) (s : string) : list (list ascii) :=
  match s with
  | EmptyString => match cur with [] => [] | _ => [rev cur] end
  | String c s' =>
      if is_space c
      then match cur with [] => words_from [] s' | _ => rev cur :: words_from [] s' end
      else words_from (c :: cur) s'
  end.

Definition words (s : string) : list (list ascii) := words_from [] s.

Fixpoint join_words (ws : list (list ascii)) : string :=
  match ws with
  | [] => EmptyString
  | [w] => string_of_list_ascii w
  | w :: ws' => string_of_list_ascii w ++ " " ++ join_words ws'
  end.

(** [normalizeWhiteSpace]: trim, and collapse blanks to one space. *)
Definition normalize_ws (s : string) : string := join_words (words s).

(** ** Substring and matching *)

(** [contains needle hay]: [needle] occurs in [hay] ([String.includes]). *)
Fixpoint contains (needle hay : string) : bool :=
  prefix needle hay ||
  match hay with
  | EmptyString => false
  | String _ hay' => contains needle hay'
  end.

(** The matcher of [get_by_text(needle, exact=exact)] on a text [hay]. *)
Definition text_matches (exact : bool) (needle hay : string) : bool :=
  if exact
  then String.eqb (normalize_ws needle) (normalize_ws hay)
  else contains (lower (normalize_ws needle)) (lower (normalize_ws hay)).

(** ** Lemmas *)

Lemma append_nil_r (s : string) : s ++ "" = s.
Proof. induction s as [|c s IH]; simpl; [reflexivity | now rewrite IH]. Qed.

Lemma prefix_app (n s : string) : prefix n (n ++ s) = true.
Proof.
  induction n as [|c n IH]; simpl; [destruct s; reflexivity|].
  destruct (Ascii.ascii_dec c c) as [_|Hne]; [exact IH | contradiction].
Qed.

Lemma prefix_spec (n h : string) : prefix n h = true <-> exists s, h = n ++ s.
Proof.
  split.
  - revert h. induction n as [|c n IH]; intros h Hp; [now exists h|].
    destruct h as [|c' h]; [discriminate|]. simpl in Hp.
    destruct (Ascii.ascii_dec c c') as [<-|]; [|discriminate].
    destruct (IH h Hp) as [s ->]. now exists s.
  - intros [s ->]. apply prefix_app.
Qed.

Lemma contains_unfold (n h : string) :
  contains n h = prefix n h || match h with EmptyString => false | String _ h' => contains n h' end.
Proof. destruct h; reflexivity. Qed.

Lemma contains_cons (n h : string) (c : ascii) :
  contains n h = true -> contains n (String c h) = true.
Proof.
  intros H. rewrite contains_unfold. change (prefix n (String c h) || contains n h = true).
  rewrite H. apply orb_true_r.
Qed.

(** [contains] is the substring relation. *)
Lemma contains_spec (n h : string) : contains n h = true <-> exists p s, h = p ++ n ++ s.
Proof.
  split.
  - induction h as [|c h IH]; intros Hc; cbn [contains] in Hc.
    + apply orb_true_iff in Hc as [Hc|Hc]; [|discriminate].
      apply prefix_spec in Hc as [s Hs]. exists "", s. exact Hs.
    + apply orb_true_iff in Hc as [Hc|Hc].
      * apply prefix_spec in Hc as [s Hs]. exists "", s. exact Hs.
      * destruct (IH Hc) as (p & s & ->). exists (String c p), s. reflexivity.
  - intros (p & s & ->). induction p as [|c p IH]; simpl.
    + rewrite contains_unfold. cbn [append]. now rewrite prefix_app.
    + apply contains_cons, IH.
Qed.

Lemma contains_refl (s : string) : contains s s = true.
Proof. apply contains_spec. exists "", "". simpl. now rewrite append_nil_r. Qed.

(** An exact match is also a match without [exact]. *)
Lemma text_matches_exact_loose (n h : string) :
  text_matches true n h = true -> text_matches false n h = true.
Proof.
  unfold text_matches. intros E. apply String.eqb_eq in E. rewrite E. apply contains_refl.
Qed.
