(* ===== verification/Locator.v ===== *)
(** * Locators

    The locators the scripts build, as the Playwright sync API composes
    them: [page.get_by_role(role, name=...)], [page.get_by_text(...)],
    [page.get_by_placeholder(...)], [page.locator(selector)], the
    [.first] property, and a locator method called on another locator
    ([form.get_by_placeholder(...)]), which searches inside the elements
    of the outer one.  Building a locator performs no call: only the
    actions and assertions on it do ([Prog.v]). *)

From Stdlib Require Import String List Bool Arith Lia.
From S2P Require Import Prelude Text.
Import ListNotations.
Local Open Scope string_scope.

Inductive Locator : Type :=
| GetByRole (role : string) (name : option string)
| GetByText (text : string)
| GetByPlaceholder (text : string)
| Css (selector : string)
| First (l : Locator)
| Scoped (scope : Locator) (inner : Locator).

Definition Locator_eq_dec (l1 l2 : Locator) : {l1 = l2} + {l1 <> l2}.
Proof. decide equality; first [apply string_dec | decide equality; apply string_dec]. Defined.

(** ** Documents and resolution

    A document is the list of its elements in document order.  Each
    element carries what the locators look at: its tag, its ARIA role and
    accessible name, its text, its placeholder, whether it is visible,
    and the ids of the elements that enclose it. *)
Record Element : Type := mkElement {
  el_id : nat;
  el_tag : string;
  el_role : option string;
  el_name : string;
  el_text : string;
  el_placeholder : option string;
  el_visible : bool;
  el_ancestors : list nat
}.

Definition Dom : Type := list Element.

Definition role_is (r : string) (e : Element) : bool :=
  match el_role e with Some r' => String.eqb r' r | None => false end.

(** The elements a locator stands for, in document order.  A role
    locator only sees elements that are not hidden ([include_hidden] is
    false by default); names, texts and placeholders match as substrings,
    ignoring case ([exact] is not passed); [locator(sel)] is used with tag
    names only; [.first] keeps the first match; a locator called on
    another keeps the matches inside one of the outer matches. *)
Fixpoint resolve (d : Dom) (l : Locator) : list Element :=
  match l with
  | GetByRole r n =>
      filter (fun e => el_visible e && role_is r e &&
                       match n with None => true | Some n => text_matches false n (el_name e) end) d
  | GetByText t => filter (fun e => text_matches false t (el_text e)) d
  | GetByPlaceholder t =>
      filter (fun e => match el_placeholder e with
                       | Some p => text_matches false t p
                       | None => false end) d
  | Css sel => filter (fun e => String.eqb (el_tag e) sel) d
  | First l => firstn 1 (resolve d l)
  | Scoped s i =>
      let outer := resolve d s in
      filter (fun e => existsb (fun a => existsb (Nat.eqb (el_id a)) (el_ancestors e)) outer)
             (resolve d i)
  end.

(** What an action or an assertion finds: nothing yet, the one element,
    or several (a strict-mode violation). *)
Inductive Target : Type :=
| NoMatch
| One (e : Element)
| Many (n : nat).

Definition target (d : Dom) (l : Locator) : Target :=
  match resolve d l with
  | [] => NoMatch
  | [e] => One e
  | es => Many (length es)
  end.

(** ** Lemmas *)

Lemma resolve_in_dom (d : Dom) (l : Locator) (e : Element) : In e (resolve d l) -> In e d.
Proof.
  revert e. induction l as [r n|t|t|sel|l IH|s IHs i IHi]; intros e; simpl;
    try (rewrite filter_In; tauto).
  - intros H. apply IH. destruct (resolve d l) as [|x xs]; simpl in H; [contradiction|].
    destruct H as [<-|[]]. simpl. auto.
  - rewrite filter_In. intros [H _]. auto.
Qed.

Lemma target_many (d : Dom) (l : Locator) :
  2 <= length (resolve d l) -> target d l = Many (length (resolve d l)).
Proof.
  unfold target. destruct (resolve d l) as [|x [|y ys]]; simpl; intros H; [lia | lia | reflexivity].
Qed.

(** A scoped locator only finds elements inside a match of its scope. *)
Lemma resolve_scoped_inside (d : Dom) (s i : Locator) (e : Element) :
  In e (resolve d (Scoped s i)) -> exists a, In a (resolve d s) /\ In (el_id a) (el_ancestors e).
Proof.
  simpl. rewrite filter_In. intros [_ Hex]. apply existsb_exists in Hex as [a [Ha Hin]].
  apply existsb_exists in Hin as [x [Hx Heq]]. apply Nat.eqb_eq in Heq. subst x. eauto.
Qed.

(** A role locator matches every visible element of that role whose name
    contains the needle. *)
Lemma resolve_role_intro (d : Dom) (r n : string) (e : Element) :
  In e d -> el_visible e = true -> el_role e = Some r -> text_matches false n (el_name e) = true ->
  In e (resolve d (GetByRole r (Some n))).
Proof.
  intros Hin Hv Hr Hm. simpl. apply filter_In. split; [exact Hin|].
  unfold role_is. rewrite Hv, Hr, String.eqb_refl. exact Hm.
Qed.
