(* ===== verification/Routes.v ===== *)
(** * Mocked routes

    [page.route(pattern, handler)] registers a handler for the requests
    whose URL matches the glob [pattern]; the scripts' handlers are
    [lambda route: route.fulfill(status=..., content_type=..., body=...)],
    which answer every matching request with one fixed response.

    The glob language is Playwright's as documented: [*] matches any run
    of characters without [/], [**] any run at all, every other character
    itself ([?] and [{a,b}] groups are not used by the scripts and are
    read as literals here).  When several registered routes match a
    request, the last registered answers.  A request no route matches
    goes to the backend, which the network session logs. *)

From Stdlib Require Import String Ascii List Bool Arith Lia.
From S2P Require Import Prelude.
Import ListNotations.
Local Open Scope string_scope.
Local Open Scope list_scope.

(** The arguments of [route.fulfill]. *)
Record Response : Type := mkResponse {
  status : nat;
  content_type : string;
  body : string
}.

Definition Response_eq_dec (r1 r2 : Response) : {r1 = r2} + {r1 <> r2}.
Proof. decide equality; first [apply string_dec | apply PeanoNat.Nat.eq_dec]. Defined.

(** ** Literal bodies

    [json_lit s] is [s] with every apostrophe replaced by a double quote.
    The JSON bodies of the scripts contain no apostrophe; writing them
    with apostrophes keeps them readable as Rocq string literals. *)
Fixpoint json_lit (s : string) : string :=
  match s with
  | EmptyString => EmptyString
  | String c s' =>
      String (if Ascii.eqb c "'"%char then Ascii.ascii_of_nat 34 else c) (json_lit s')
  end.

(** ** Glob patterns *)

Inductive GTok : Type :=
| Lit (c : ascii)
| Star
| DeepStar.

Fixpoint compile_glob (s : list ascii) : list GTok :=
  match s with
  | [] => []
  | "*"%char :: "*"%char :: s' => DeepStar :: compile_glob s'
  | "*"%char :: s' => Star :: compile_glob s'
  | c :: s' => Lit c :: compile_glob s'
  end.

Definition is_slash (c : ascii) : bool := Ascii.eqb c "/"%char.

(** Matching by the tokens; a star tries every split of the rest. *)
Fixpoint glob_match (ps : list GTok) (s : list ascii) : bool :=
  match ps with
  | [] => match s with [] => true | _ => false end
  | Lit c :: ps' =>
      match s with
      | c' :: s' => Ascii.eqb c c' && glob_match ps' s'
      | [] => false
      end
  | DeepStar :: ps' => existsb (fun k => glob_match ps' (skipn k s)) (seq 0 (S (length s)))
  | Star :: ps' =>
      existsb (fun k => negb (existsb is_slash (firstn k s)) && glob_match ps' (skipn k s))
              (seq 0 (S (length s)))
  end.

(** Whether a request URL matches a route's pattern. *)
Definition url_matches (pattern url : string) : bool :=
  glob_match (compile_glob (list_ascii_of_string pattern)) (list_ascii_of_string url).

(** ** Dispatch *)

(** The registered routes, the last registered first. *)
Definition RouteTable : Type := list (string * Response).

(** [page.route(pattern, ...)] *)
Definition register (rt : RouteTable) (pattern : string) (r : Response) : RouteTable :=
  (pattern, r) :: rt.

(** The response of the last registered route that matches, if any. *)
Fixpoint dispatch (rt : RouteTable) (url : string) : option Response :=
  match rt with
  | [] => None
  | (p, r) :: rt' => if url_matches p url then Some r else dispatch rt' url
  end.

(** A network session: the routes of the page and the requests that went
    through to the backend. *)
Record Net : Type := mkNet {
  net_routes : RouteTable;
  net_backend_log : list string
}.

(** One request: a route answers it, or the backend does and logs it. *)
Definition serve (backend : string -> Response) (n : Net) (url : string) : Response * Net :=
  match dispatch (net_routes n) url with
  | Some r => (r, n)
  | None => (backend url, mkNet (net_routes n) (net_backend_log n ++ [url]))
  end.

(** A sequence of requests, in order. *)
Fixpoint serve_all (backend : string -> Response) (n : Net) (urls : list string) : list Response * Net :=
  match urls with
  | [] => ([], n)
  | u :: us =>
      let (r, n1) := serve backend n u in
      let (rs, n2) := serve_all backend n1 us in
      (r :: rs, n2)
  end.

(** ** Lemmas *)

Lemma skipn_length_app {A} (p l : list A) : skipn (length p) (p ++ l) = l.
Proof. induction p as [|x p IH]; simpl; auto. Qed.

Lemma list_ascii_of_string_app (a b : string) :
  list_ascii_of_string (a ++ b)%string = (list_ascii_of_string a ++ list_ascii_of_string b)%list.
Proof. induction a as [|c a IH]; simpl; [reflexivity | now rewrite IH]. Qed.

Lemma string_of_list_ascii_app (a b : list ascii) :
  string_of_list_ascii (a ++ b) = (string_of_list_ascii a ++ string_of_list_ascii b)%string.
Proof. induction a as [|c a IH]; simpl; [reflexivity | now rewrite IH]. Qed.

(** A pattern of literals matches exactly its own text. *)
Lemma glob_match_lits (l s : list ascii) : glob_match (map Lit l) s = true <-> s = l.
Proof.
  revert s. induction l as [|c l IH]; intros [|c' s]; simpl; split; intros H;
    try discriminate; auto.
  - apply andb_true_iff in H as [Hc Hs]. apply Ascii.eqb_eq in Hc. apply IH in Hs. now subst.
  - injection H as <- <-. rewrite Ascii.eqb_refl. now apply IH.
Qed.

(** [**] followed by literals matches the texts that end with them. *)
Lemma glob_match_deep_suffix (l s : list ascii) :
  glob_match (DeepStar :: map Lit l) s = true <-> exists p, s = p ++ l.
Proof.
  cbn [glob_match]. rewrite existsb_exists. split.
  - intros [k [_ Hk]]. apply glob_match_lits in Hk. exists (firstn k s).
    rewrite <- Hk. symmetry. apply firstn_skipn.
  - intros [p ->]. exists (length p). split.
    + apply in_seq. rewrite length_app. lia.
    + apply glob_match_lits, skipn_length_app.
Qed.

(** A pattern [**] followed by a text without stars matches exactly the
    URLs that end with that text. *)
Lemma url_matches_deep_suffix (pattern suffix url : string) :
  compile_glob (list_ascii_of_string pattern) = DeepStar :: map Lit (list_ascii_of_string suffix) ->
  url_matches pattern url = true <-> exists p, url = (p ++ suffix)%string.
Proof.
  intros Hc. unfold url_matches. rewrite Hc. split.
  - intros H. apply glob_match_deep_suffix in H as [p Hp].
    exists (string_of_list_ascii p). rewrite <- (string_of_list_ascii_of_string url), Hp.
    now rewrite string_of_list_ascii_app, string_of_list_ascii_of_string.
  - intros [p ->]. apply glob_match_deep_suffix. exists (list_ascii_of_string p).
    apply list_ascii_of_string_app.
Qed.

(** Serving a sequence of requests never changes the routes: each request
    is answered by the route that matches it, or else by the backend, and
    only the requests no route matches reach the backend log. *)
Lemma serve_all_spec (backend : string -> Response) (n : Net) (urls : list string) :
  serve_all backend n urls =
  (map (fun u => match dispatch (net_routes n) u with Some r => r | None => backend u end) urls,
   mkNet (net_routes n)
         (net_backend_log n ++ filter (fun u => match dispatch (net_routes n) u with
                                                | Some _ => false | None => true end) urls)).
Proof.
  revert n. induction urls as [|u us IH]; intros [rt log]; simpl.
  - now rewrite app_nil_r.
  - unfold serve. simpl. destruct (dispatch rt u) as [r|] eqn:E.
    + rewrite IH. reflexivity.
    + rewrite IH. simpl. now rewrite <- app_assoc.
Qed.
