(* ===== verification/Json.v ===== *)
(** * JSON bodies of the mocked routes

    The mocked responses of [verify_transparency.py] carry JSON text that
    the application parses ([JSON.parse] in the browser).  This file
    holds JSON values, their printing with Python's default separators
    (a comma then a blank between items, a colon then a blank after a
    key, as in the scripts' literals), and a recursive-descent parser
    bounded by a fuel argument.

    Strings are printed with two escapes, a backslash before a double
    quote or a backslash, and parsed back; numbers are natural numbers
    in decimal.  Other escapes, negative and fractional numbers are
    outside the subset (the scripts' bodies use none of them). *)

From Stdlib Require Import String Ascii List Bool Arith Lia.
From S2P Require Import Prelude.
Import ListNotations.
Local Open Scope char_scope.
Local Open Scope list_scope.
Local Open Scope nat_scope.

#[warnings="-register-all"]
Inductive Json : Type :=
| JNull
| JBool (b : bool)
| JNum (n : nat)
| JStr (s : string)
| JArr (vs : list Json)
| JObj (ms : list (string * Json)).

(** ** Printing *)

Definition quote : ascii := ascii_of_nat 34.
Definition backslash : ascii := ascii_of_nat 92.

Definition is_digit (c : ascii) : bool := Nat.leb 48 (nat_of_ascii c) && Nat.leb (nat_of_ascii c) 57.

(** The decimal digits of [n], least significant first; [fuel] bounds the
    number of digits. *)
Fixpoint digits_rev (fuel n : nat) : list ascii :=
  match fuel with
  | 0 => []
  | S f =>
      ascii_of_nat (48 + n mod 10) ::
      (if n <? 10 then [] else digits_rev f (n / 10))
  end.

Definition print_nat (n : nat) : list ascii := rev (digits_rev (S n) n).

Fixpoint escape (s : string) : list ascii :=
  match s with
  | EmptyString => []
  | String c s' =>
      if Ascii.eqb c quote || Ascii.eqb c backslash
      then backslash :: c :: escape s'
      else c :: escape s'
  end.

Definition print_str (s : string) : list ascii := quote :: escape s ++ [quote].

Definition sep : list ascii := [","; " "].
Definition colon : list ascii := [":"; " "].

(** The items of an array and the members of an object, separated. *)
Fixpoint print_items (pr : Json -> list ascii) (vs : list Json) : list ascii :=
  match vs with
  | [] => []
  | [v] => pr v
  | v :: vs' => pr v ++ sep ++ print_items pr vs'
  end.

Fixpoint print_members (pr : Json -> list ascii) (ms : list (string * Json)) : list ascii :=
  match ms with
  | [] => []
  | [(k, v)] => print_str k ++ colon ++ pr v
  | (k, v) :: ms' => print_str k ++ colon ++ pr v ++ sep ++ print_members pr ms'
  end.

(** [json.dumps] with its default separators. *)
Fixpoint print_json (v : Json) : list ascii :=
  match v with
  | JNull => ["n"; "u"; "l"; "l"]
  | JBool true => ["t"; "r"; "u"; "e"]
  | JBool false => ["f"; "a"; "l"; "s"; "e"]
  | JNum n => print_nat n
  | JStr s => print_str s
  | JArr vs => "[" :: print_items print_json vs ++ ["]"]
  | JObj ms => "{" :: print_members print_json ms ++ ["}"]
  end.

(** ** Parsing *)

Definition is_ws (c : ascii) : bool :=
  match nat_of_ascii c with 32 | 9 | 10 | 13 => true | _ => false end.

Fixpoint skip_ws (s : list ascii) : list ascii :=
  match s with
  | c :: s' => if is_ws c then skip_ws s' else s
  | [] => []
  end.

(** The characters of a string literal up to its closing quote. *)
Fixpoint parse_str_body (s : list ascii) : option (string * list ascii) :=
  match s with
  | [] => None
  | c :: s' =>
      if Ascii.eqb c quote then Some (EmptyString, s')
      else if Ascii.eqb c backslash then
        match s' with
        | c2 :: s'' =>
            if Ascii.eqb c2 quote || Ascii.eqb c2 backslash then
              match parse_str_body s'' with
              | Some (t, r) => Some (String c2 t, r)
              | None => None
              end
            else None
        | [] => None
        end
      else
        match parse_str_body s' with
        | Some (t, r) => Some (String c t, r)
        | None => None
        end
  end.

(** Decimal digits, accumulated into [acc]. *)
Fixpoint parse_digits (acc : nat) (s : list ascii) : nat * list ascii :=
  match s with
  | c :: s' => if is_digit c then parse_digits (acc * 10 + (nat_of_ascii c - 48)) s' else (acc, s)
  | [] => (acc, s)
  end.

Fixpoint parse_value (fuel : nat) (s : list ascii) : option (Json * list ascii) :=
  match fuel with
  | 0 => None
  | S f =>
      match skip_ws s with
      | "n" :: "u" :: "l" :: "l" :: r => Some (JNull, r)
      | "t" :: "r" :: "u" :: "e" :: r => Some (JBool true, r)
      | "f" :: "a" :: "l" :: "s" :: "e" :: r => Some (JBool false, r)
      | "[" :: r =>
          match skip_ws r with
          | "]" :: r' => Some (JArr [], r')
          | _ => match parse_items f r with Some (vs, r') => Some (JArr vs, r') | None => None end
          end
      | "{" :: r =>
          match skip_ws r with
          | "}" :: r' => Some (JObj [], r')
          | _ => match parse_members f r with Some (ms, r') => Some (JObj ms, r') | None => None end
          end
      | c :: r =>
          if Ascii.eqb c quote then
            match parse_str_body r with Some (t, r') => Some (JStr t, r') | None => None end
          else if is_digit c then
            let (n, r') := parse_digits 0 (c :: r) in Some (JNum n, r')
          else None
      | [] => None
      end
  end
(** [v, v, ..., v]] after the opening bracket. *)
with parse_items (fuel : nat) (s : list ascii) : option (list Json * list ascii) :=
  match fuel with
  | 0 => None
  | S f =>
      match parse_value f s with
      | Some (v, r) =>
          match skip_ws r with
          | "," :: r' => match parse_items f r' with Some (vs, r'') => Some (v :: vs, r'') | None => None end
          | "]" :: r' => Some ([v], r')
          | _ => None
          end
      | None => None
      end
  end
(** The members [k: v, ..., k: v] and the closing brace, after the
    opening brace. *)
with parse_members (fuel : nat) (s : list ascii) : option (list (string * Json) * list ascii) :=
  match fuel with
  | 0 => None
  | S f =>
      match skip_ws s with
      | c :: r =>
          if Ascii.eqb c quote then
            match parse_str_body r with
            | Some (k, r1) =>
                match skip_ws r1 with
                | ":" :: r2 =>
                    match parse_value f r2 with
                    | Some (v, r3) =>
                        match skip_ws r3 with
                        | "," :: r4 =>
                            match parse_members f r4 with
                            | Some (ms, r5) => Some ((k, v) :: ms, r5)
                            | None => None
                            end
                        | "}" :: r4 => Some ([(k, v)], r4)
                        | _ => None
                        end
                    | None => None
                    end
                | _ => None
                end
            | None => None
            end
          else None
      | [] => None
      end
  end.

(** [JSON.parse]: one value and nothing but white space after it.  The
    fuel, one more than the length of the text, bounds the nesting. *)
Definition parse_json (s : string) : option Json :=
  let cs := list_ascii_of_string s in
  match parse_value (S (length cs)) cs with
  | Some (v, r) => match skip_ws r with [] => Some v | _ => None end
  | None => None
  end.

(** ** Access *)

Fixpoint lookup_key (k : string) (ms : list (string * Json)) : option Json :=
  match ms with
  | [] => None
  | (k', v) :: ms' => if String.eqb k k' then Some v else lookup_key k ms'
  end.

(** [v[k]] on an object. *)
Definition field (k : string) (v : Json) : option Json :=
  match v with JObj ms => lookup_key k ms | _ => None end.

(** [v[i]] on an array. *)
Definition index (i : nat) (v : Json) : option Json :=
  match v with JArr vs => nth_error vs i | _ => None end.

(** ** Round trip *)

(** A text that cannot continue a number. *)
Definition stops (rest : list ascii) : bool :=
  match rest with c :: _ => negb (is_digit c) | [] => true end.

Lemma parse_escape (s : string) (rest : list ascii) :
  parse_str_body (escape s ++ quote :: rest) = Some (s, rest).
Proof.
  induction s as [|c s IH]; [reflexivity|]. simpl.
  destruct (Ascii.eqb c quote) eqn:Eq; simpl.
  - apply Ascii.eqb_eq in Eq. subst c. rewrite IH. reflexivity.
  - destruct (Ascii.eqb c backslash) eqn:Eb; simpl.
    + apply Ascii.eqb_eq in Eb. subst c. rewrite IH. reflexivity.
    + rewrite Eq, Eb, IH. reflexivity.
Qed.

(** The value of a list of decimal digits read after [acc]. *)
Fixpoint digits_val (acc : nat) (ds : list ascii) : nat :=
  match ds with
  | [] => acc
  | d :: ds' => digits_val (acc * 10 + (nat_of_ascii d - 48)) ds'
  end.

Lemma parse_digits_app (acc : nat) (ds rest : list ascii) :
  forallb is_digit ds = true -> stops rest = true ->
  parse_digits acc (ds ++ rest) = (digits_val acc ds, rest).
Proof.
  revert acc. induction ds as [|d ds IH]; intros acc Hd Hr; simpl in *.
  - destruct rest as [|c rest]; [reflexivity|]. simpl in Hr |- *.
    destruct (is_digit c); [discriminate | reflexivity].
  - apply andb_true_iff in Hd as [H1 H2]. rewrite H1. auto.
Qed.

Lemma digits_val_app (acc : nat) (ds : list ascii) (d : ascii) :
  digits_val acc (ds ++ [d]) = digits_val acc ds * 10 + (nat_of_ascii d - 48).
Proof. revert acc. induction ds as [|d' ds IH]; intros acc; simpl; auto. Qed.

Lemma digit_char_val (n : nat) : nat_of_ascii (ascii_of_nat (48 + n mod 10)) = 48 + n mod 10.
Proof.
  apply nat_ascii_embedding. pose proof (Nat.mod_upper_bound n 10). lia.
Qed.

Lemma digits_rev_digits (fuel n : nat) : forallb is_digit (digits_rev fuel n) = true.
Proof.
  revert n. induction fuel as [|f IH]; intros n; [reflexivity|]. cbn [digits_rev forallb].
  unfold is_digit at 1. rewrite digit_char_val.
  pose proof (Nat.mod_upper_bound n 10).
  replace (Nat.leb 48 (48 + n mod 10) && Nat.leb (48 + n mod 10) 57) with true
    by (symmetry; apply andb_true_iff; split; apply Nat.leb_le; lia).
  destruct (n <? 10); cbn [andb forallb]; auto.
Qed.

Lemma digits_rev_val (fuel n : nat) : n < fuel -> digits_val 0 (rev (digits_rev fuel n)) = n.
Proof.
  revert n. induction fuel as [|f IH]; intros n Hn; [lia|]. cbn [digits_rev rev].
  rewrite digits_val_app, digit_char_val. replace (48 + n mod 10 - 48) with (n mod 10) by lia.
  destruct (Nat.ltb_spec n 10) as [Hlt|Hge].
  - cbn [rev app digits_val]. rewrite Nat.mod_small by lia. reflexivity.
  - rewrite IH by (apply Nat.Div0.div_lt_upper_bound; lia).
    pose proof (Nat.div_mod_eq n 10). lia.
Qed.

Lemma print_nat_digits (n : nat) : forallb is_digit (print_nat n) = true.
Proof.
  unfold print_nat. pose proof (digits_rev_digits (S n) n) as H.
  rewrite forallb_forall in *. intros x Hx. apply H, in_rev, Hx.
Qed.

Lemma parse_print_nat (n : nat) (rest : list ascii) :
  stops rest = true -> parse_digits 0 (print_nat n ++ rest) = (n, rest).
Proof.
  intros Hr. rewrite parse_digits_app by (apply print_nat_digits || exact Hr).
  unfold print_nat. rewrite digits_rev_val by lia. reflexivity.
Qed.

(** *** The size of a value, which bounds the fuel its parse needs *)

Fixpoint size (v : Json) : nat :=
  match v with
  | JArr vs => S (list_sum (map size vs) + length vs)
  | JObj ms => S (list_sum (map (fun kv => size (snd kv)) ms) + length ms)
  | _ => 1
  end.

Section JsonInd.
Variable P : Json -> Prop.
Hypothesis HNull : P JNull.
Hypothesis HBool : forall b, P (JBool b).
Hypothesis HNum : forall n, P (JNum n).
Hypothesis HStr : forall s, P (JStr s).
Hypothesis HArr : forall vs, Forall P vs -> P (JArr vs).
Hypothesis HObj : forall ms, Forall (fun kv => P (snd kv)) ms -> P (JObj ms).

(** Induction on values through the lists they nest. *)
Fixpoint Json_nested_ind (v : Json) : P v :=
  match v with
  | JNull => HNull
  | JBool b => HBool b
  | JNum n => HNum n
  | JStr s => HStr s
  | JArr vs =>
      HArr vs ((fix go (l : list Json) : Forall P l :=
                  match l with
                  | [] => Forall_nil _
                  | x :: l' => Forall_cons _ (Json_nested_ind x) (go l')
                  end) vs)
  | JObj ms =>
      HObj ms ((fix go (l : list (string * Json)) : Forall (fun kv => P (snd kv)) l :=
                  match l with
                  | [] => Forall_nil _
                  | kv :: l' => Forall_cons _ (Json_nested_ind (snd kv)) (go l')
                  end) ms)
  end.
End JsonInd.

(** The characters a printed value can start with. *)
Definition digit_chars : list ascii := ["0"; "1"; "2"; "3"; "4"; "5"; "6"; "7"; "8"; "9"].

Lemma is_digit_in (c : ascii) : is_digit c = true -> In c digit_chars.
Proof.
  destruct c as [[] [] [] [] [] [] [] []]; vm_compute; intuition discriminate.
Qed.

Lemma print_nat_head (n : nat) : exists c t, print_nat n = c :: t /\ In c digit_chars.
Proof.
  pose proof (print_nat_digits n) as Hd. unfold print_nat in *.
  destruct (rev (digits_rev (S n) n)) as [|c t] eqn:E.
  - apply (f_equal (@length ascii)) in E. rewrite length_rev in E. discriminate.
  - exists c, t. split; [reflexivity|]. apply is_digit_in. cbn [forallb] in Hd.
    apply andb_true_iff in Hd as [Hd _]. exact Hd.
Qed.

(** *** One step of the parser on each kind of printed text *)

Lemma parse_value_ws (f : nat) (s : list ascii) : parse_value f (" " :: s) = parse_value f s.
Proof. destruct f; reflexivity. Qed.

Lemma parse_items_ws (f : nat) (s : list ascii) : parse_items f (" " :: s) = parse_items f s.
Proof. destruct f; [reflexivity|]. cbn [parse_items]. now rewrite parse_value_ws. Qed.

Lemma parse_members_ws (f : nat) (s : list ascii) : parse_members f (" " :: s) = parse_members f s.
Proof. destruct f; reflexivity. Qed.

Lemma parse_value_num (f : nat) (c : ascii) (t : list ascii) :
  In c digit_chars ->
  parse_value (S f) (c :: t) = let (n, r) := parse_digits 0 (c :: t) in Some (JNum n, r).
Proof. intros Hc. repeat destruct Hc as [<-|Hc]; [reflexivity ..|destruct Hc]. Qed.

Lemma parse_value_str (f : nat) (t : list ascii) :
  parse_value (S f) (quote :: t) =
  match parse_str_body t with Some (s, r) => Some (JStr s, r) | None => None end.
Proof. reflexivity. Qed.

(** The characters a printed value starts with. *)
Definition first_chars : list ascii := ["n"; "t"; "f"; "["; "{"; quote] ++ digit_chars.

Lemma print_json_head (v : Json) : exists c t, print_json v = c :: t /\ In c first_chars.
Proof.
  destruct v as [| [] | n | s | vs | ms]; try (eexists _, _; split; [reflexivity | cbv; tauto]).
  destruct (print_nat_head n) as (c & t & E & Hc). exists c, t. split; [exact E|].
  unfold first_chars. apply in_or_app. right. exact Hc.
Qed.

Lemma parse_value_arr (f : nat) (c : ascii) (t : list ascii) :
  In c first_chars ->
  parse_value (S f) ("[" :: c :: t) =
  match parse_items f (c :: t) with Some (vs, r) => Some (JArr vs, r) | None => None end.
Proof. intros Hc. repeat destruct Hc as [<-|Hc]; [reflexivity ..|destruct Hc]. Qed.

Lemma parse_value_obj (f : nat) (t : list ascii) :
  parse_value (S f) ("{" :: quote :: t) =
  match parse_members f (quote :: t) with Some (ms, r) => Some (JObj ms, r) | None => None end.
Proof. reflexivity. Qed.

Lemma skip_ws_nonws (c : ascii) (s : list ascii) : is_ws c = false -> skip_ws (c :: s) = c :: s.
Proof. intros H. cbn [skip_ws]. now rewrite H. Qed.

Lemma parse_items_next (f : nat) (s r : list ascii) (v : Json) :
  parse_value f s = Some (v, "," :: r) ->
  parse_items (S f) s = match parse_items f r with Some (vs, r') => Some (v :: vs, r') | None => None end.
Proof. intros H. cbn [parse_items]. rewrite H. reflexivity. Qed.

Lemma parse_items_last (f : nat) (s r : list ascii) (v : Json) :
  parse_value f s = Some (v, "]" :: r) -> parse_items (S f) s = Some ([v], r).
Proof. intros H. cbn [parse_items]. rewrite H. reflexivity. Qed.

Lemma parse_members_next (f : nat) (s r2 r : list ascii) (k : string) (v : Json) :
  parse_str_body s = Some (k, ":" :: r2) -> parse_value f r2 = Some (v, "," :: r) ->
  parse_members (S f) (quote :: s) =
  match parse_members f r with Some (ms, r') => Some ((k, v) :: ms, r') | None => None end.
Proof.
  intros Hk Hv. cbn [parse_members]. rewrite skip_ws_nonws by reflexivity.
  rewrite Ascii.eqb_refl, Hk. cbv iota beta. rewrite skip_ws_nonws by reflexivity.
  cbv iota beta. rewrite Hv. reflexivity.
Qed.

Lemma parse_members_last (f : nat) (s r2 r : list ascii) (k : string) (v : Json) :
  parse_str_body s = Some (k, ":" :: r2) -> parse_value f r2 = Some (v, "}" :: r) ->
  parse_members (S f) (quote :: s) = Some ([(k, v)], r).
Proof.
  intros Hk Hv. cbn [parse_members]. rewrite skip_ws_nonws by reflexivity.
  rewrite Ascii.eqb_refl, Hk. cbv iota beta. rewrite skip_ws_nonws by reflexivity.
  cbv iota beta. rewrite Hv. reflexivity.
Qed.

(** *** Printing then parsing gives the value back *)

(** [v] is read back from its printed text followed by any text that
    cannot continue it, with any fuel above its size. *)
Definition parses_back (v : Json) : Prop :=
  forall f rest, size v < f -> stops rest = true -> parse_value f (print_json v ++ rest) = Some (v, rest).

Lemma print_items_more (pr : Json -> list ascii) (v v2 : Json) (vs : list Json) :
  print_items pr (v :: v2 :: vs) = pr v ++ sep ++ print_items pr (v2 :: vs).
Proof. reflexivity. Qed.

Lemma print_members_more (pr : Json -> list ascii) (k : string) (v : Json) kv ms :
  print_members pr ((k, v) :: kv :: ms) = print_str k ++ colon ++ pr v ++ sep ++ print_members pr (kv :: ms).
Proof. destruct kv; reflexivity. Qed.

Lemma parse_print_items (vs : list Json) :
  Forall parses_back vs -> forall f rest, vs <> [] -> list_sum (map size vs) + length vs < f ->
  parse_items f (print_items print_json vs ++ "]" :: rest) = Some (vs, rest).
Proof.
  induction 1 as [|v vs Hv _ IH]; intros f rest Hne Hf; [congruence|].
  destruct f as [|f]; [lia|]. destruct vs as [|v2 vs].
  - apply parse_items_last, Hv; [cbn in Hf; lia | reflexivity].
  - rewrite print_items_more, <- !app_assoc. unfold sep. cbn [app].
    erewrite parse_items_next by (apply Hv; [cbn in Hf; lia | reflexivity]).
    rewrite parse_items_ws, IH; [reflexivity | discriminate | cbn in Hf |- *; lia].
Qed.

Lemma parse_print_members (ms : list (string * Json)) :
  Forall (fun kv => parses_back (snd kv)) ms -> forall f rest, ms <> [] ->
  list_sum (map (fun kv => size (snd kv)) ms) + length ms < f ->
  parse_members f (print_members print_json ms ++ "}" :: rest) = Some (ms, rest).
Proof.
  induction 1 as [|[k v] ms Hv _ IH]; intros f rest Hne Hf; [congruence|].
  destruct f as [|f]; [lia|]. cbn [snd] in Hv. destruct ms as [|kv ms].
  - cbn [print_members]. unfold print_str, colon. app_norm.
    eapply parse_members_last; [apply parse_escape|].
    rewrite parse_value_ws. apply Hv; [cbn in Hf; lia | reflexivity].
  - rewrite print_members_more. unfold print_str, colon, sep. app_norm.
    erewrite parse_members_next; [| apply parse_escape |].
    + rewrite parse_members_ws, IH; [reflexivity | discriminate | cbn in Hf |- *; lia].
    + rewrite parse_value_ws. apply Hv; [cbn in Hf; lia | reflexivity].
Qed.

(** A text that starts with a character a printed value can start with. *)
Definition starts_value (s : list ascii) : Prop := exists c t, s = c :: t /\ In c first_chars.

Lemma starts_value_app (v : Json) (x : list ascii) : starts_value (print_json v ++ x).
Proof.
  destruct (print_json_head v) as (c & t & E & Hc). rewrite E. now exists c, (t ++ x).
Qed.

Lemma parse_value_arr_start (f : nat) (s : list ascii) :
  starts_value s ->
  parse_value (S f) ("[" :: s) =
  match parse_items f s with Some (vs, r) => Some (JArr vs, r) | None => None end.
Proof. intros (c & t & -> & Hc). now apply parse_value_arr. Qed.

Lemma print_items_cons (pr : Json -> list ascii) (v : Json) (vs : list Json) :
  exists x, print_items pr (v :: vs) = pr v ++ x.
Proof. destruct vs; [exists []; now rewrite app_nil_r | eexists; reflexivity]. Qed.

Lemma print_members_cons (pr : Json -> list ascii) kv ms :
  exists x, print_members pr (kv :: ms) = quote :: x.
Proof. destruct kv, ms; eexists; reflexivity. Qed.

Lemma parse_print_json (v : Json) : parses_back v.
Proof.
  induction v as [| [] | n | s | vs Hvs | ms Hms] using Json_nested_ind;
    intros f rest Hf Hr; (destruct f as [|f]; [cbn in Hf; lia|]); try reflexivity.
  - destruct (print_nat_head n) as (c & t & E & Hc). cbn [print_json]. rewrite E. cbn [app].
    rewrite parse_value_num by exact Hc. rewrite app_comm_cons, <- E, parse_print_nat by exact Hr.
    reflexivity.
  - cbn [print_json]. unfold print_str. app_norm. rewrite parse_value_str, parse_escape. reflexivity.
  - destruct vs as [|v vs]; [reflexivity|]. cbn [print_json]. app_norm.
    destruct (print_items_cons print_json v vs) as [x Ex].
    rewrite parse_value_arr_start by (rewrite Ex, <- app_assoc; apply starts_value_app).
    rewrite parse_print_items; [reflexivity | exact Hvs | discriminate | cbn in Hf |- *; lia].
  - destruct ms as [|kv ms]; [reflexivity|]. cbn [print_json]. app_norm.
    destruct (print_members_cons print_json kv ms) as [x Ex]. rewrite Ex. cbn [app].
    rewrite parse_value_obj, app_comm_cons, <- Ex.
    rewrite parse_print_members; [reflexivity | exact Hms | discriminate | cbn in Hf |- *; lia].
Qed.

(** *** Sizes and lengths: the fuel of [parse_json] is enough *)

Lemma print_str_length (s : string) : 2 <= length (print_str s).
Proof. unfold print_str. cbn [length]. rewrite length_app. cbn [length]. lia. Qed.

Lemma print_items_length (pr : Json -> list ascii) (vs : list Json) :
  Forall (fun v => size v <= length (pr v)) vs ->
  list_sum (map size vs) + length vs <= S (length (print_items pr vs)).
Proof.
  induction 1 as [|v vs Hv _ IH]; [cbn; lia|]. destruct vs as [|v2 vs].
  - cbn. lia.
  - rewrite print_items_more, !length_app. cbn [map list_sum fold_right length] in *. unfold sep. cbn [length]. lia.
Qed.

Lemma print_members_length (pr : Json -> list ascii) (ms : list (string * Json)) :
  Forall (fun kv => size (snd kv) <= length (pr (snd kv))) ms ->
  list_sum (map (fun kv => size (snd kv)) ms) + length ms <= S (length (print_members pr ms)).
Proof.
  induction 1 as [|[k v] ms Hv _ IH]; [cbn; lia|]. pose proof (print_str_length k).
  cbn [snd] in Hv. destruct ms as [|kv ms].
  - cbn [print_members map list_sum fold_right length snd]. rewrite !length_app. unfold colon. cbn [length]. lia.
  - rewrite print_members_more, !length_app. cbn [map list_sum fold_right length snd] in *.
    unfold colon, sep. cbn [length]. lia.
Qed.

Lemma size_le_print (v : Json) : size v <= length (print_json v).
Proof.
  induction v as [| [] | n | s | vs Hvs | ms Hms] using Json_nested_ind; cbn [size print_json];
    [cbn; lia .. | | | |].
  - destruct (print_nat_head n) as (c & t & -> & _). cbn. lia.
  - pose proof (print_str_length s). lia.
  - cbn [length]. rewrite length_app. cbn [length]. pose proof (print_items_length print_json vs Hvs). lia.
  - cbn [length]. rewrite length_app. cbn [length]. pose proof (print_members_length print_json ms Hms). lia.
Qed.

(** [JSON.parse] reads back every printed value. *)
Lemma parse_json_print (v : Json) : parse_json (string_of_list_ascii (print_json v)) = Some v.
Proof.
  unfold parse_json. rewrite list_ascii_of_string_of_list_ascii.
  pose proof (parse_print_json v (S (length (print_json v))) []) as H.
  rewrite app_nil_r in H. rewrite H by (pose proof (size_le_print v); cbn; lia). reflexivity.
Qed.

(** ** Paths into a value *)

(** A path step: a key of an object or an index of an array. *)
Definition step : Type := (string + nat)%type.

(** [v[p1][p2]...], [None] where a step does not apply. *)
Fixpoint get (p : list step) (v : Json) : option Json :=
  match p with
  | [] => Some v
  | inl k :: p' => match field k v with Some v' => get p' v' | None => None end
  | inr i :: p' => match index i v with Some v' => get p' v' | None => None end
  end.
