(* ===== verification/Prog.v ===== *)
(** * Programs over the Playwright sync API

    [Call] lists the Playwright operations the three scripts perform,
    one constructor per method ([p.chromium.launch], [page.goto],
    [locator.click], [expect(locator).to_be_visible], ...), plus the entry
    and exit of [with sync_playwright()] and [print].  Every call answers
    a value ([Val]: Python's [None] or a [bool]) or raises an [Exn].

    A script is a [Prog]: a finite tree whose nodes are calls and whose
    branches are the possible answers.  [bind] is Python's sequencing,
    [try_except] is [try: ... except Exception as e: ...], [try_finally]
    is [try: ... finally: ...] and [with_playwright] is the [with] block.

    [run h p w] executes [p] against a handler [h], which answers each
    call and updates a world [w] of any type, and returns the outcome, the
    final world and the trace of calls with their answers.  The laws
    [run_bind], [run_try_except] and [run_try_finally] give the trace of
    a composite program from the traces of its parts. *)

From Stdlib Require Import String List Bool NArith Lia.
From S2P Require Import Prelude Locator Routes.
Import ListNotations.

(** ** Values, exceptions and calls *)

(** What a call returns: [None] or a [bool] ([is_visible]). *)
Inductive Val : Type :=
| VNone
| VBool (b : bool).

(** The exceptions Playwright raises, with their message ([str(e)]). *)
Inductive Exn : Type :=
| TimeoutError (msg : string)
| AssertionError (msg : string)
| PlaywrightError (msg : string).

(** [str(e)], as used by the f-strings of the scripts. *)
Definition exn_str (e : Exn) : string :=
  match e with
  | TimeoutError m | AssertionError m | PlaywrightError m => m
  end.

(** [select_option(value=v)] matches the value only; a positional
    [select_option(v)] matches the value or the label. *)
Inductive SelectBy : Type :=
| ByValue (v : string)
| ByValueOrLabel (v : string).

Inductive Call : Type :=
| PlaywrightStart                              (** [sync_playwright().__enter__] *)
| PlaywrightStop                               (** [__exit__] of the [with] block *)
| Launch (headless : bool)                     (** [p.chromium.launch] *)
| BrowserNewPage                               (** [browser.new_page()] *)
| BrowserNewContext                            (** [browser.new_context()] *)
| ContextNewPage                               (** [context.new_page()] *)
| BrowserClose                                 (** [browser.close()] *)
| Goto (url : string)                          (** [page.goto(url)] *)
| WaitForLoadState (state : string)            (** [page.wait_for_load_state] *)
| RouteFulfill (pattern : string) (r : Response)
    (** [page.route(pattern, lambda route: route.fulfill(...))] *)
| Screenshot (path : string)                   (** [page.screenshot(path=...)] *)
| Click (l : Locator)
| Fill (l : Locator) (value : string)
| Check (l : Locator)
| IsVisible (l : Locator)
| SelectOption (l : Locator) (o : SelectBy)      (** [locator.select_option]: strict *)
| PageSelectOption (selector : string) (o : SelectBy)
    (** [page.select_option(selector, ...)]: not strict, the first match *)
| ExpectVisible (l : Locator) (timeout : option N)
    (** [expect(l).to_be_visible()] or [to_be_visible(timeout=t)] *)
| Print (msg : string).

Definition SelectBy_eq_dec (a b : SelectBy) : {a = b} + {a <> b}.
Proof. decide equality; apply string_dec. Defined.

Definition Call_eq_dec (a b : Call) : {a = b} + {a <> b}.
Proof.
  decide equality;
    first [ apply string_dec | apply bool_dec | apply Locator_eq_dec
          | apply Response_eq_dec | apply SelectBy_eq_dec
          | decide equality; apply N.eq_dec ].
Defined.

Definition call_eqb (a b : Call) : bool := if Call_eq_dec a b then true else false.

(** ** The program monad *)

Inductive Prog (A : Type) : Type :=
| Ret (a : A)
| Throw (e : Exn)
| Vis (c : Call) (k : result Exn Val -> Prog A).
Arguments Ret {A} a.
Arguments Throw {A} e.
Arguments Vis {A} c k.

Fixpoint bind {A B} (p : Prog A) (f : A -> Prog B) : Prog B :=
  match p with
  | Ret a => f a
  | Throw e => Throw e
  | Vis c k => Vis c (fun r => bind (k r) f)
  end.

Declare Scope prog_scope.
Delimit Scope prog_scope with prog.
Notation "x <- p ;; q" := (bind p (fun x => q))
  (at level 61, p at next level, right associativity) : prog_scope.
Notation "p ;; q" := (bind p (fun _ => q))
  (at level 61, right associativity) : prog_scope.
Open Scope prog_scope.

(** Perform one call; an exception it raises propagates. *)
Definition call (c : Call) : Prog Val :=
  Vis c (fun r => match r with Ok v => Ret v | Err e => Throw e end).

(** [try: p except Exception as e: h(e)] *)
Fixpoint try_except {A} (p : Prog A) (h : Exn -> Prog A) : Prog A :=
  match p with
  | Ret a => Ret a
  | Throw e => h e
  | Vis c k => Vis c (fun r => try_except (k r) h)
  end.

(** [try: p finally: f]: [f] runs on both paths; an exception of [f]
    replaces the one of [p]. *)
Definition try_finally {A} (p : Prog A) (f : Prog unit) : Prog A :=
  r <- try_except (a <- p ;; Ret (inl a)) (fun e => Ret (inr e)) ;;
  f ;;
  match r with inl a => Ret a | inr e => Throw e end.

(** [with sync_playwright() as p: body] *)
Definition with_playwright {A} (body : Prog A) : Prog A :=
  call PlaywrightStart ;;
  try_finally body (call PlaywrightStop ;; Ret tt).

(** ** Running a program against a handler *)

Definition Event : Type := (Call * result Exn Val)%type.

(** The calls of a trace, in order. *)
Definition calls (t : list Event) : list Call := map fst t.

Lemma calls_app (t1 t2 : list Event) : calls (t1 ++ t2) = calls t1 ++ calls t2.
Proof. apply map_app. Qed.

Lemma calls_cons (ev : Event) (t : list Event) : calls (ev :: t) = fst ev :: calls t.
Proof. reflexivity. Qed.

Lemma in_calls (c : Call) (r : result Exn Val) (t : list Event) :
  In (c, r) t -> In c (calls t).
Proof. apply in_map_fst. Qed.

#[export] Hint Resolve in_calls : xp.

Section Run.
Context {W : Type} (h : Call -> W -> result Exn Val * W).

Fixpoint run {A} (p : Prog A) (w : W) : result Exn A * W * list Event :=
  match p with
  | Ret a => (Ok a, w, [])
  | Throw e => (Err e, w, [])
  | Vis c k =>
      let (r, w1) := h c w in
      let '(o, w2, t) := run (k r) w1 in
      (o, w2, (c, r) :: t)
  end.
End Run.

Definition outcome {A W} (x : result Exn A * W * list Event) : result Exn A :=
  fst (fst x).
Definition trace {A W} (x : result Exn A * W * list Event) : list Event := snd x.

(** A call answered without raising. *)
Definition ev_ok (ev : Event) : bool := is_ok (snd ev).

(** A straight-line block of statements, each one call. *)
Fixpoint seq_calls (cs : list Call) : Prog unit :=
  match cs with
  | [] => Ret tt
  | c :: cs' => call c ;; seq_calls cs'
  end.

(** ** Laws of [run] *)

Section Laws.
Context {W : Type} (h : Call -> W -> result Exn Val * W).

Lemma run_ret {A} (a : A) (w : W) : run h (Ret a) w = (Ok a, w, []).
Proof. reflexivity. Qed.

Lemma run_throw {A} (e : Exn) (w : W) : run h (@Throw A e) w = (Err e, w, []).
Proof. reflexivity. Qed.

Lemma run_call (c : Call) (w : W) :
  run h (call c) w = let (r, w1) := h c w in (r, w1, [(c, r)]).
Proof. simpl. destruct (h c w) as [[v|e] w1]; reflexivity. Qed.

Lemma run_bind {A B} (p : Prog A) (f : A -> Prog B) (w : W) :
  run h (bind p f) w =
  match run h p w with
  | (Ok a, w1, t1) => let '(o, w2, t2) := run h (f a) w1 in (o, w2, t1 ++ t2)
  | (Err e, w1, t1) => (Err e, w1, t1)
  end.
Proof.
  revert w. induction p as [a|e|c k IH]; intros w; simpl.
  - destruct (run h (f a) w) as [[o w2] t2]; reflexivity.
  - reflexivity.
  - destruct (h c w) as [r w1]. rewrite IH.
    destruct (run h (k r) w1) as [[[a|e] w2] t]; [|reflexivity].
    destruct (run h (f a) w2) as [[o w3] t2]; reflexivity.
Qed.

Lemma run_try_except {A} (p : Prog A) (hd : Exn -> Prog A) (w : W) :
  run h (try_except p hd) w =
  match run h p w with
  | (Ok a, w1, t1) => (Ok a, w1, t1)
  | (Err e, w1, t1) => let '(o, w2, t2) := run h (hd e) w1 in (o, w2, t1 ++ t2)
  end.
Proof.
  revert w. induction p as [a|e|c k IH]; intros w; simpl.
  - reflexivity.
  - destruct (run h (hd e) w) as [[o w2] t2]; reflexivity.
  - destruct (h c w) as [r w1]. rewrite IH.
    destruct (run h (k r) w1) as [[[a|e] w2] t]; [reflexivity|].
    destruct (run h (hd e) w2) as [[o w3] t2]; reflexivity.
Qed.

(** [finally]: the cleanup runs after the body on every path, and the
    outcome is the body's unless the cleanup raises. *)
Lemma run_try_finally {A} (p : Prog A) (f : Prog unit) (w : W) :
  run h (try_finally p f) w =
  let '(o1, w1, t1) := run h p w in
  let '(o2, w2, t2) := run h f w1 in
  (match o2 with Ok _ => o1 | Err e => Err e end, w2, t1 ++ t2).
Proof.
  unfold try_finally. rewrite run_bind, run_try_except, run_bind.
  destruct (run h p w) as [[[a|e] w1] t1]; simpl;
    rewrite run_bind; destruct (run h f w1) as [[[u|e2] w2] t2]; simpl;
    rewrite ?app_nil_r; reflexivity.
Qed.

(** A straight-line block stops at the first call that raises, with
    that exception; otherwise it makes every call. *)
Lemma run_seq_calls (cs : list Call) (w : W) :
  let '(o, _, t) := run h (seq_calls cs) w in
  (o = Ok tt /\ calls t = cs /\ forallb ev_ok t = true) \/
  (exists t0 c e, t = t0 ++ [(c, Err e)] /\ forallb ev_ok t0 = true /\
                  o = Err e /\ calls t0 ++ [c] <<= cs).
Proof.
  revert w. induction cs as [|c cs IH]; intros w.
  - left. auto.
  - cbn [seq_calls]. rewrite run_bind, run_call.
    destruct (h c w) as [[v|e] w1].
    + specialize (IH w1).
      destruct (run h (seq_calls cs) w1) as [[o w2] t] eqn:E.
      destruct IH as [(-> & Hc & Hok) | (t0 & c' & e & -> & Hok & -> & Hp)].
      * left. simpl. rewrite Hc, Hok. auto.
      * right. exists ((c, Ok v) :: t0), c', e. simpl. rewrite Hok.
        repeat split; auto with xp.
    + right. exists [], c, e. repeat split; simpl; auto. now exists cs.
Qed.

Lemma run_seq_calls_app (l1 l2 : list Call) (w : W) :
  run h (seq_calls (l1 ++ l2)) w =
  match run h (seq_calls l1) w with
  | (Ok _, w1, t1) => let '(o, w2, t2) := run h (seq_calls l2) w1 in (o, w2, t1 ++ t2)
  | (Err e, w1, t1) => (Err e, w1, t1)
  end.
Proof.
  revert w. induction l1 as [|c l1 IH]; intros w.
  - simpl. now destruct (run h (seq_calls l2) w) as [[o w2] t2].
  - cbn [app seq_calls]. rewrite !run_bind, run_call.
    destruct (h c w) as [[v|e] w1]; [|reflexivity].
    rewrite IH. destruct (run h (seq_calls l1) w1) as [[[u|e] w2] t1]; [|reflexivity].
    now destruct (run h (seq_calls l2) w2) as [[o w3] t2].
Qed.

(** Every call a straight-line block makes is one of its statements. *)
Lemma seq_calls_calls_in (cs : list Call) (w : W) c :
  In c (calls (trace (run h (seq_calls cs) w))) -> In c cs.
Proof.
  pose proof (run_seq_calls cs w) as H. unfold trace.
  destruct (run h (seq_calls cs) w) as [[o w1] t]. simpl.
  destruct H as [(_ & -> & _) | (t0 & c' & e & -> & _ & _ & [l Hl])]; auto.
  unfold calls in *. rewrite Hl, map_app. intros Hc. apply in_or_app. now left.
Qed.

(** In a straight-line block, the statement [c2] that follows [c1] is
    executed exactly when [c1] answered without raising. *)
Lemma seq_calls_next_iff (pre post : list Call) (c1 c2 : Call) (w : W) :
  c1 <> c2 -> ~ In c1 pre -> ~ In c2 pre ->
  let t := trace (run h (seq_calls (pre ++ c1 :: c2 :: post)) w) in
  In c2 (calls t) <-> exists v, In (c1, Ok v) t.
Proof.
  intros H12 H1 H2. unfold trace. rewrite run_seq_calls_app.
  pose proof (seq_calls_calls_in pre w) as Hin. unfold trace in Hin.
  destruct (run h (seq_calls pre) w) as [[[u|e] w1] t1]; simpl in Hin |- *.
  - destruct (h c1 w1) as [[v|e] w2]; simpl.
    + destruct (h c2 w2) as [r w3]. simpl.
      destruct (run h _ w3) as [[o w4] t2]. simpl. unfold calls. rewrite map_app. simpl.
      split; intros _; [exists v | ]; apply in_or_app; simpl; auto.
    + unfold calls. rewrite map_app. simpl. split.
      * intros Hc. exfalso. apply in_app_or in Hc as [Hc|[Hc|[]]]; [|congruence].
        apply H2, Hin, Hc.
      * intros [v Hv]. apply in_app_or in Hv as [Hv|[Hv|[]]]; [|discriminate].
        exfalso. apply H1, Hin. eauto with xp.
  - split.
    + intros Hc. exfalso. apply H2, Hin, Hc.
    + intros [v Hv]. exfalso. apply H1, Hin. eauto with xp.
Qed.

Lemma run_with_playwright {A} (body : Prog A) (w : W) :
  run h (with_playwright body) w =
  let (r0, w0) := h PlaywrightStart w in
  match r0 with
  | Err e => (Err e, w0, [(PlaywrightStart, Err e)])
  | Ok v =>
      let '(o1, w1, t1) := run h body w0 in
      let (r2, w2) := h PlaywrightStop w1 in
      (match r2 with Ok _ => o1 | Err e => Err e end, w2,
       (PlaywrightStart, Ok v) :: t1 ++ [(PlaywrightStop, r2)])
  end.
Proof.
  unfold with_playwright. rewrite run_bind, run_call.
  destruct (h PlaywrightStart w) as [[v|e] w0]; [|reflexivity].
  rewrite run_try_finally. destruct (run h body w0) as [[o1 w1] t1].
  rewrite run_bind, run_call. simpl.
  destruct (h PlaywrightStop w1) as [[v2|e2] w2]; reflexivity.
Qed.
End Laws.

Create Rewrite HintDb run_db.
#[export] Hint Rewrite @run_ret @run_throw @run_call @run_bind @run_try_except : run_db.

(** ** The frame of a [with sync_playwright()] block *)

Section Frame.
Context {W : Type} (h : Call -> W -> result Exn Val * W).

(** The trace of a [with] block: the entry, then (if it succeeded) the
    body's trace and the exit, whatever the body did. *)
Lemma with_playwright_trace {A} (body : Prog A) (w : W) :
  match h PlaywrightStart w with
  | (Err e, _) => run h (with_playwright body) w = (Err e, snd (h PlaywrightStart w), [(PlaywrightStart, Err e)])
  | (Ok v, w0) =>
      exists r2, trace (run h (with_playwright body) w) =
                 (PlaywrightStart, Ok v) :: trace (run h body w0) ++ [(PlaywrightStop, r2)]
              /\ outcome (run h (with_playwright body) w) =
                 match r2 with Ok _ => outcome (run h body w0) | Err e => Err e end
  end.
Proof.
  rewrite run_with_playwright. destruct (h PlaywrightStart w) as [[v|e] w0]; [|reflexivity].
  destruct (run h body w0) as [[o1 w1] t1]. destruct (h PlaywrightStop w1) as [r2 w2].
  now exists r2.
Qed.

(** A block whose outcome is a value started, ran its body to a value,
    and exited. *)
Lemma with_playwright_ok {A} (body : Prog A) (w : W) (a : A) :
  outcome (run h (with_playwright body) w) = Ok a ->
  exists v w0 v2, h PlaywrightStart w = (Ok v, w0) /\ outcome (run h body w0) = Ok a /\
    trace (run h (with_playwright body) w) =
    (PlaywrightStart, Ok v) :: trace (run h body w0) ++ [(PlaywrightStop, Ok v2)].
Proof.
  pose proof (with_playwright_trace body w) as H.
  destruct (h PlaywrightStart w) as [[v|e] w0] eqn:E.
  - destruct H as [[v2|e2] [Ht Ho]]; rewrite Ho; [|discriminate].
    intros Hok. exists v, w0, v2. auto.
  - rewrite H. discriminate.
Qed.
End Frame.

(** Membership in a framed trace, for a call other than entry and exit. *)
Lemma in_frame_calls (c : Call) (r0 r2 : result Exn Val) (t : list Event) :
  c <> PlaywrightStart -> c <> PlaywrightStop ->
  In c (calls ((PlaywrightStart, r0) :: t ++ [(PlaywrightStop, r2)])) <-> In c (calls t).
Proof.
  intros H1 H2. unfold calls. simpl. rewrite map_app, in_app_iff. simpl.
  intuition congruence.
Qed.

Lemma in_frame_events (c : Call) (r r0 r2 : result Exn Val) (t : list Event) :
  c <> PlaywrightStart -> c <> PlaywrightStop ->
  In (c, r) ((PlaywrightStart, r0) :: t ++ [(PlaywrightStop, r2)]) <-> In (c, r) t.
Proof.
  intros H1 H2. simpl. rewrite in_app_iff. simpl. intuition congruence.
Qed.

(** In a trace where every call answered, every call made answered a value. *)
Lemma all_ok_in_calls (t : list Event) (c : Call) :
  forallb ev_ok t = true -> In c (calls t) -> exists v, In (c, Ok v) t.
Proof.
  intros Hok Hc. unfold calls in Hc. apply in_map_iff in Hc as [[c' r] [Hc' Hin]].
  simpl in Hc'. subst c'. rewrite forallb_forall in Hok. specialize (Hok _ Hin).
  destruct r as [v|e]; [exists v; exact Hin | discriminate].
Qed.

(** A trace where every call answered holds no raised call. *)
Lemma all_ok_no_err (t : list Event) (c : Call) (e : Exn) :
  forallb ev_ok t = true -> ~ In (c, Err e) t.
Proof.
  intros Hok Hin. rewrite forallb_forall in Hok. specialize (Hok _ Hin). discriminate.
Qed.

(** The exception that propagates out of a sequence of calls that all
    run (handlers and cleanups): the last one raised, else [e]. *)
Fixpoint last_exn (e : Exn) (t : list Event) : Exn :=
  match t with
  | [] => e
  | (_, Err e') :: t' => last_exn e' t'
  | (_, Ok _) :: t' => last_exn e t'
  end.

Lemma last_exn_app (e : Exn) (t1 t2 : list Event) :
  last_exn e (t1 ++ t2) = last_exn (last_exn e t1) t2.
Proof.
  revert e. induction t1 as [|[c [v|e']] t1 IH]; intros e; simpl; auto.
Qed.

(** A straight-line block that returned normally made every call and
    every call answered. *)
Lemma seq_calls_ok {W} (h : Call -> W -> result Exn Val * W) cs w :
  outcome (run h (seq_calls cs) w) = Ok tt ->
  calls (trace (run h (seq_calls cs) w)) = cs /\ forallb ev_ok (trace (run h (seq_calls cs) w)) = true.
Proof.
  pose proof (run_seq_calls h cs w) as H. unfold outcome, trace.
  destruct (run h (seq_calls cs) w) as [[o w1] t]. simpl.
  destruct H as [(_ & Hc & Hok) | (t0 & c & e & _ & _ & -> & _)]; [auto | discriminate].
Qed.

(** A [with] block around a straight line that returned normally made
    the entry, every statement and the exit, and all of them answered. *)
Lemma with_seq_calls_ok {W} (h : Call -> W -> result Exn Val * W) (cs : list Call) (w : W) :
  outcome (run h (with_playwright (seq_calls cs)) w) = Ok tt ->
  calls (trace (run h (with_playwright (seq_calls cs)) w)) = PlaywrightStart :: cs ++ [PlaywrightStop] /\
  forallb ev_ok (trace (run h (with_playwright (seq_calls cs)) w)) = true.
Proof.
  intros Hok. apply with_playwright_ok in Hok as (v0 & w0 & v2 & _ & Hb & ->).
  apply seq_calls_ok in Hb as [Hc Hall]. cbn [calls map fst forallb ev_ok is_ok snd].
  fold (calls (trace (run h (seq_calls cs) w0) ++ [(PlaywrightStop, Ok v2)])).
  rewrite calls_app, Hc, forallb_app, Hall. auto.
Qed.

(** A [with] block around a straight line, when a call [c] of its trace
    raised [e]: every call before it answered, only the exit follows it,
    and the block raises [e], or the exception of the exit if that one
    raised too.  No statement is retried and none is skipped over. *)
Lemma with_seq_calls_failure {W} (h : Call -> W -> result Exn Val * W) (cs : list Call) (w : W) c e :
  In (c, Err e) (trace (run h (with_playwright (seq_calls cs)) w)) -> c <> PlaywrightStop ->
  (exists t0 t1, trace (run h (with_playwright (seq_calls cs)) w) = t0 ++ (c, Err e) :: t1 /\
     forallb ev_ok t0 = true /\ Forall (fun ev => fst ev = PlaywrightStop) t1) /\
  (outcome (run h (with_playwright (seq_calls cs)) w) = Err e \/
   exists e', In (PlaywrightStop, Err e') (trace (run h (with_playwright (seq_calls cs)) w)) /\
              outcome (run h (with_playwright (seq_calls cs)) w) = Err e').
Proof.
  pose proof (with_playwright_trace h (seq_calls cs) w) as HW.
  destruct (h PlaywrightStart w) as [[v|e0] w0].
  - destruct HW as [r2 [-> Ho]]. rewrite Ho. intros Hin Hc.
    pose proof (run_seq_calls h cs w0) as Hs. unfold outcome, trace in *.
    destruct (run h (seq_calls cs) w0) as [[o w1] t] eqn:E. cbn [fst snd] in *.
    destruct Hs as [(-> & _ & Hok) | (t0 & c' & e' & -> & Hok & -> & _)].
    + exfalso. destruct Hin as [Hin|Hin]; [discriminate|].
      apply in_app_or in Hin as [Hin|[Hin|[]]]; [exact (all_ok_no_err _ _ _ Hok Hin) | congruence].
    + assert (c' = c /\ e' = e) as [-> ->].
      { destruct Hin as [Hin|Hin]; [discriminate|]. rewrite <- app_assoc in Hin.
        apply in_app_or in Hin as [Hin|[Hin|[Hin|[]]]];
          [destruct (all_ok_no_err _ _ _ Hok Hin) | split; congruence | congruence]. }
      split.
      * exists ((PlaywrightStart, Ok v) :: t0), [(PlaywrightStop, r2)]. cbn [app].
        rewrite <- app_assoc. repeat split; [cbn [forallb ev_ok is_ok snd]; exact Hok | auto].
      * destruct r2 as [v2|e2]; [left; reflexivity | right; exists e2; split; [|reflexivity]].
        right. apply in_or_app. right. left. reflexivity.
  - rewrite HW. intros [Hin|[]]. injection Hin as <- <-. intros _. split.
    + exists [], []. auto.
    + left. reflexivity.
Qed.

(** ** Stateless handlers

    A handler that answers each call by a fixed function of the call; the
    world is [unit].  Concrete runs of the scripts use it. *)
Definition answer_by (f : Call -> result Exn Val) : Call -> unit -> result Exn Val * unit :=
  fun c u => (f c, u).

(** Python's truth value of a returned value ([None] is false). *)
Definition truthy (v : Val) : bool :=
  match v with VNone => false | VBool b => b end.

(** ** Footprints

    [only_calls P p]: every call that [p] can make, whatever the answers,
    satisfies [P].  It bounds the calls of every trace of [p]. *)
Inductive only_calls {A} (P : Call -> Prop) : Prog A -> Prop :=
| oc_ret a : only_calls P (Ret a)
| oc_throw e : only_calls P (Throw e)
| oc_vis c k : P c -> (forall r, only_calls P (k r)) -> only_calls P (Vis c k).

Section Footprint.
Context (P : Call -> Prop).

Lemma only_calls_run {A W} (h : Call -> W -> result Exn Val * W) (p : Prog A) (w : W) ev :
  only_calls P p -> In ev (trace (run h p w)) -> P (fst ev).
Proof.
  intros Hp. revert w. induction Hp as [a|e|c k Hc Hk IH]; intros w; simpl; try tauto.
  destruct (h c w) as [r w1]. specialize (IH r w1). unfold trace in *.
  destruct (run h (k r) w1) as [[o w2] t]. simpl in *. intros [<-|Hin]; auto.
Qed.

Lemma only_calls_bind {A B} (p : Prog A) (f : A -> Prog B) :
  only_calls P p -> (forall a, only_calls P (f a)) -> only_calls P (bind p f).
Proof. intros Hp Hf. induction Hp; simpl; try constructor; auto. Qed.

Lemma only_calls_call c : P c -> only_calls P (call c).
Proof. intros Hc. constructor; [exact Hc|]. intros [v|e]; constructor. Qed.

Lemma only_calls_seq_calls cs : Forall P cs -> only_calls P (seq_calls cs).
Proof.
  induction 1; cbn [seq_calls]; [constructor|].
  apply only_calls_bind; [apply only_calls_call; assumption | auto].
Qed.

Lemma only_calls_try_except {A} (p : Prog A) (hd : Exn -> Prog A) :
  only_calls P p -> (forall e, only_calls P (hd e)) -> only_calls P (try_except p hd).
Proof. intros Hp Hh. induction Hp; simpl; try constructor; auto. Qed.

Lemma only_calls_try_finally {A} (p : Prog A) (f : Prog unit) :
  only_calls P p -> only_calls P f -> only_calls P (try_finally p f).
Proof.
  intros Hp Hf. unfold try_finally. apply only_calls_bind.
  - apply only_calls_try_except; [apply only_calls_bind; [exact Hp|constructor]|constructor].
  - intros r. apply only_calls_bind; [exact Hf|intros _; destruct r; constructor].
Qed.

Lemma only_calls_with_playwright {A} (body : Prog A) :
  P PlaywrightStart -> P PlaywrightStop -> only_calls P body -> only_calls P (with_playwright body).
Proof.
  intros H1 H2 Hb. apply only_calls_bind; [now apply only_calls_call|intros _].
  apply only_calls_try_finally; [exact Hb|apply only_calls_bind; [now apply only_calls_call|constructor]].
Qed.
End Footprint.

(** A straight line whose statements pass a boolean test, checked by
    computation. *)
Lemma only_calls_seq_calls_b (f : Call -> bool) (cs : list Call) :
  forallb f cs = true -> only_calls (fun c => f c = true) (seq_calls cs).
Proof. intros H. apply only_calls_seq_calls, Forall_forall. now apply forallb_forall. Qed.

#[export] Hint Constructors only_calls : xp.
#[export] Hint Resolve only_calls_bind only_calls_call only_calls_seq_calls
  only_calls_try_except only_calls_try_finally : xp.

(** A call outside a program's footprint never occurs in its traces. *)
Lemma not_in_footprint {A W} (h : Call -> W -> result Exn Val * W) (p : Prog A) (w : W) c r :
  only_calls (fun c' => c' <> c) p -> ~ In (c, r) (trace (run h p w)).
Proof. intros Hp Hin. exact (only_calls_run _ h p w _ Hp Hin eq_refl). Qed.

Lemma not_in_footprint_calls {A W} (h : Call -> W -> result Exn Val * W) (p : Prog A) (w : W) c :
  only_calls (fun c' => c' <> c) p -> ~ In c (calls (trace (run h p w))).
Proof.
  intros Hp Hin. unfold calls in Hin. apply in_map_iff in Hin as [[c' r] [Heq Hin]].
  simpl in Heq. subst c'. exact (not_in_footprint h p w c r Hp Hin).
Qed.

(** ** Where exceptions come from

    [raised_by S p]: whenever a run of [p] ends with an exception [e],
    either [S e] holds or a call of that run raised [e].  With [S] empty,
    every exception [p] ends with was raised by one of its calls: the
    program raises nothing of its own, and [raise e] in a handler only
    re-raises what it caught. *)
Definition raised_by {A} (S : Exn -> Prop) (p : Prog A) : Prop :=
  forall W (h : Call -> W -> result Exn Val * W) (w : W) (e : Exn),
    outcome (run h p w) = Err e -> S e \/ exists c, In (c, Err e) (trace (run h p w)).

Section RaisedBy.
Context (S : Exn -> Prop).

Lemma raised_by_ret {A} (a : A) : raised_by S (Ret a).
Proof. intros W h w e H. discriminate H. Qed.

Lemma raised_by_throw {A} (e : Exn) : S e -> raised_by S (@Throw A e).
Proof. intros He W h w e' H. injection H as <-. now left. Qed.

Lemma raised_by_call (c : Call) : raised_by S (call c).
Proof.
  intros W h w e. unfold outcome, trace. rewrite run_call.
  destruct (h c w) as [[v|e'] w1]; simpl; [discriminate|]. intros [= <-]. eauto.
Qed.

Lemma raised_by_bind {A B} (p : Prog A) (f : A -> Prog B) :
  raised_by S p -> (forall a, raised_by S (f a)) -> raised_by S (bind p f).
Proof.
  intros Hp Hf W h w e. specialize (Hp W h w e). unfold outcome, trace in *. rewrite run_bind.
  destruct (run h p w) as [[[a|e1] w1] t1]; simpl in *.
  - specialize (Hf a W h w1 e). unfold outcome, trace in Hf.
    destruct (run h (f a) w1) as [[o w2] t2]. simpl in *.
    intros Ho. destruct (Hf Ho) as [HS|[c Hc]]; [now left|right; exists c; apply in_or_app; now right].
  - intros [= ->]. exact (Hp eq_refl).
Qed.

(** A handler that may re-raise the exception it caught. *)
Lemma raised_by_try_except {A} (p : Prog A) (hd : Exn -> Prog A) :
  raised_by S p -> (forall e, raised_by (fun e' => e' = e \/ S e') (hd e)) ->
  raised_by S (try_except p hd).
Proof.
  intros Hp Hh W h w e. specialize (Hp W h w). unfold outcome, trace in *. rewrite run_try_except.
  destruct (run h p w) as [[[a|e1] w1] t1]; simpl in *; [exact (Hp e)|].
  specialize (Hh e1 W h w1 e). unfold outcome, trace in Hh.
  destruct (run h (hd e1) w1) as [[o w2] t2]. simpl in *. intros Ho.
  destruct (Hh Ho) as [[->|HS]|[c Hc]]; [|now left|right; exists c; apply in_or_app; now right].
  destruct (Hp e1 eq_refl) as [HS|[c Hc]]; [now left|right; exists c; apply in_or_app; now left].
Qed.

Lemma raised_by_try_finally {A} (p : Prog A) (f : Prog unit) :
  raised_by S p -> raised_by S f -> raised_by S (try_finally p f).
Proof.
  intros Hp Hf W h w e. specialize (Hp W h w). unfold outcome, trace in *. rewrite run_try_finally.
  destruct (run h p w) as [[o1 w1] t1]. specialize (Hf W h w1 e). unfold outcome, trace in Hf.
  destruct (run h f w1) as [[[u|e2] w2] t2]; simpl in *.
  - intros Ho. destruct (Hp e Ho) as [HS|[c Hc]]; [now left|right; exists c; apply in_or_app; now left].
  - intros [= ->]. destruct (Hf eq_refl) as [HS|[c Hc]]; [now left|right; exists c; apply in_or_app; now right].
Qed.

Lemma raised_by_seq_calls (cs : list Call) : raised_by S (seq_calls cs).
Proof.
  induction cs as [|c cs IH]; cbn [seq_calls];
    [apply raised_by_ret | apply raised_by_bind; [apply raised_by_call | intros _; exact IH]].
Qed.

Lemma raised_by_with_playwright {A} (body : Prog A) :
  raised_by S body -> raised_by S (with_playwright body).
Proof.
  intros Hb. apply raised_by_bind; [apply raised_by_call|intros _].
  apply raised_by_try_finally; [exact Hb|apply raised_by_bind; [apply raised_by_call|intros _; apply raised_by_ret]].
Qed.
End RaisedBy.

#[export] Hint Resolve raised_by_ret raised_by_call raised_by_bind raised_by_seq_calls
  raised_by_try_finally raised_by_with_playwright : xp.

(** A program that raises nothing of its own returns normally on every
    run where all of its calls answered. *)
Lemma raised_by_none_ok {A W} (h : Call -> W -> result Exn Val * W) (p : Prog A) (w : W) :
  raised_by (fun _ => False) p -> forallb ev_ok (trace (run h p w)) = true ->
  is_ok (outcome (run h p w)) = true.
Proof.
  intros Hp Hall. destruct (outcome (run h p w)) as [a|e] eqn:Ho; [reflexivity|].
  destruct (Hp W h w e Ho) as [[]|[c Hc]]. exfalso. exact (all_ok_no_err _ c e Hall Hc).
Qed.

(** ** The process

    [python script.py] runs the [__main__] block; an exception that
    escapes it is printed with its traceback and the interpreter exits
    with status 1, otherwise with status 0. *)
Definition exit_status {A} (o : result Exn A) : nat :=
  match o with Ok _ => 0 | Err _ => 1 end.

(** The handler under which every call answers [None]: the run where the
    browser and the application do everything the scripts expect. *)
Definition all_ok : Call -> unit -> result Exn Val * unit := answer_by (fun _ => Ok VNone).

(** The handler that raises [e] on the call [bad] and answers the others. *)
Definition fail_on (bad : Call) (e : Exn) : Call -> unit -> result Exn Val * unit :=
  answer_by (fun c => if call_eqb c bad then Err e else Ok VNone).

(** [in_concrete]: prove a membership in a list that computes. *)
Ltac in_concrete := vm_compute; repeat first [left; reflexivity | right].
