(* ===== verification/Bounds.v ===== *)
(** * How many calls a program can make

    The scripts have no loop and no retry: every run makes a bounded
    number of calls, whatever the browser answers.  [calls_le P n p]
    says that every run of [p] makes at most [n] calls that satisfy the
    test [P]; it is an inductive predicate with one rule per constructor
    of [Prog], and the lemmas below build it along the combinators of
    [Prog.v] ([calls_le_bind], [calls_le_try_except], ...), so that a
    script's bound is read off its structure.  [calls_le_run] turns it
    into a bound on the trace of any run. *)

From Stdlib Require Import List Bool Arith Lia.
From S2P Require Import Prelude Prog.
Import ListNotations.

(** The calls of a list that satisfy [P]. *)
Definition count (P : Call -> bool) (cs : list Call) : nat := length (filter P cs).

Definition weight (P : Call -> bool) (c : Call) : nat := if P c then 1 else 0.

Lemma count_app (P : Call -> bool) (l1 l2 : list Call) : count P (l1 ++ l2) = count P l1 + count P l2.
Proof. unfold count. rewrite filter_app, length_app. reflexivity. Qed.

Lemma count_cons (P : Call -> bool) (c : Call) (l : list Call) : count P (c :: l) = weight P c + count P l.
Proof. unfold count, weight. cbn. destruct (P c); reflexivity. Qed.

Section Bounded.
Variable P : Call -> bool.

Inductive calls_le {A} : nat -> Prog A -> Prop :=
| cl_ret n a : calls_le n (Ret a)
| cl_throw n e : calls_le n (Throw e)
| cl_vis n c k : (forall r, calls_le n (k r)) -> calls_le (weight P c + n) (Vis c k).

Lemma calls_le_mono {A} (n m : nat) (p : Prog A) : calls_le n p -> n <= m -> calls_le m p.
Proof.
  intros H. revert m. induction H as [n a|n e|n c k Hk IH]; intros m Hm; try constructor.
  replace m with (weight P c + (m - weight P c)) by lia. constructor. intros r. apply IH. lia.
Qed.

(** Every run makes at most the bound. *)
Lemma calls_le_run {A W} (h : Call -> W -> result Exn Val * W) (n : nat) (p : Prog A) (w : W) :
  calls_le n p -> count P (calls (trace (run h p w))) <= n.
Proof.
  intros H. revert w. induction H as [n a|n e|n c k Hk IH]; intros w; [cbn; lia | cbn; lia |].
  cbn [run]. destruct (h c w) as [r w1]. specialize (IH r w1). unfold trace in *.
  destruct (run h (k r) w1) as [[o w2] t]. cbn [snd] in *. rewrite calls_cons, count_cons. cbn [fst]. lia.
Qed.

Lemma calls_le_call (c : Call) : calls_le (weight P c) (call c).
Proof.
  rewrite <- (Nat.add_0_r (weight P c)). constructor. intros [v|e]; constructor.
Qed.

Lemma calls_le_bind {A B} (n m : nat) (p : Prog A) (f : A -> Prog B) :
  calls_le n p -> (forall a, calls_le m (f a)) -> calls_le (n + m) (bind p f).
Proof.
  intros Hp Hf. induction Hp as [n a|n e|n c k Hk IH]; cbn [bind].
  - apply (calls_le_mono m); [apply Hf | lia].
  - constructor.
  - rewrite <- Nat.add_assoc. constructor. exact IH.
Qed.

Lemma calls_le_try_except {A} (n m : nat) (p : Prog A) (hd : Exn -> Prog A) :
  calls_le n p -> (forall e, calls_le m (hd e)) -> calls_le (n + m) (try_except p hd).
Proof.
  intros Hp Hh. induction Hp as [n a|n e|n c k Hk IH]; cbn [try_except].
  - constructor.
  - apply (calls_le_mono m); [apply Hh | lia].
  - rewrite <- Nat.add_assoc. constructor. exact IH.
Qed.

Lemma calls_le_try_finally {A} (n m : nat) (p : Prog A) (f : Prog unit) :
  calls_le n p -> calls_le m f -> calls_le (n + m) (try_finally p f).
Proof.
  intros Hp Hf. unfold try_finally.
  replace (n + m) with (((n + 0) + 0) + (m + 0)) by lia.
  apply calls_le_bind; [apply calls_le_try_except; [apply calls_le_bind|] |]; intros; try constructor; [exact Hp|].
  apply calls_le_bind; [exact Hf|]. intros _. destruct a; constructor.
Qed.

Lemma calls_le_with_playwright {A} (n : nat) (body : Prog A) :
  calls_le n body ->
  calls_le (weight P PlaywrightStart + n + weight P PlaywrightStop) (with_playwright body).
Proof.
  intros Hb. unfold with_playwright. rewrite <- Nat.add_assoc.
  apply calls_le_bind; [apply calls_le_call|]. intros _.
  apply calls_le_try_finally; [exact Hb|].
  rewrite <- (Nat.add_0_r (weight P PlaywrightStop)).
  apply calls_le_bind; [apply calls_le_call | intros _; constructor].
Qed.

Lemma calls_le_seq_calls (cs : list Call) : calls_le (count P cs) (seq_calls cs).
Proof.
  induction cs as [|c cs IH]; cbn [seq_calls]; [constructor|].
  rewrite count_cons. apply calls_le_bind; [apply calls_le_call | intros _; exact IH].
Qed.
End Bounded.

#[export] Hint Resolve calls_le_call calls_le_seq_calls : xp.

(** Every call, and the screenshots. *)
Definition any_call (c : Call) : bool := true.
Definition is_screenshot (c : Call) : bool := match c with Screenshot _ => true | _ => false end.

Lemma count_any (cs : list Call) : count any_call cs = length cs.
Proof. unfold count, any_call. rewrite filter_true. reflexivity. Qed.

(** The length of every trace. *)
Lemma run_length_le {A W} (h : Call -> W -> result Exn Val * W) (n : nat) (p : Prog A) (w : W) :
  calls_le any_call n p -> length (trace (run h p w)) <= n.
Proof.
  intros H. pose proof (calls_le_run any_call h n p w H) as Hc.
  rewrite count_any in Hc. unfold calls in Hc. rewrite length_map in Hc. exact Hc.
Qed.

(** A [with] block around a straight line: the entry, the statements
    and the exit. *)
Lemma calls_le_with_seq_calls (P : Call -> bool) (cs : list Call) :
  calls_le P (weight P PlaywrightStart + count P cs + weight P PlaywrightStop) (with_playwright (seq_calls cs)).
Proof. apply calls_le_with_playwright, calls_le_seq_calls. Qed.
