(* ===== verification/Sim.v ===== *)
(** * Relating two runs of one program

    A flow script is run against two handlers, for instance the same
    browser with two different backends.  [rsim P Q p] says: from any two
    worlds related by [P], the two runs of [p] have the same outcome and
    the same trace, and end in worlds related by [Q o], where [o] is that
    outcome.  It is a relational Hoare triple over [Prog]; the lemmas
    below build it from the calls up, following the combinators of
    [Prog.v], so that a script's relational specification follows its
    syntax.

    [step_sim P Q c] is the one-call case: related worlds give the same
    answer [r] to [c] and successors related by [Q r].
    [rsim_invariant] is the case where one relation is preserved by
    every call. *)

From Stdlib Require Import List.
From S2P Require Import Prelude Prog.
Import ListNotations.

(** The final world of a run. *)
Definition world {A W} (x : result Exn A * W * list Event) : W := snd (fst x).

Section Sim.
Context {W1 W2 : Type}.
Context (h1 : Call -> W1 -> result Exn Val * W1) (h2 : Call -> W2 -> result Exn Val * W2).

Definition step_sim (P : W1 -> W2 -> Prop) (Q : result Exn Val -> W1 -> W2 -> Prop) (c : Call) : Prop :=
  forall w1 w2, P w1 w2 -> fst (h1 c w1) = fst (h2 c w2) /\ Q (fst (h1 c w1)) (snd (h1 c w1)) (snd (h2 c w2)).

Definition rsim {A} (P : W1 -> W2 -> Prop) (Q : result Exn A -> W1 -> W2 -> Prop) (p : Prog A) : Prop :=
  forall w1 w2, P w1 w2 ->
    outcome (run h1 p w1) = outcome (run h2 p w2) /\
    trace (run h1 p w1) = trace (run h2 p w2) /\
    Q (outcome (run h1 p w1)) (world (run h1 p w1)) (world (run h2 p w2)).

(** [sim_use H w1 w2 HP]: apply the [rsim] hypothesis [H] and destruct
    the two runs it is about. *)
Ltac sim_use H w1 w2 HP p :=
  let Ho := fresh "Ho" in let Ht := fresh "Ht" in let HQ := fresh "HQ" in
  destruct (H w1 w2 HP) as (Ho & Ht & HQ);
  unfold outcome, trace, world in Ho, Ht, HQ;
  destruct (run h1 p w1) as [[?o1 ?u1] ?t1], (run h2 p w2) as [[?o2 ?u2] ?t2];
  simpl in Ho, Ht, HQ; subst.

Lemma rsim_ret {A} (Q : result Exn A -> W1 -> W2 -> Prop) (a : A) : rsim (Q (Ok a)) Q (Ret a).
Proof. intros w1 w2 HP. repeat split; exact HP. Qed.

Lemma rsim_throw {A} (Q : result Exn A -> W1 -> W2 -> Prop) (e : Exn) : rsim (Q (Err e)) Q (Throw e).
Proof. intros w1 w2 HP. repeat split; exact HP. Qed.

Lemma rsim_mono {A} (P P' : W1 -> W2 -> Prop) (Q Q' : result Exn A -> W1 -> W2 -> Prop) (p : Prog A) :
  (forall w1 w2, P' w1 w2 -> P w1 w2) -> (forall o w1 w2, Q o w1 w2 -> Q' o w1 w2) ->
  rsim P Q p -> rsim P' Q' p.
Proof. intros HP HQ Hs w1 w2 H. destruct (Hs w1 w2 (HP _ _ H)) as (? & ? & ?). auto. Qed.

Lemma rsim_vis {A} (P : W1 -> W2 -> Prop) (Q : result Exn Val -> W1 -> W2 -> Prop)
      (R : result Exn A -> W1 -> W2 -> Prop) (c : Call) (k : result Exn Val -> Prog A) :
  step_sim P Q c -> (forall r, rsim (Q r) R (k r)) -> rsim P R (Vis c k).
Proof.
  intros Hc Hk w1 w2 HP. destruct (Hc w1 w2 HP) as [Hr HQ0]. cbn [run].
  destruct (h1 c w1) as [r1 v1], (h2 c w2) as [r2 v2]. simpl in Hr, HQ0. subst r2.
  sim_use (Hk r1) v1 v2 HQ0 (k r1). repeat split; cbn [outcome world trace fst snd]; auto.
Qed.

Lemma rsim_call (P : W1 -> W2 -> Prop) (Q : result Exn Val -> W1 -> W2 -> Prop) (c : Call) :
  step_sim P Q c -> rsim P Q (call c).
Proof. intros Hc. apply (rsim_vis P Q Q); [exact Hc|]. intros [v|e]; [apply rsim_ret | apply rsim_throw]. Qed.

Lemma rsim_bind {A B} (P : W1 -> W2 -> Prop) (Q : result Exn A -> W1 -> W2 -> Prop)
      (R : result Exn B -> W1 -> W2 -> Prop) (p : Prog A) (f : A -> Prog B) :
  rsim P Q p -> (forall a, rsim (Q (Ok a)) R (f a)) ->
  (forall e w1 w2, Q (Err e) w1 w2 -> R (Err e) w1 w2) -> rsim P R (bind p f).
Proof.
  intros Hp Hf HE w1 w2 HP. rewrite !run_bind. sim_use Hp w1 w2 HP p.
  destruct o2 as [a|e]; [|repeat split; cbn [outcome world trace fst snd]; auto].
  sim_use (Hf a) u1 u2 HQ (f a). repeat split; cbn [outcome world trace fst snd]; auto.
Qed.

Lemma rsim_try_except {A} (P : W1 -> W2 -> Prop) (Q R : result Exn A -> W1 -> W2 -> Prop)
      (p : Prog A) (hd : Exn -> Prog A) :
  rsim P Q p -> (forall e, rsim (Q (Err e)) R (hd e)) ->
  (forall a w1 w2, Q (Ok a) w1 w2 -> R (Ok a) w1 w2) -> rsim P R (try_except p hd).
Proof.
  intros Hp Hh HO w1 w2 HP. rewrite !run_try_except. sim_use Hp w1 w2 HP p.
  destruct o2 as [a|e]; [repeat split; cbn [outcome world trace fst snd]; auto|].
  sim_use (Hh e) u1 u2 HQ (hd e). repeat split; cbn [outcome world trace fst snd]; auto.
Qed.

Lemma rsim_try_finally {A} (P : W1 -> W2 -> Prop) (Q S : result Exn A -> W1 -> W2 -> Prop)
      (p : Prog A) (f : Prog unit) :
  rsim P Q p ->
  (forall o, rsim (Q o) (fun o2 => S (match o2 with Ok _ => o | Err e => Err e end)) f) ->
  rsim P S (try_finally p f).
Proof.
  intros Hp Hf w1 w2 HP. rewrite !run_try_finally. sim_use Hp w1 w2 HP p.
  sim_use (Hf o2) u1 u2 HQ f. repeat split; cbn [outcome world trace fst snd]; auto.
Qed.

Lemma rsim_with_playwright {A} (P : W1 -> W2 -> Prop) (Q0 : result Exn Val -> W1 -> W2 -> Prop)
      (R S : result Exn A -> W1 -> W2 -> Prop) (body : Prog A) :
  step_sim P Q0 PlaywrightStart ->
  (forall v, rsim (Q0 (Ok v)) R body) ->
  (forall e w1 w2, Q0 (Err e) w1 w2 -> S (Err e) w1 w2) ->
  (forall o, step_sim (R o) (fun r2 => S (match r2 with Ok _ => o | Err e => Err e end)) PlaywrightStop) ->
  rsim P S (with_playwright body).
Proof.
  intros H0 Hb HE H1. unfold with_playwright.
  apply (rsim_bind P Q0 S); [apply rsim_call, H0 | intros v | exact HE].
  apply (rsim_try_finally _ R S); [apply Hb|]. intros o.
  eapply rsim_bind; [apply rsim_call, H1 | intros u; exact (rsim_ret _ tt) | auto].
Qed.

(** A relation every call preserves relates the two runs of every
    program. *)
Lemma rsim_invariant {A} (R : W1 -> W2 -> Prop) (p : Prog A) :
  (forall c, step_sim R (fun _ => R) c) -> rsim R (fun _ => R) p.
Proof.
  intros Hc. induction p as [a|e|c k IH].
  - exact (rsim_ret (fun _ => R) a).
  - exact (rsim_throw (fun _ => R) e).
  - apply (rsim_vis R (fun _ => R)); auto.
Qed.

(** The same for a straight line whose calls preserve the relation. *)
Lemma rsim_seq_calls (R : W1 -> W2 -> Prop) (cs : list Call) :
  Forall (step_sim R (fun _ => R)) cs -> rsim R (fun _ => R) (seq_calls cs).
Proof.
  induction 1 as [|c cs Hc _ IH]; cbn [seq_calls]; [exact (rsim_ret (fun _ => R) tt)|].
  apply (rsim_bind R (fun _ => R)); [apply rsim_call, Hc | intros _; exact IH | auto].
Qed.

(** Two programs whose runs agree under every handler have the same
    relational specifications. *)
Lemma rsim_ext {A} (P : W1 -> W2 -> Prop) (Q : result Exn A -> W1 -> W2 -> Prop) (p q : Prog A) :
  (forall w, run h1 p w = run h1 q w) -> (forall w, run h2 p w = run h2 q w) ->
  rsim P Q q -> rsim P Q p.
Proof. intros E1 E2 Hq w1 w2 HP. rewrite E1, E2. exact (Hq w1 w2 HP). Qed.

Lemma rsim_seq_calls_app (P : W1 -> W2 -> Prop) (Q R : result Exn unit -> W1 -> W2 -> Prop) (l1 l2 : list Call) :
  rsim P Q (seq_calls l1) -> rsim (Q (Ok tt)) R (seq_calls l2) ->
  (forall e w1 w2, Q (Err e) w1 w2 -> R (Err e) w1 w2) -> rsim P R (seq_calls (l1 ++ l2)).
Proof.
  intros H1 H2 HE. apply (rsim_ext _ _ _ (seq_calls l1 ;; seq_calls l2)).
  1, 2: intros w; rewrite run_seq_calls_app, run_bind; reflexivity.
  apply (rsim_bind P Q); [exact H1 | intros []; exact H2 | exact HE].
Qed.
End Sim.

(** ** One handler: invariants as the diagonal case *)

Section Diag.
Context {W : Type} (h : Call -> W -> result Exn Val * W).

(** The two runs are one run, from a world satisfying [P]. *)
Definition diag (P : W -> Prop) : W -> W -> Prop := fun w1 w2 => w1 = w2 /\ P w1.

Lemma step_sim_diag (P : W -> Prop) (Q : result Exn Val -> W -> Prop) (c : Call) :
  (forall w, P w -> Q (fst (h c w)) (snd (h c w))) -> step_sim h h (diag P) (fun r => diag (Q r)) c.
Proof. intros HQ w1 w2 [<- HP]. repeat split; auto. Qed.

Lemma rsim_diag_run {A} (P : W -> Prop) (Q : result Exn A -> W -> Prop) (p : Prog A) (w : W) :
  rsim h h (diag P) (fun o => diag (Q o)) p -> P w -> Q (outcome (run h p w)) (world (run h p w)).
Proof. intros Hs HP. destruct (Hs w w (conj eq_refl HP)) as (_ & _ & _ & HQ). exact HQ. Qed.
End Diag.
