(* ===== verification/Browser.v ===== *)
(** * A browser for the scripts to run against

    [Prog.v] leaves every call to a handler; this file gives one: a
    browser with one page, the page's routes and a backend, driving an
    application given as an instance of the class [App].

    - An application opens views (a view is named by its URL).  Opening
      a view makes the API requests [app_fetches v], in order, and renders
      the document [app_render v rs] from their responses [rs]; a click
      on an element may open another view ([app_click]).
    - [page.goto] opens a view, or raises when the application's server
      does not answer ([app_up]).
    - The requests go through the page's routes ([Routes.serve_all]): a
      registered route answers, or else the backend does and logs the
      URL.
    - Locator actions ([click], [fill], [check], [select_option]) and
      [expect(...).to_be_visible()] need exactly one match of their
      locator (strict mode) that is visible; [is_visible] answers false
      when nothing matches.  [page.select_option(selector, ...)] is not
      strict: it acts on the first match of the selector.

    The world records the network, the open view and its document, the
    screenshots taken, the lines printed and whether the browser is open;
    [browser.close()] closes it, and so does the exit of the [with
    sync_playwright()] block, which stops the driver and the browsers it
    launched.  [browser_output]: the screenshots written and the lines
    printed are those of the trace, in order.
    Timing (auto-waiting, the polling of [expect]) is not modelled: an
    assertion sees the document as it is when the call is made. *)

From Stdlib Require Import String List Bool.
From S2P Require Import Prelude Locator Routes Prog Sim.
Import ListNotations.
Local Open Scope string_scope.
Local Open Scope list_scope.

Class App : Type := {
  app_up : bool;
  app_fetches : string -> list string;
  app_render : string -> list Response -> Dom;
  app_click : string -> Element -> option string
}.

Record World : Type := mkWorld {
  w_net : Net;
  w_view : string;
  w_dom : Dom;
  w_shots : list string;
  w_out : list string;
  w_open : bool
}.

(** A fresh process: no route, nothing logged, a blank page. *)
Definition fresh : World := mkWorld (mkNet [] []) "about:blank" [] [] [] false.

Section Browser.
Context `{App}.
Variable backend : string -> Response.

Definition set_net (n : Net) (w : World) : World :=
  mkWorld n (w_view w) (w_dom w) (w_shots w) (w_out w) (w_open w).

Definition set_open (b : bool) (w : World) : World :=
  mkWorld (w_net w) (w_view w) (w_dom w) (w_shots w) (w_out w) b.

(** Open view [v]: make its requests, then render it. *)
Definition open_view (v : string) (w : World) : World :=
  let (rs, n) := serve_all backend (w_net w) (app_fetches v) in
  mkWorld n v (app_render v rs) (w_shots w) (w_out w) (w_open w).

Definition strict_violation : Exn :=
  PlaywrightError "strict mode violation: locator resolved to more than one element".

(** An action on the one visible match of [l]. *)
Definition act (l : Locator) (f : Element -> World) (w : World) : result Exn Val * World :=
  match target (w_dom w) l with
  | One e => if el_visible e then (Ok VNone, f e) else (Err (TimeoutError "element is not visible"), w)
  | NoMatch => (Err (TimeoutError "waiting for locator"), w)
  | Many n => (Err strict_violation, w)
  end.

Definition browser (c : Call) (w : World) : result Exn Val * World :=
  match c with
  | PlaywrightStart | BrowserNewPage | BrowserNewContext | ContextNewPage
  | WaitForLoadState _ => (Ok VNone, w)
  | Launch _ => (Ok VNone, set_open true w)
  | BrowserClose | PlaywrightStop => (Ok VNone, set_open false w)
  | Goto u =>
      if app_up then (Ok VNone, open_view u w)
      else (Err (PlaywrightError ("net::ERR_CONNECTION_REFUSED at " ++ u)), w)
  | RouteFulfill p r => (Ok VNone, set_net (mkNet (register (net_routes (w_net w)) p r) (net_backend_log (w_net w))) w)
  | Screenshot path => (Ok VNone, mkWorld (w_net w) (w_view w) (w_dom w) (w_shots w ++ [path]) (w_out w) (w_open w))
  | Click l => act l (fun e => match app_click (w_view w) e with Some v => open_view v w | None => w end) w
  | Fill l _ | Check l | SelectOption l _ => act l (fun _ => w) w
  | PageSelectOption sel _ => act (First (Css sel)) (fun _ => w) w
  | IsVisible l =>
      match target (w_dom w) l with
      | One e => (Ok (VBool (el_visible e)), w)
      | NoMatch => (Ok (VBool false), w)
      | Many n => (Err strict_violation, w)
      end
  | ExpectVisible l _ =>
      match target (w_dom w) l with
      | One e => if el_visible e then (Ok VNone, w)
                 else (Err (AssertionError "Locator expected to be visible"), w)
      | NoMatch => (Err (AssertionError "Locator expected to be visible"), w)
      | Many n => (Err strict_violation, w)
      end
  | Print s => (Ok VNone, mkWorld (w_net w) (w_view w) (w_dom w) (w_shots w) (w_out w ++ [s]) (w_open w))
  end.
End Browser.

(** ** What a call does to the network *)

Section Network.
Context `{App}.

(** The calls that neither register a route nor make a request. *)
Definition passive (c : Call) : bool :=
  match c with Goto _ | Click _ | RouteFulfill _ _ => false | _ => true end.

(** The calls a script makes before its first request: passive calls
    and route registrations, and the routes they leave. *)
Definition setup_call (c : Call) : bool :=
  match c with RouteFulfill _ _ => true | _ => passive c end.

Definition after1 (rt : RouteTable) (c : Call) : RouteTable :=
  match c with RouteFulfill p r => register rt p r | _ => rt end.

Fixpoint routes_after (rt : RouteTable) (cs : list Call) : RouteTable :=
  match cs with [] => rt | c :: cs' => routes_after (after1 rt c) cs' end.

(** Every request an application can make is answered by a route. *)
Definition covers (rt : RouteTable) : Prop :=
  forall v u, In u (app_fetches v) -> dispatch rt u <> None.

Lemma filter_dispatched (rt : RouteTable) (us : list string) :
  (forall u, In u us -> dispatch rt u <> None) ->
  filter (fun u => match dispatch rt u with Some _ => false | None => true end) us = [].
Proof.
  induction us as [|u us IH]; intros Hd; [reflexivity|]. cbn [filter].
  destruct (dispatch rt u) eqn:E; [apply IH; intros; apply Hd; right; assumption|].
  exfalso. apply (Hd u); [left; reflexivity | exact E].
Qed.

Lemma map_dispatched (rt : RouteTable) (b1 b2 : string -> Response) (us : list string) :
  (forall u, In u us -> dispatch rt u <> None) ->
  map (fun u => match dispatch rt u with Some r => r | None => b1 u end) us =
  map (fun u => match dispatch rt u with Some r => r | None => b2 u end) us.
Proof.
  intros Hd. apply map_ext_in. intros u Hu.
  destruct (dispatch rt u) eqn:E; [reflexivity | exfalso; exact (Hd u Hu E)].
Qed.

(** With every request routed, opening a view gives the same document
    whatever the backend, and logs nothing. *)
Lemma open_view_covered (b1 b2 : string -> Response) (rt : RouteTable) (L1 L2 : list string)
      (v0 : string) (d : Dom) (s o : list string) (bo : bool) (v : string) :
  covers rt -> exists d',
    open_view b1 v (mkWorld (mkNet rt L1) v0 d s o bo) = mkWorld (mkNet rt L1) v d' s o bo /\
    open_view b2 v (mkWorld (mkNet rt L2) v0 d s o bo) = mkWorld (mkNet rt L2) v d' s o bo.
Proof.
  intros Hc. unfold open_view. rewrite !serve_all_spec. cbn [w_net net_routes net_backend_log].
  rewrite filter_dispatched by (intros u Hu; exact (Hc v u Hu)). rewrite !app_nil_r.
  eexists. split; [reflexivity|]. rewrite (map_dispatched rt b2 b1) by (intros u Hu; exact (Hc v u Hu)).
  reflexivity.
Qed.

Lemma dispatch_register (rt : RouteTable) (p : string) (r : Response) (u : string) :
  dispatch rt u <> None -> dispatch (register rt p r) u <> None.
Proof. cbn. destruct (url_matches p u); congruence. Qed.

Lemma covers_register (rt : RouteTable) (p : string) (r : Response) :
  covers rt -> covers (register rt p r).
Proof. intros Hc v u Hu. apply dispatch_register, (Hc v u Hu). Qed.

End Network.

(** ** Two backends *)

Section Backends.
Context `{App}.
Variables b1 b2 : string -> Response.

(** Two worlds that differ only in their backend logs, which are [L1]
    and [L2], and whose routes are [rt]. *)
Definition agree_rt (rt : RouteTable) (L1 L2 : list string) (w1 w2 : World) : Prop :=
  exists v d s o bo, w1 = mkWorld (mkNet rt L1) v d s o bo /\ w2 = mkWorld (mkNet rt L2) v d s o bo.

Definition agree (L1 L2 : list string) (w1 w2 : World) : Prop := exists rt, agree_rt rt L1 L2 w1 w2.

(** ... and whose routes answer every request of the application. *)
Definition agree_cov (L1 L2 : list string) (w1 w2 : World) : Prop :=
  exists rt, covers rt /\ agree_rt rt L1 L2 w1 w2.

Lemma agree_rt_intro (rt : RouteTable) (L1 L2 : list string) v d s o bo :
  agree_rt rt L1 L2 (mkWorld (mkNet rt L1) v d s o bo) (mkWorld (mkNet rt L2) v d s o bo).
Proof. do 5 eexists. split; reflexivity. Qed.

#[local] Hint Resolve agree_rt_intro : xp.

(** [same_answer]: the two calls answered alike, in worlds that agree. *)
Ltac same_answer := split; [reflexivity | eauto with xp].

Lemma step_passive (rt : RouteTable) (L1 L2 : list string) (c : Call) :
  passive c = true -> step_sim (browser b1) (browser b2) (agree_rt rt L1 L2) (fun _ => agree_rt rt L1 L2) c.
Proof.
  intros Hp w1 w2 (v & d & s & o & bo & -> & ->).
  destruct c; try discriminate Hp; unfold browser, act in *; cbn [w_dom w_view w_net net_routes net_backend_log set_open];
    repeat match goal with
           | |- context [target ?d ?l] => destruct (target d l)
           | |- context [if el_visible ?e then _ else _] => destruct (el_visible e)
           end; same_answer.
Qed.

Lemma step_route (rt : RouteTable) (L1 L2 : list string) (p : string) (r : Response) :
  step_sim (browser b1) (browser b2) (agree_rt rt L1 L2) (fun _ => agree_rt (register rt p r) L1 L2)
           (RouteFulfill p r).
Proof.
  intros w1 w2 (v & d & s & o & bo & -> & ->). unfold browser, set_net.
  cbn [w_net net_routes net_backend_log w_view w_dom w_shots w_out w_open]. same_answer.
Qed.

(** Once the routes answer every request of the application, no call
    tells the two backends apart. *)
Lemma step_covered (L1 L2 : list string) (c : Call) :
  step_sim (browser b1) (browser b2) (agree_cov L1 L2) (fun _ => agree_cov L1 L2) c.
Proof.
  intros w1 w2 (rt & Hc & v & d & s & o & bo & -> & ->).
  destruct c; unfold browser, act in *; cbn [w_dom w_view w_net net_routes net_backend_log set_open set_net];
    repeat match goal with
           | |- context [target ?d ?l] => destruct (target d l)
           | |- context [if el_visible ?e then _ else _] => destruct (el_visible e)
           | |- context [match app_click ?v ?e with _ => _ end] => destruct (app_click v e)
           | |- context [if app_up then _ else _] => destruct app_up
           | |- context [open_view _ ?v' _] =>
               let d' := fresh "d'" in let E1 := fresh "E" in let E2 := fresh "E" in
               destruct (open_view_covered b1 b2 rt L1 L2 v d s o bo v' Hc) as (d' & E1 & E2);
               rewrite E1, E2; clear E1 E2
           end;
    try (split; [reflexivity | exists rt; split; [exact Hc | apply agree_rt_intro]]).
  split; [reflexivity|]. exists (register rt pattern r). split; [apply covers_register, Hc | apply agree_rt_intro].
Qed.
End Backends.

(** ** One backend: what reaches it *)

Section Isolation.
Context `{App}.
Variable backend : string -> Response.
Variable api : string -> bool.

(** The routes answer every request [api] selects. *)
Definition guards (rt : RouteTable) : Prop := forall u, api u = true -> dispatch rt u <> None.

(** No request [api] selects is in the log. *)
Definition clean (L : list string) : Prop := forall u, In u L -> api u = false.

Lemma open_view_net (v : string) (w : World) :
  w_net (open_view backend v w) =
  mkNet (net_routes (w_net w))
        (net_backend_log (w_net w) ++
         filter (fun u => match dispatch (net_routes (w_net w)) u with Some _ => false | None => true end)
                (app_fetches v)).
Proof. unfold open_view. rewrite serve_all_spec. reflexivity. Qed.

(** A call leaves the network alone, opens a view, or registers a route. *)
Lemma browser_net_cases (c : Call) (w : World) :
  w_net (snd (browser backend c w)) = w_net w \/
  (exists v, w_net (snd (browser backend c w)) = w_net (open_view backend v w)) \/
  (exists p r, c = RouteFulfill p r /\
   w_net (snd (browser backend c w)) = mkNet (register (net_routes (w_net w)) p r) (net_backend_log (w_net w))).
Proof.
  destruct c; unfold browser, act;
    repeat match goal with
           | |- context [target ?d ?l] => destruct (target d l)
           | |- context [if el_visible ?e then _ else _] => destruct (el_visible e)
           | |- context [match app_click ?v ?e with _ => _ end] => destruct (app_click v e) eqn:?
           | |- context [if app_up then _ else _] => destruct app_up
           end;
    first [left; reflexivity | right; left; eexists; reflexivity | right; right; do 2 eexists; split; reflexivity].
Qed.

Lemma passive_net (c : Call) (w : World) :
  passive c = true -> w_net (snd (browser backend c w)) = w_net w.
Proof.
  destruct c; try discriminate; intros _; unfold browser, act;
    repeat match goal with
           | |- context [target ?d ?l] => destruct (target d l)
           | |- context [if el_visible ?e then _ else _] => destruct (el_visible e)
           end; reflexivity.
Qed.

Lemma clean_open_view (v : string) (w : World) :
  guards (net_routes (w_net w)) -> clean (net_backend_log (w_net w)) ->
  clean (net_backend_log (w_net (open_view backend v w))).
Proof.
  intros Hg Hc u. rewrite open_view_net. cbn [net_backend_log]. rewrite in_app_iff, filter_In.
  intros [Hu | [_ Hd]]; [exact (Hc u Hu)|].
  destruct (api u) eqn:E; [|reflexivity]. exfalso.
  destruct (dispatch (net_routes (w_net w)) u) eqn:E'; [discriminate | exact (Hg u E E')].
Qed.

(** Once the routes answer every request [api] selects, no call lets
    one reach the backend. *)
Lemma step_guarded (c : Call) (w : World) :
  guards (net_routes (w_net w)) -> clean (net_backend_log (w_net w)) ->
  guards (net_routes (w_net (snd (browser backend c w)))) /\
  clean (net_backend_log (w_net (snd (browser backend c w)))).
Proof.
  intros Hg Hc. destruct (browser_net_cases c w) as [E | [[v E] | (p & r & _ & E)]]; rewrite E.
  - auto.
  - split; [rewrite open_view_net; exact Hg | apply clean_open_view; auto].
  - split; [intros u Hu; apply dispatch_register, Hg, Hu | exact Hc].
Qed.
End Isolation.

(** ** The set-up of a script *)

Section Setup.
Context `{App}.

Lemma setup_net (b : string -> Response) (c : Call) (w : World) :
  setup_call c = true ->
  w_net (snd (browser b c w)) = mkNet (after1 (net_routes (w_net w)) c) (net_backend_log (w_net w)).
Proof.
  intros Hc. destruct c; try (rewrite passive_net by exact Hc; destruct (w_net w); reflexivity);
    reflexivity.
Qed.

(** A straight line of set-up calls, from routes [rt]: on success the
    routes are [routes_after rt cs], and nothing reaches the backend. *)
Lemma rsim_setup_iso (b : string -> Response) (api : string -> bool) (rt : RouteTable) (cs : list Call) :
  forallb setup_call cs = true ->
  rsim (browser b) (browser b)
       (diag (fun w => net_routes (w_net w) = rt /\ clean api (net_backend_log (w_net w))))
       (fun o => diag (fun w => match o with
                                | Ok _ => net_routes (w_net w) = routes_after rt cs
                                | Err _ => True end /\ clean api (net_backend_log (w_net w))))
       (seq_calls cs).
Proof.
  revert rt. induction cs as [|c cs IH]; intros rt Hcs; cbn [seq_calls].
  - intros w1 w2 HP. repeat split; apply HP.
  - apply andb_true_iff in Hcs as [Hc Hcs].
    apply (rsim_bind _ _ _ (fun _ => diag (fun w => net_routes (w_net w) = after1 rt c /\
                                               clean api (net_backend_log (w_net w))))).
    + apply rsim_call, step_sim_diag. intros w [Hr Hl]. rewrite setup_net, Hr by exact Hc. auto.
    + intros _. apply IH, Hcs.
    + intros e w1 w2 [-> [_ Hl]]. repeat split; auto.
Qed.

Lemma rsim_setup_agree (b1 b2 : string -> Response) (rt : RouteTable) (L1 L2 : list string) (cs : list Call) :
  forallb setup_call cs = true ->
  rsim (browser b1) (browser b2) (agree_rt rt L1 L2)
       (fun o => match o with Ok _ => agree_rt (routes_after rt cs) L1 L2 | Err _ => agree L1 L2 end)
       (seq_calls cs).
Proof.
  revert rt. induction cs as [|c cs IH]; intros rt Hcs; cbn [seq_calls].
  - intros w1 w2 HP. repeat split; exact HP.
  - apply andb_true_iff in Hcs as [Hc Hcs].
    apply (rsim_bind _ _ _ (fun _ => agree_rt (after1 rt c) L1 L2)).
    + apply rsim_call. destruct c; try discriminate Hc; try (apply step_route);
        apply step_passive; exact Hc.
    + intros _. apply IH, Hcs.
    + intros e w1 w2 Ha. exists (after1 rt c). exact Ha.
Qed.
End Setup.

(** ** What the browser writes: screenshots and printed lines *)

(** The files a trace wrote and the lines it printed, in order. *)
Fixpoint shots_of (t : list Event) : list string :=
  match t with
  | [] => []
  | (Screenshot p, Ok _) :: t' => p :: shots_of t'
  | _ :: t' => shots_of t'
  end.

Fixpoint prints_of (t : list Event) : list string :=
  match t with
  | [] => []
  | (Print s, Ok _) :: t' => s :: prints_of t'
  | _ :: t' => prints_of t'
  end.

(** The same, read off the statements of a trace where every call
    answered. *)
Fixpoint shot_paths (cs : list Call) : list string :=
  match cs with [] => [] | Screenshot p :: cs' => p :: shot_paths cs' | _ :: cs' => shot_paths cs' end.

Fixpoint printed (cs : list Call) : list string :=
  match cs with [] => [] | Print s :: cs' => s :: printed cs' | _ :: cs' => printed cs' end.

Lemma shots_of_ok (t : list Event) : forallb ev_ok t = true -> shots_of t = shot_paths (calls t).
Proof.
  induction t as [|[c [v|e]] t IH]; intros Hok; [reflexivity| |discriminate].
  cbn in Hok |- *. destruct c; cbn; rewrite ?IH; auto.
Qed.

Lemma prints_of_ok (t : list Event) : forallb ev_ok t = true -> prints_of t = printed (calls t).
Proof.
  induction t as [|[c [v|e]] t IH]; intros Hok; [reflexivity| |discriminate].
  cbn in Hok |- *. destruct c; cbn; rewrite ?IH; auto.
Qed.

Lemma shots_of_app (t1 t2 : list Event) : shots_of (t1 ++ t2) = shots_of t1 ++ shots_of t2.
Proof. induction t1 as [|[c [v|e]] t1 IH]; [reflexivity| |]; destruct c; cbn; rewrite ?IH; reflexivity. Qed.

Lemma prints_of_app (t1 t2 : list Event) : prints_of (t1 ++ t2) = prints_of t1 ++ prints_of t2.
Proof. induction t1 as [|[c [v|e]] t1 IH]; [reflexivity| |]; destruct c; cbn; rewrite ?IH; reflexivity. Qed.

(** A trace of no [Screenshot] call wrote nothing. *)
Lemma shots_of_none (t : list Event) : shot_paths (calls t) = [] -> shots_of t = [].
Proof. induction t as [|[c [v|e]] t IH]; [reflexivity| |]; destruct c; cbn; try discriminate; auto. Qed.

Section Output.
Context `{App}.
Variable backend : string -> Response.

Lemma browser_output_step (c : Call) (w : World) :
  w_shots (snd (browser backend c w)) = w_shots w ++ shots_of [(c, fst (browser backend c w))] /\
  w_out (snd (browser backend c w)) = w_out w ++ prints_of [(c, fst (browser backend c w))].
Proof.
  destruct c; unfold browser, act, open_view;
    repeat match goal with
           | |- context [target ?d ?l] => destruct (target d l)
           | |- context [if el_visible ?e then _ else _] => destruct (el_visible e)
           | |- context [match app_click ?v ?e with _ => _ end] => destruct (app_click v e)
           | |- context [if app_up then _ else _] => destruct app_up
           | |- context [serve_all ?b ?n ?us] => destruct (serve_all b n us)
           end; cbn; rewrite ?app_nil_r; auto.
Qed.

(** The browser writes the screenshots and prints the lines of the
    trace, in its order. *)
Lemma browser_output {T} (p : Prog T) (w : World) :
  w_shots (world (run (browser backend) p w)) = w_shots w ++ shots_of (trace (run (browser backend) p w)) /\
  w_out (world (run (browser backend) p w)) = w_out w ++ prints_of (trace (run (browser backend) p w)).
Proof.
  revert w. induction p as [a|e|c k IH]; intros w; [cbn; rewrite !app_nil_r; auto .. |].
  cbn [run]. destruct (browser_output_step c w) as [Hs Ho].
  destruct (browser backend c w) as [r w1]. cbn [fst snd] in Hs, Ho.
  destruct (IH r w1) as [Hs' Ho']. unfold world, trace in *.
  destruct (run (browser backend) (k r) w1) as [[o w2] t]. cbn [fst snd] in *.
  rewrite Hs', Ho', Hs, Ho, <- !app_assoc.
  destruct c; try destruct r; auto.
Qed.
End Output.
