(* ===== verification/Dashboard.v ===== *)
(** * The dashboard flow ([src/verification/test_dashboard.py])

    [verify_dashboard] is one [with sync_playwright()] block whose body is
    a straight line of calls: launch, open a page, navigate, wait for
    network idle, five heading assertions, a screenshot, a click on the
    "Agentes" heading, a second wait, one more assertion, [browser.close()]
    and a final print.  No statement catches an exception.

    The theorems hold for every handler: a pass means that all five
    section headings of the specification were asserted visible; the
    body stops at the first call that raises; [browser.close()] is reached
    exactly when the last assertion passed, so every failure leaves the
    closing to the exit of the [with] block, which is always the last
    call; a call that raises ends the script with its exception, after
    every earlier call answered and before any later one.
    [dashboard_calls_le] bounds every run by 22
    calls, and every exception the script ends with was raised by one of
    its calls ([dashboard_raises_only_calls]); [Main.v] uses both. *)

From Stdlib Require Import String List Bool.
From S2P Require Import Prelude Locator Prog Bounds.
Import ListNotations.
Local Open Scope string_scope.
Local Open Scope list_scope.

Definition dashboard_url : string := "http://localhost:5173/dashboard".

(** [page.get_by_role("heading", name=n)] *)
Definition heading (n : string) : Locator := GetByRole "heading" (Some n).

(** The five section labels the specification requires (section 4.1). *)
Definition dashboard_headings : list string :=
  ["Área Logada"; "Agentes"; "Relatórios"; "Projetos"; "Configurações"].

(** The statements of the [with] block, in order. *)
Definition verify_dashboard_body : list Call :=
  [ Launch true;                                     (* p.chromium.launch(headless=True) *)
    BrowserNewPage;                                  (* browser.new_page() *)
    Print "Navigating to dashboard...";
    Goto dashboard_url;
    WaitForLoadState "networkidle";
    Print "Checking for dashboard elements...";
    ExpectVisible (heading "Área Logada") None;
    ExpectVisible (heading "Agentes") None;
    ExpectVisible (heading "Relatórios") None;
    ExpectVisible (heading "Projetos") None;
    ExpectVisible (heading "Configurações") None;
    Print "Taking screenshot...";
    Screenshot "verification/dashboard_restored.png";
    Print "Clicking Agentes...";
    Click (heading "Agentes");
    WaitForLoadState "networkidle";
    Print "Checking for Agents page content...";
    ExpectVisible (heading "Meus Agentes de IA") None;
    BrowserClose;
    Print "Verification complete." ].

Definition verify_dashboard : Prog unit :=
  with_playwright (seq_calls verify_dashboard_body).

(** [if __name__ == "__main__": verify_dashboard()] *)
Definition dashboard_main : Prog unit := verify_dashboard.

(** ** Theorems *)

(** The prefix of the body before the last assertion. *)
Definition dashboard_before_close : list Call := firstn 17 verify_dashboard_body.

Lemma verify_dashboard_body_split :
  verify_dashboard_body =
  dashboard_before_close ++
  ExpectVisible (heading "Meus Agentes de IA") None :: BrowserClose ::
  [Print "Verification complete."].
Proof. reflexivity. Qed.

(** C4: [browser.close()] is called exactly when the final assertion
    ("Meus Agentes de IA") passed: on every failure of an earlier call or
    of that assertion, the script does not close the browser itself. *)
Theorem dashboard_close_iff_last_assert {W} (h : Call -> W -> result Exn Val * W) (w : W) :
  let t := trace (run h verify_dashboard w) in
  In BrowserClose (calls t) <->
  exists v, In (ExpectVisible (heading "Meus Agentes de IA") None, Ok v) t.
Proof.
  unfold verify_dashboard. pose proof (with_playwright_trace h (seq_calls verify_dashboard_body) w) as H.
  destruct (h PlaywrightStart w) as [[v0|e] w0].
  - destruct H as [r2 [-> _]]. cbv zeta.
    rewrite in_frame_calls by discriminate.
    setoid_rewrite in_frame_events; try discriminate.
    rewrite verify_dashboard_body_split.
    apply seq_calls_next_iff; [discriminate | vm_compute; intuition discriminate ..].
  - rewrite H. simpl. split; [intros [Hc|[]]; discriminate | intros [v [Hv|[]]]; discriminate].
Qed.

(** C7: a run that returns normally asserted, and saw pass, every one of
    the five section headings of the specification. *)
Theorem dashboard_pass_asserts_all_headings {W} (h : Call -> W -> result Exn Val * W) (w : W) :
  outcome (run h verify_dashboard w) = Ok tt ->
  forall n, In n dashboard_headings ->
  exists v, In (ExpectVisible (heading n) None, Ok v) (trace (run h verify_dashboard w)).
Proof.
  intros Hok n Hn. unfold verify_dashboard in *. apply with_playwright_ok in Hok as (v0 & w0 & v2 & _ & Hb & ->).
  apply seq_calls_ok in Hb as [Hc Hall].
  assert (Hin : In (ExpectVisible (heading n) None) (calls (trace (run h (seq_calls verify_dashboard_body) w0)))).
  { rewrite Hc. simpl in Hn. simpl. intuition (subst; auto 20). }
  destruct (all_ok_in_calls _ _ Hall Hin) as [v Hv]. exists v.
  apply in_frame_events; [discriminate | discriminate | exact Hv].
Qed.

(** The pass of the run where every call answers. *)
Lemma dashboard_pass_asserts_all_headings_witness :
  exists v, In (ExpectVisible (heading "Configurações") None, Ok v) (trace (run all_ok verify_dashboard tt)).
Proof.
  apply (dashboard_pass_asserts_all_headings all_ok tt); [vm_compute; reflexivity | in_concrete].
Defined.

(** C11: the failure mode of the specification (section 4.1): when a call
    of the dashboard script raises, every earlier call had answered, no
    later statement runs (only the exit of the [with] block follows), and
    the script raises that exception, or the exit's if the exit raised
    too: no retry and no partial pass. *)
Theorem dashboard_failure_aborts {W} (h : Call -> W -> result Exn Val * W) (w : W) (c : Call) (e : Exn) :
  In (c, Err e) (trace (run h verify_dashboard w)) -> c <> PlaywrightStop ->
  (exists t0 t1, trace (run h verify_dashboard w) = t0 ++ (c, Err e) :: t1 /\
     forallb ev_ok t0 = true /\ Forall (fun ev => fst ev = PlaywrightStop) t1) /\
  (outcome (run h verify_dashboard w) = Err e \/
   exists e', In (PlaywrightStop, Err e') (trace (run h verify_dashboard w)) /\
              outcome (run h verify_dashboard w) = Err e').
Proof. apply with_seq_calls_failure. Qed.

Definition projetos_missing : Exn := AssertionError "Locator expected to be visible".

(** The "Projetos" heading is missing: the run stops there. *)
Lemma dashboard_failure_aborts_witness :
  outcome (run (fail_on (ExpectVisible (heading "Projetos") None) projetos_missing) verify_dashboard tt) =
    Err projetos_missing \/
  exists e', In (PlaywrightStop, Err e')
                (trace (run (fail_on (ExpectVisible (heading "Projetos") None) projetos_missing) verify_dashboard tt)) /\
             outcome (run (fail_on (ExpectVisible (heading "Projetos") None) projetos_missing) verify_dashboard tt) = Err e'.
Proof.
  apply (dashboard_failure_aborts (fail_on (ExpectVisible (heading "Projetos") None) projetos_missing) tt
           (ExpectVisible (heading "Projetos") None) projetos_missing); [in_concrete | discriminate].
Defined.

(** The script has no loop and no retry: every run makes at most 22
    calls (the entry, the twenty statements and the exit). *)
Lemma dashboard_calls_le : calls_le any_call 22 verify_dashboard.
Proof. exact (calls_le_with_seq_calls any_call verify_dashboard_body). Qed.

(** Every exception the script ends with was raised by one of its calls. *)
Lemma dashboard_raises_only_calls : raised_by (fun _ => False) verify_dashboard.
Proof. unfold verify_dashboard. auto with xp. Qed.

(** ** The locators on a document *)

