(* ===== verification/Agents.v ===== *)
(** * The agents flow ([src/verification/verify_agents.py])

    [verify_agents_flow] is one [with sync_playwright()] block.  The
    navigation is wrapped in [try]/[except Exception]: on an exception the
    script prints it and returns, so the [with] block exits normally.
    Otherwise it asserts the list view, probes once whether the first
    "Novo Agente" button is visible and uses it if so, else the "Criar
    Primeiro Agente" text; then it opens the modal, fills the two inputs,
    selects [new_project], submits and asserts the chat view.

    The theorems hold for every handler: a failed navigation ends in a
    normal return with no assertion made and the browser not closed by the
    script; the entry control clicked is the one chosen by the single
    probe; a pass that navigated asserted a chat heading with the name
    typed in the form.  Every run makes at most 26 calls
    ([agents_calls_le]), and no exception ends the script that a call did
    not raise ([agents_raises_only_calls]). *)

From Stdlib Require Import String List Bool.
From S2P Require Import Prelude Locator Prog Bounds.
Import ListNotations.
Local Open Scope string_scope.
Local Open Scope list_scope.

Definition agents_url : string := "http://localhost:5173/agents".

(** [page.get_by_role("button", name="Novo Agente").first] *)
Definition novo_agente_first : Locator := First (GetByRole "button" (Some "Novo Agente")).

(** [page.get_by_text("Criar Primeiro Agente")] *)
Definition criar_primeiro_agente : Locator := GetByText "Criar Primeiro Agente".

(** [create_btn = ...first; if not create_btn.is_visible(): create_btn = ...]:
    the entry control, from the answer of the one visibility probe. *)
Definition agents_entry_choice (visible : Val) : Locator :=
  if negb (truthy visible) then criar_primeiro_agente else novo_agente_first.

(** The statements from the launch to the navigation message. *)
Definition agents_setup : list Call :=
  [ Launch true;                                     (* p.chromium.launch(headless=True) *)
    BrowserNewPage;                                  (* browser.new_page() *)
    Print "Navigating to /agents..." ].

(** [try: page.goto(...) except Exception as e: print(...); return]:
    [true] when the script goes on. *)
Definition agents_navigate : Prog bool :=
  try_except (call (Goto agents_url) ;; Ret true)
             (fun e => call (Print ("Error navigating: " ++ exn_str e)) ;; Ret false).

(** Step 2, up to the probe. *)
Definition agents_list_view : list Call :=
  [ Print "Verifying List View...";
    ExpectVisible (GetByText "Meus Agentes") None ].

(** Steps 3 to 7, once the entry control [create_btn] is chosen. *)
Definition agents_after_choice (create_btn : Locator) : list Call :=
  [ ExpectVisible create_btn None;
    Print "Opening Modal...";
    Click create_btn;
    ExpectVisible (GetByText "Criar Novo Agente") None;
    Print "Filling Form...";
    Fill (GetByPlaceholder "Ex: Consultor de Vendas") "Playwright Bot";
    Fill (GetByPlaceholder "Ex: Especialista em Marketing") "Tester";
    PageSelectOption "select" (ByValue "new_project");  (* page.select_option("select", value=...) *)
    Print "Submitting...";
    Click (GetByRole "button" (Some "Criar Agente"));
    Print "Verifying Chat...";
    ExpectVisible (GetByRole "heading" (Some "Playwright Bot")) None;
    ExpectVisible (GetByPlaceholder "Digite sua mensagem...") None;
    Print "Taking screenshot...";
    Screenshot "/home/jules/verification/agents_flow.png";
    BrowserClose;
    Print "Verification complete." ].

(** Steps 2 to 7: what follows a successful navigation. *)
Definition agents_after_navigation : Prog unit :=
  seq_calls agents_list_view ;;
  visible <- call (IsVisible novo_agente_first) ;;
  seq_calls (agents_after_choice (agents_entry_choice visible)).

(** The body of the [with] block. *)
Definition agents_body : Prog unit :=
  seq_calls agents_setup ;;
  go_on <- agents_navigate ;;
  if go_on then agents_after_navigation else Ret tt.

Definition verify_agents_flow : Prog unit := with_playwright agents_body.

(** [if __name__ == "__main__": verify_agents_flow()] *)
Definition agents_main : Prog unit := verify_agents_flow.

(** ** Footprints of the parts *)

Lemma agents_after_navigation_no_goto :
  only_calls (fun c => c <> Goto agents_url) agents_after_navigation.
Proof.
  unfold agents_after_navigation. apply only_calls_bind; [|intros _; apply only_calls_bind].
  - apply only_calls_seq_calls. repeat constructor; discriminate.
  - apply only_calls_call. discriminate.
  - intros v. apply only_calls_seq_calls. repeat constructor; discriminate.
Qed.

Lemma agents_setup_no (c : Call) :
  c <> Launch true -> c <> BrowserNewPage -> c <> Print "Navigating to /agents..." ->
  ~ In c agents_setup.
Proof. simpl. intuition congruence. Qed.

(** The three ways the body runs: the setup raises; the navigation
    answers and the rest runs; the navigation raises and the script
    prints and returns. *)
Lemma agents_body_cases {W} (h : Call -> W -> result Exn Val * W) (w : W) :
  ((forall c, In c (calls (trace (run h agents_body w))) -> In c agents_setup) /\
   exists e, outcome (run h agents_body w) = Err e) \/
  (exists t1 v w2, calls t1 = agents_setup /\
     trace (run h agents_body w) = t1 ++ (Goto agents_url, Ok v) :: trace (run h agents_after_navigation w2) /\
     outcome (run h agents_body w) = outcome (run h agents_after_navigation w2)) \/
  (exists t1 e2 r3, calls t1 = agents_setup /\
     trace (run h agents_body w) =
       t1 ++ [(Goto agents_url, Err e2); (Print ("Error navigating: " ++ exn_str e2), r3)] /\
     outcome (run h agents_body w) = match r3 with Ok _ => Ok tt | Err e3 => Err e3 end).
Proof.
  pose proof (run_seq_calls h agents_setup w) as Hs.
  pose proof (seq_calls_calls_in h agents_setup w) as Hin.
  unfold agents_body, agents_navigate, trace, outcome in *. rewrite run_bind.
  destruct (run h (seq_calls agents_setup) w) as [[[u|e1] w1] t1]; red_pairs.
  2: { left. split; [exact Hin | eauto]. }
  destruct Hs as [(_ & Hc & _) | (t0 & c & e & _ & _ & [=] & _)].
  right. autorewrite with run_db.
  destruct (h (Goto agents_url) w1) as [[v|e2] w2]; red_pairs.
  - left. exists t1, v, w2. rewrite run_ret. red_pairs.
    destruct (run h agents_after_navigation w2) as [[o w3] t3]. red_pairs.
    rewrite app_nil_r. auto.
  - right. rewrite run_bind, run_call.
    destruct (h (Print ("Error navigating: " ++ exn_str e2)) w2) as [[v3|e3] w3]; red_pairs; rewrite ?run_ret, ?run_throw; red_pairs;
      [exists t1, e2, (Ok v3) | exists t1, e2, (Err e3)];
      rewrite ?app_nil_r, <- ?app_assoc; auto.
Qed.

(** The ways the steps after the navigation run: the list view raises;
    the probe raises; the probe answers [v] and the block for the control
    [agents_entry_choice v] runs. *)
Lemma agents_after_navigation_cases {W} (h : Call -> W -> result Exn Val * W) (w : W) :
  ((forall c, In c (calls (trace (run h agents_after_navigation w))) -> In c agents_list_view) /\
   exists e, outcome (run h agents_after_navigation w) = Err e) \/
  (exists t1 e, calls t1 = agents_list_view /\
     trace (run h agents_after_navigation w) = t1 ++ [(IsVisible novo_agente_first, Err e)] /\
     outcome (run h agents_after_navigation w) = Err e) \/
  (exists t1 v w2, calls t1 = agents_list_view /\
     trace (run h agents_after_navigation w) =
       t1 ++ (IsVisible novo_agente_first, Ok v) ::
         trace (run h (seq_calls (agents_after_choice (agents_entry_choice v))) w2) /\
     outcome (run h agents_after_navigation w) =
       outcome (run h (seq_calls (agents_after_choice (agents_entry_choice v))) w2)).
Proof.
  pose proof (run_seq_calls h agents_list_view w) as Hs.
  pose proof (seq_calls_calls_in h agents_list_view w) as Hin.
  unfold agents_after_navigation, trace, outcome in *. rewrite run_bind.
  destruct (run h (seq_calls agents_list_view) w) as [[[u|e1] w1] t1]; red_pairs.
  2: { left. split; [exact Hin | eauto]. }
  destruct Hs as [(_ & Hc & _) | (t0 & c & e & _ & _ & [=] & _)].
  right. rewrite run_bind, run_call.
  destruct (h (IsVisible novo_agente_first) w1) as [[v|e2] w2]; red_pairs.
  - right. exists t1, v, w2.
    destruct (run h (seq_calls _) w2) as [[o w3] t3]. red_pairs. auto.
  - left. exists t1, e2. auto.
Qed.

(** ** Theorems *)

(** C3: when [page.goto] raises, the script prints the error and returns
    normally: it makes no assertion and does not close the browser, and
    it raises only if the print or the exit of the [with] block raises.
    A failed navigation therefore passes silently. *)
Theorem agents_navigation_error_returns_normally {W} (h : Call -> W -> result Exn Val * W) (w : W) (e : Exn) :
  In (Goto agents_url, Err e) (trace (run h verify_agents_flow w)) ->
  (forall l o, ~ In (ExpectVisible l o) (calls (trace (run h verify_agents_flow w)))) /\
  ~ In BrowserClose (calls (trace (run h verify_agents_flow w))) /\
  (forall e', outcome (run h verify_agents_flow w) = Err e' ->
     In (PlaywrightStop, Err e') (trace (run h verify_agents_flow w)) \/
     In (Print ("Error navigating: " ++ exn_str e), Err e') (trace (run h verify_agents_flow w))).
Proof.
  unfold verify_agents_flow. intros Hin.
  pose proof (with_playwright_trace h agents_body w) as HW.
  destruct (h PlaywrightStart w) as [[v0|e0] w0].
  2: { rewrite HW in Hin. destruct Hin as [Hc|[]]. discriminate. }
  destruct HW as [r2 [Ht Ho]]. rewrite Ht, Ho in *. clear Ht Ho.
  apply in_frame_events in Hin; [|discriminate..].
  setoid_rewrite in_frame_calls; [|discriminate..].
  destruct (agents_body_cases h w0) as [[Hs _] | [(t1 & v & w2 & Hc & Ht & _) | (t1 & e2 & r3 & Hc & Ht & Ho)]];
    [| rewrite Ht in * .. ]; [..| rewrite Ho].
  - exfalso. apply (agents_setup_no (Goto agents_url)); try discriminate. apply Hs. eauto with xp.
  - exfalso. apply in_app_or in Hin as [Hin|[Hin|Hin]]; [|discriminate|].
    + apply (agents_setup_no (Goto agents_url)); try discriminate. rewrite <- Hc. eauto with xp.
    + exact (not_in_footprint h _ w2 _ _ agents_after_navigation_no_goto Hin).
  - assert (He : e2 = e).
    { apply in_app_or in Hin as [Hin|[Hin|[Hin|[]]]]; [|congruence|discriminate].
      exfalso. apply (agents_setup_no (Goto agents_url)); try discriminate. rewrite <- Hc. eauto with xp. }
    subst e2. repeat split; [intros l o | | intros e' He'].
    1,2: rewrite calls_app, Hc; simpl; intuition discriminate.
    destruct r2 as [v4|e4].
    + right. destruct r3 as [v3|e3]; [discriminate|]. injection He' as ->.
      apply in_frame_events; [discriminate | discriminate |].
      apply in_or_app. simpl. auto.
    + left. injection He' as ->. simpl. rewrite in_app_iff. simpl. auto.
Qed.

(** C5: the entry control is chosen by the one visibility probe: when the
    probe of the first "Novo Agente" button answered [v], the only
    controls the script clicks are the first "Novo Agente" button if [v]
    is truthy, else the "Criar Primeiro Agente" text, and the submit
    button. *)
Theorem agents_entry_first_visible_wins {W} (h : Call -> W -> result Exn Val * W) (w : W) (v : Val) (l : Locator) :
  In (IsVisible novo_agente_first, Ok v) (trace (run h verify_agents_flow w)) ->
  In (Click l) (calls (trace (run h verify_agents_flow w))) ->
  l = (if truthy v then novo_agente_first else criar_primeiro_agente) \/
  l = GetByRole "button" (Some "Criar Agente").
Proof.
  unfold verify_agents_flow. intros Hv Hl.
  pose proof (with_playwright_trace h agents_body w) as HW.
  destruct (h PlaywrightStart w) as [[v0|e0] w0].
  2: { rewrite HW in Hv. destruct Hv as [Hc|[]]. discriminate. }
  destruct HW as [r2 [Ht _]]. rewrite Ht in *. clear Ht.
  apply in_frame_events in Hv; [|discriminate..]. apply in_frame_calls in Hl; [|discriminate..].
  destruct (agents_body_cases h w0) as [[Hs _] | [(t1 & v1 & w2 & Hc & Ht & _) | (t1 & e2 & r3 & Hc & Ht & _)]];
    rewrite ?Ht in *.
  - apply in_calls, Hs in Hv. simpl in Hv. intuition discriminate.
  - rewrite calls_app, Hc in Hl. apply in_app_or in Hv as [Hv|[Hv|Hv]]; [| discriminate |].
    { apply in_calls in Hv. rewrite Hc in Hv. simpl in Hv. intuition discriminate. }
    apply in_app_or in Hl as [Hl|[Hl|Hl]]; [simpl in Hl; intuition discriminate | discriminate |].
    destruct (agents_after_navigation_cases h w2)
      as [[Hs _] | [(t2 & e & Hc2 & Ht2 & _) | (t2 & v2 & w3 & Hc2 & Ht2 & _)]]; rewrite ?Ht2 in *.
    + apply in_calls, Hs in Hv. simpl in Hv. intuition discriminate.
    + apply in_app_or in Hv as [Hv|[Hv|[]]]; [| discriminate].
      apply in_calls in Hv. rewrite Hc2 in Hv. simpl in Hv. intuition discriminate.
    + rewrite calls_app, Hc2 in Hl.
      apply in_app_or in Hl as [Hl|[Hl|Hl]]; [simpl in Hl; intuition discriminate | discriminate |].
      apply seq_calls_calls_in in Hl.
      assert (v2 = v) as ->.
      { apply in_app_or in Hv as [Hv|[Hv|Hv]]; [| congruence |].
        - apply in_calls in Hv. rewrite Hc2 in Hv. simpl in Hv. intuition discriminate.
        - apply in_calls, seq_calls_calls_in in Hv. simpl in Hv. intuition discriminate. }
      unfold agents_entry_choice in Hl. destruct (truthy v); simpl in Hl; intuition congruence.
  - apply in_app_or in Hv as [Hv|[Hv|[Hv|[]]]]; try discriminate.
    apply in_calls in Hv. rewrite Hc in Hv. simpl in Hv. intuition discriminate.
Qed.

(** C16: a run that navigated and returned normally typed the agent name
    "Playwright Bot" into the name input, selected [new_project], and saw
    pass the assertions of a heading with that same name and of the
    message input of the chat. *)
Theorem agents_pass_asserts_chat {W} (h : Call -> W -> result Exn Val * W) (w : W) (v : Val) :
  outcome (run h verify_agents_flow w) = Ok tt ->
  In (Goto agents_url, Ok v) (trace (run h verify_agents_flow w)) ->
  exists name v1 v2 v3 v4,
    In (Fill (GetByPlaceholder "Ex: Consultor de Vendas") name, Ok v1) (trace (run h verify_agents_flow w)) /\
    In (PageSelectOption "select" (ByValue "new_project"), Ok v2) (trace (run h verify_agents_flow w)) /\
    In (ExpectVisible (GetByRole "heading" (Some name)) None, Ok v3) (trace (run h verify_agents_flow w)) /\
    In (ExpectVisible (GetByPlaceholder "Digite sua mensagem...") None, Ok v4) (trace (run h verify_agents_flow w)).
Proof.
  unfold verify_agents_flow. intros Hok Hv.
  apply with_playwright_ok in Hok as (v0 & w0 & v5 & _ & Hb & Ht). rewrite Ht in *. clear Ht.
  apply in_frame_events in Hv; [|discriminate..].
  setoid_rewrite in_frame_events; [|discriminate..].
  destruct (agents_body_cases h w0) as [[_ [e He]] | [(t1 & v1 & w2 & Hc & Ht & Ho) | (t1 & e2 & r3 & Hc & Ht & _)]].
  - congruence.
  - rewrite Ht. rewrite Hb in Ho.
    destruct (agents_after_navigation_cases h w2)
      as [[_ [e He]] | [(t2 & e & _ & _ & He) | (t2 & v2 & w3 & Hc2 & Ht2 & Ho2)]]; try congruence.
    rewrite Ht2. rewrite Ho2 in Ho. symmetry in Ho. apply seq_calls_ok in Ho as [Hcs Hall].
    assert (Hin : forall c, In c (agents_after_choice (agents_entry_choice v2)) ->
                  exists v', In (c, Ok v') (t1 ++ (Goto agents_url, Ok v1) :: t2 ++
                    (IsVisible novo_agente_first, Ok v2) ::
                    trace (run h (seq_calls (agents_after_choice (agents_entry_choice v2))) w3))).
    { intros c Hc'. rewrite <- Hcs in Hc'. destruct (all_ok_in_calls _ _ Hall Hc') as [v' Hv'].
      exists v'. rewrite !in_app_iff. simpl. rewrite in_app_iff. simpl. auto. }
    destruct (Hin (Fill (GetByPlaceholder "Ex: Consultor de Vendas") "Playwright Bot")) as [v6 H6]; [simpl; tauto|].
    destruct (Hin (PageSelectOption "select" (ByValue "new_project"))) as [v7 H7]; [simpl; tauto|].
    destruct (Hin (ExpectVisible (GetByRole "heading" (Some "Playwright Bot")) None)) as [v8 H8]; [simpl; tauto|].
    destruct (Hin (ExpectVisible (GetByPlaceholder "Digite sua mensagem...") None)) as [v9 H9]; [simpl; tauto|].
    exists "Playwright Bot", v6, v7, v8, v9. auto.
  - exfalso. rewrite Ht in Hv. apply in_app_or in Hv as [Hv|[Hv|[Hv|[]]]]; try discriminate.
    apply in_calls in Hv. rewrite Hc in Hv. simpl in Hv. intuition discriminate.
Qed.

(** The steps after a successful navigation make at most 20 calls. *)
Lemma agents_after_navigation_le : calls_le any_call 20 agents_after_navigation.
Proof.
  unfold agents_after_navigation. change 20 with (2 + (1 + 17)).
  apply calls_le_bind; [apply (calls_le_seq_calls any_call agents_list_view) | intros _].
  apply calls_le_bind; [apply (calls_le_call any_call) | intros v].
  apply (calls_le_seq_calls any_call (agents_after_choice (agents_entry_choice v))).
Qed.

(** The navigation and what follows it: the [goto], then either the
    twenty calls after it or the error message. *)
Lemma agents_from_navigation_le :
  calls_le any_call 21 (go_on <- agents_navigate ;; if go_on then agents_after_navigation else Ret tt).
Proof.
  unfold agents_navigate. cbn [bind try_except call]. change 21 with (weight any_call (Goto agents_url) + 20).
  constructor. intros [v|e]; cbn [bind try_except].
  - exact agents_after_navigation_le.
  - change 20 with (weight any_call (Print ("Error navigating: " ++ exn_str e)) + 19).
    constructor. intros [v'|e']; constructor.
Qed.

(** The script has no loop and no retry: every run makes at most 26
    calls (the entry, the set-up, the navigation, the twenty calls after
    it and the exit). *)
Lemma agents_calls_le : calls_le any_call 26 verify_agents_flow.
Proof.
  unfold verify_agents_flow, agents_body. change 26 with (1 + (3 + 21) + 1).
  apply calls_le_with_playwright, calls_le_bind;
    [apply (calls_le_seq_calls any_call agents_setup) | intros _; exact agents_from_navigation_le].
Qed.

(** Every exception the script ends with was raised by one of its calls:
    the [except] of the navigation prints and returns. *)
Lemma agents_raises_only_calls : raised_by (fun _ => False) verify_agents_flow.
Proof.
  unfold verify_agents_flow, agents_body, agents_navigate, agents_after_navigation.
  apply raised_by_with_playwright, raised_by_bind; [auto with xp|intros go].
  apply raised_by_bind; [apply raised_by_try_except; [auto with xp|intros e; auto with xp]|].
  intros []; [|apply raised_by_ret]. apply raised_by_bind; [auto with xp|intros v].
  auto with xp.
Qed.

(** ** Concrete runs *)

Definition nav_refused : Exn := PlaywrightError "net::ERR_CONNECTION_REFUSED at http://localhost:5173/agents".

(** The application is not running: [page.goto] raises; the run still
    returns normally and never closes the browser. *)
Lemma agents_navigation_error_returns_normally_witness :
  outcome (run (fail_on (Goto agents_url) nav_refused) verify_agents_flow tt) = Ok tt /\
  ~ In BrowserClose (calls (trace (run (fail_on (Goto agents_url) nav_refused) verify_agents_flow tt))).
Proof.
  split; [vm_compute; reflexivity|].
  refine (proj1 (proj2 (agents_navigation_error_returns_normally
                          (fail_on (Goto agents_url) nav_refused) tt nav_refused _))).
  in_concrete.
Defined.

(** The list is empty: the probe answers false and the script clicks
    "Criar Primeiro Agente". *)
Definition empty_list_view : Call -> unit -> result Exn Val * unit :=
  answer_by (fun c => if call_eqb c (IsVisible novo_agente_first) then Ok (VBool false) else Ok VNone).

Lemma agents_entry_first_visible_wins_witness :
  criar_primeiro_agente = (if truthy (VBool false) then novo_agente_first else criar_primeiro_agente) \/
  criar_primeiro_agente = GetByRole "button" (Some "Criar Agente").
Proof.
  apply (agents_entry_first_visible_wins empty_list_view tt (VBool false) criar_primeiro_agente);
    in_concrete.
Defined.

Lemma agents_pass_asserts_chat_witness :
  exists name v1 v2 v3 v4,
    In (Fill (GetByPlaceholder "Ex: Consultor de Vendas") name, Ok v1) (trace (run all_ok verify_agents_flow tt)) /\
    In (PageSelectOption "select" (ByValue "new_project"), Ok v2) (trace (run all_ok verify_agents_flow tt)) /\
    In (ExpectVisible (GetByRole "heading" (Some name)) None, Ok v3) (trace (run all_ok verify_agents_flow tt)) /\
    In (ExpectVisible (GetByPlaceholder "Digite sua mensagem...") None, Ok v4) (trace (run all_ok verify_agents_flow tt)).
Proof.
  apply (agents_pass_asserts_chat all_ok tt VNone); [vm_compute; reflexivity | in_concrete].
Defined.

(** ** The locators on a document *)

