(* ===== verification/Transparency.v ===== *)
(** * The transparency flow ([src/verification/verify_transparency.py])

    [transparency_run] is the function [run(playwright)]: it launches the
    browser, opens a context and a page, registers two mocked routes, and
    then runs the three page checks inside [try]/[except Exception]/
    [finally].  The handler prints the exception, takes
    [verification/error.png] and re-raises it; the [finally] closes the
    browser.  [transparency_main] is the [__main__] block, which calls
    [run] inside [with sync_playwright()].

    The theorems hold for every handler: the browser is closed exactly on
    the runs that registered both routes, and then it is the last call
    before the exit of the [with] block; on an exception inside the [try]
    the diagnostic screenshot is taken and the exception propagates; a
    pass saw every assertion of the three pages pass and took no
    diagnostic screenshot; both routes are registered before the first
    navigation; the two routes answer exactly the URLs that end with
    their API paths.  Every run makes at most 35 calls and takes at most
    four screenshots, one [error.png] at
    most; the [except] only re-raises what a call raised. *)

From Stdlib Require Import String Ascii List Bool NArith Lia.
From S2P Require Import Prelude Locator Routes Prog Bounds.
Import ListNotations.
Local Open Scope string_scope.
Local Open Scope list_scope.

(** ** The mocked API *)

Definition submissions_pattern : string := "**/api/submissions".
Definition leads_pattern : string := "**/api/leads".

(** The body of the mocked [GET /api/submissions]. *)
Definition submissions_response : Response :=
  {| status := 200; content_type := "application/json";
     body := json_lit "{'submissions': [{'id': 'sub_123', 'nomeAnon': 'Jo**', 'emailAnon': 'j**@e**.com', 'mensagem': 'Test Message Public View', 'data': '2023-10-27T10:00:00Z'}], 'total': 1}" |}.

(** The body of the mocked [POST /api/leads]. *)
Definition leads_response : Response :=
  {| status := 200; content_type := "application/json";
     body := json_lit "{'success': true, 'id': 'sub_generated_id'}" |}.

(** The page's routes after the two [page.route] calls (a fresh context
    has none). *)
Definition transparency_routes : RouteTable :=
  register (register [] submissions_pattern submissions_response) leads_pattern leads_response.

Definition route_submissions : Call := RouteFulfill submissions_pattern submissions_response.
Definition route_leads : Call := RouteFulfill leads_pattern leads_response.

(** ** The script *)

(** Launch, context, page and the first route. *)
Definition transparency_setup_pre : list Call :=
  [ Launch true;                                     (* playwright.chromium.launch(headless=True) *)
    BrowserNewContext;                               (* browser.new_context() *)
    ContextNewPage;                                  (* context.new_page() *)
    route_submissions ].

(** The statements before the [try]. *)
Definition transparency_setup : list Call := transparency_setup_pre ++ [route_leads].

(** [page.locator("form").first] *)
Definition contact_form : Locator := First (Css "form").

(** The body of the [try]: the three pages in order. *)
Definition transparency_try : list Call :=
  [ Print "Navigating to Transparency Page...";
    Goto "http://localhost:4173/transparencia";
    ExpectVisible (GetByText "Transparência Xperience") (Some 10000%N);
    ExpectVisible (GetByText "Test Message Public View") None;
    Screenshot "verification/transparency_page.png";
    Print "Transparency Page Verified.";
    Print "Navigating to Contact Page...";
    Goto "http://localhost:4173/contact";
    Fill (Scoped contact_form (GetByPlaceholder "Nome")) "John Doe";
    Fill (Scoped contact_form (GetByPlaceholder "E-mail")) "john@example.com";
    Fill (Scoped contact_form (GetByPlaceholder "Telefone")) "1234567890";
    SelectOption (Css "select") (ByValueOrLabel "retail");
    Fill (Css "textarea") "I need help with AI.";
    Check (GetByRole "checkbox" None);
    Click (GetByRole "button" (Some "Enviar mensagem"));
    ExpectVisible (GetByText "Mensagem enviada com sucesso!") None;
    ExpectVisible (GetByText "ID Público: sub_generated_id") None;
    Screenshot "verification/contact_success.png";
    Print "Contact Form Verified.";
    Print "Navigating to Leads Manager...";
    Goto "http://localhost:4173/leads";
    ExpectVisible (GetByText "Gerenciador de Submissões") None;
    ExpectVisible (GetByText "sub_123") None;
    Screenshot "verification/leads_manager.png";
    Print "Leads Manager Verified." ].

Definition error_screenshot : Call := Screenshot "verification/error.png".

(** [except Exception as e: print(...); page.screenshot(...); raise e] *)
Definition transparency_except (e : Exn) : Prog unit :=
  call (Print ("Verification failed: " ++ exn_str e)) ;;
  call error_screenshot ;;
  Throw e.

(** [try: ... except Exception as e: ...] *)
Definition transparency_guarded : Prog unit :=
  try_except (seq_calls transparency_try) transparency_except.

(** [run(playwright)] *)
Definition transparency_run : Prog unit :=
  seq_calls transparency_setup ;;
  try_finally transparency_guarded (call BrowserClose ;; Ret tt).

(** [with sync_playwright() as playwright: run(playwright)] *)
Definition transparency_main : Prog unit := with_playwright transparency_run.

(** ** How the parts run *)

Definition failed_msg (e : Exn) : string := "Verification failed: " ++ exn_str e.

(** The [try]/[except]: either every statement answers, or the first one
    that raises hands its exception [e] to the handler, which prints it
    and, if the print answered, takes the error screenshot; the outcome is
    the last exception raised. *)
Lemma transparency_guarded_cases {W} (h : Call -> W -> result Exn Val * W) (w : W) :
  (outcome (run h transparency_guarded w) = Ok tt /\
   calls (trace (run h transparency_guarded w)) = transparency_try /\
   forallb ev_ok (trace (run h transparency_guarded w)) = true) \/
  (exists t0 c e th, trace (run h transparency_guarded w) = t0 ++ (c, Err e) :: th /\
     forallb ev_ok t0 = true /\ calls t0 ++ [c] <<= transparency_try /\
     ((exists e1, th = [(Print (failed_msg e), Err e1)] /\ outcome (run h transparency_guarded w) = Err e1) \/
      (exists v1 r2, th = [(Print (failed_msg e), Ok v1); (error_screenshot, r2)] /\
         outcome (run h transparency_guarded w) = match r2 with Ok _ => Err e | Err e2 => Err e2 end))).
Proof.
  pose proof (run_seq_calls h transparency_try w) as Hs.
  unfold transparency_guarded, trace, outcome. rewrite run_try_except.
  destruct (run h (seq_calls transparency_try) w) as [[[u|e] w1] t1]; red_pairs.
  - left. destruct Hs as [(-> & Hc & Hok) | (t0 & c & e & _ & _ & [=] & _)]. destruct u. auto.
  - right. destruct Hs as [(? & _) | (t0 & c & e' & -> & Hok & [= <-] & Hp)]; [discriminate|].
    exists t0, c, e. unfold transparency_except. rewrite run_bind, run_call.
    destruct (h (Print _) w1) as [[v1|e1] w2]; red_pairs.
    + rewrite run_bind, run_call. destruct (h error_screenshot w2) as [[v2|e2] w3]; red_pairs;
        rewrite ?run_throw; red_pairs.
      * exists [(Print (failed_msg e), Ok v1); (error_screenshot, Ok v2)].
        repeat split; auto; [rewrite <- !app_assoc; reflexivity|]. right. exists v1, (Ok v2). auto.
      * exists [(Print (failed_msg e), Ok v1); (error_screenshot, Err e2)].
        repeat split; auto; [rewrite <- !app_assoc; reflexivity|]. right. exists v1, (Err e2). auto.
    + exists [(Print (failed_msg e), Err e1)].
      repeat split; auto; [rewrite <- !app_assoc; reflexivity|]. left. eauto.
Qed.

(** [run(playwright)]: the setup raises before the second route; the
    second route raises; or both routes answer, the guarded block runs
    and the [finally] closes the browser, whose exception (if any)
    replaces the block's outcome. *)
Lemma transparency_run_cases {W} (h : Call -> W -> result Exn Val * W) (w : W) :
  ((forall c, In c (calls (trace (run h transparency_run w))) -> In c transparency_setup_pre) /\
   exists e, outcome (run h transparency_run w) = Err e) \/
  (exists t1 e, calls t1 = transparency_setup_pre /\
     trace (run h transparency_run w) = t1 ++ [(route_leads, Err e)] /\
     outcome (run h transparency_run w) = Err e) \/
  (exists t1 v w1 r3, calls t1 = transparency_setup_pre /\ forallb ev_ok t1 = true /\
     trace (run h transparency_run w) =
       t1 ++ (route_leads, Ok v) :: trace (run h transparency_guarded w1) ++ [(BrowserClose, r3)] /\
     outcome (run h transparency_run w) =
       match r3 with Ok _ => outcome (run h transparency_guarded w1) | Err e => Err e end).
Proof.
  pose proof (run_seq_calls h transparency_setup_pre w) as Hs.
  pose proof (seq_calls_calls_in h transparency_setup_pre w) as Hin.
  unfold transparency_run, transparency_setup, trace, outcome in *.
  rewrite run_bind, run_seq_calls_app.
  destruct (run h (seq_calls transparency_setup_pre) w) as [[[u|e1] w1] t1]; red_pairs.
  2: { left. split; [exact Hin | eauto]. }
  destruct Hs as [(_ & Hc & Hok) | (t0 & c & e & _ & _ & [=] & _)].
  right. cbn [seq_calls]. rewrite run_bind, run_call.
  destruct (h route_leads w1) as [[v|e2] w2]; red_pairs.
  - right. exists t1, v, w2. rewrite run_ret. red_pairs. rewrite run_try_finally.
    destruct (run h transparency_guarded w2) as [[o w3] t3]. rewrite run_bind, run_call.
    destruct (h BrowserClose w3) as [[v3|e3] w4]; red_pairs; rewrite ?run_ret; red_pairs;
      [exists (Ok v3) | exists (Err e3)]; rewrite ?app_nil_r, <- ?app_assoc; auto.
  - left. exists t1, e2. auto.
Qed.

(** What the statements of the [try] are not. *)
Lemma transparency_try_calls (c : Call) :
  In c transparency_try ->
  c <> PlaywrightStart /\ c <> PlaywrightStop /\ c <> BrowserClose /\ c <> route_leads /\
  c <> error_screenshot /\ ~ In c transparency_setup_pre /\ (forall e, c <> Print (failed_msg e)).
Proof.
  intros Hc. unfold route_leads, error_screenshot, failed_msg. simpl in Hc.
  repeat (destruct Hc as [<-|Hc];
    [repeat split; first [ discriminate
                         | intros Hin; simpl in Hin; intuition discriminate
                         | intros e' He'; simpl in He'; discriminate ] |]).
  destruct Hc.
Qed.

(** A run that returned normally made the entry, the set-up, every
    statement of the [try], [browser.close()] and the exit, in this order,
    and every one answered. *)
Lemma transparency_pass_calls {W} (h : Call -> W -> result Exn Val * W) (w : W) :
  outcome (run h transparency_main w) = Ok tt ->
  calls (trace (run h transparency_main w)) =
    PlaywrightStart :: transparency_setup ++ transparency_try ++ [BrowserClose; PlaywrightStop] /\
  forallb ev_ok (trace (run h transparency_main w)) = true.
Proof.
  unfold transparency_main. intros Hok.
  apply with_playwright_ok in Hok as (v0 & w0 & v5 & _ & Hb & ->).
  destruct (transparency_run_cases h w0)
    as [[_ [e He]] | [(t1 & e & _ & _ & He) | (t1 & v & w1 & r3 & Hc1 & Hok1 & Ht & Ho)]]; try congruence.
  rewrite Ht. rewrite Hb in Ho. destruct r3 as [v3|e3]; [|discriminate].
  destruct (transparency_guarded_cases h w1)
    as [(_ & Hcg & Hokg) | (t0 & c & e & th & _ & _ & _ & [(e1 & _ & He) | (v1 & r2 & _ & He)])];
    [| rewrite He in Ho; discriminate | rewrite He in Ho; destruct r2; discriminate].
  rewrite calls_cons, !calls_app, calls_cons, calls_app, Hc1, Hcg. cbn [fst calls map].
  split; [unfold transparency_setup; app_norm; reflexivity|]. cbn [forallb ev_ok is_ok snd].
  rewrite !forallb_app, Hok1. cbn [forallb ev_ok is_ok snd andb]. rewrite forallb_app, Hokg. reflexivity.
Qed.

(** ** Theorems *)

(** C1: the browser is closed on every run that reached the [try] (both
    routes registered), whatever fails inside it, and then
    [browser.close()] is the last call before the exit of the [with]
    block; a run that failed before the [try] does not close it. *)
Theorem transparency_closes_iff_routes {W} (h : Call -> W -> result Exn Val * W) (w : W) :
  (exists v, In (route_leads, Ok v) (trace (run h transparency_main w))) <->
  exists t0 r1 r2, trace (run h transparency_main w) = t0 ++ [(BrowserClose, r1); (PlaywrightStop, r2)].
Proof.
  unfold transparency_main. pose proof (with_playwright_trace h transparency_run w) as HW.
  destruct (h PlaywrightStart w) as [[v0|e0] w0].
  2: { unfold trace at 1 2. rewrite HW. simpl. split.
       - intros [v [Hv|[]]]. discriminate.
       - intros (t0 & r1 & r2 & Ht). apply (f_equal (@length _)) in Ht.
         rewrite length_app in Ht. simpl in Ht. lia. }
  destruct HW as [r2 [Ht _]]. rewrite Ht. clear Ht. setoid_rewrite in_frame_events; [|discriminate..].
  destruct (transparency_run_cases h w0)
    as [[Hs _] | [(t1 & e & Hc & Ht & _) | (t1 & v & w1 & r3 & Hc & _ & Ht & _)]]; rewrite ?Ht.
  - split; [intros [v Hv]; apply in_calls, Hs in Hv; simpl in Hv; intuition discriminate|].
    intros (t0 & r1 & r4 & Ht0). exfalso.
    assert (Hcl : In BrowserClose (calls ((PlaywrightStart, Ok v0) :: trace (run h transparency_run w0) ++ [(PlaywrightStop, r2)]))).
    { rewrite Ht0, calls_app. apply in_or_app. simpl. auto. }
    apply in_frame_calls, Hs in Hcl; [|discriminate..]. simpl in Hcl. intuition discriminate.
  - split.
    + intros [v Hv]. exfalso. apply in_app_or in Hv as [Hv|[Hv|[]]]; [|discriminate].
      apply in_calls in Hv. rewrite Hc in Hv. simpl in Hv. intuition discriminate.
    + intros (t0 & r1 & r4 & Ht0). exfalso.
      assert (Hcl : In BrowserClose (calls ((PlaywrightStart, Ok v0) :: (t1 ++ [(route_leads, Err e)]) ++ [(PlaywrightStop, r2)]))).
      { rewrite Ht0, calls_app. apply in_or_app. simpl. auto. }
      apply in_frame_calls in Hcl; [|discriminate..]. rewrite calls_app, Hc in Hcl.
      simpl in Hcl. intuition discriminate.
  - split; [intros _ | intros _; exists v; apply in_or_app; simpl; auto].
    exists ((PlaywrightStart, Ok v0) :: t1 ++ (route_leads, Ok v) :: trace (run h transparency_guarded w1)), r3, r2.
    cbn. f_equal. rewrite <- !app_assoc. cbn. now rewrite <- !app_assoc.
Qed.

(** Inside the guarded block, a statement of the [try] that raises is the
    one the handler receives: the handler's calls follow it, and the block
    raises the last exception of the handler, else that one. *)
Lemma transparency_guarded_error {W} (h : Call -> W -> result Exn Val * W) (w : W) (c : Call) (e : Exn) :
  In c transparency_try -> In (c, Err e) (trace (run h transparency_guarded w)) ->
  exists t0 th, trace (run h transparency_guarded w) = t0 ++ (c, Err e) :: th /\
    ((exists e1, th = [(Print (failed_msg e), Err e1)]) \/
     (exists v1 r2, th = [(Print (failed_msg e), Ok v1); (error_screenshot, r2)])) /\
    outcome (run h transparency_guarded w) = Err (last_exn e th).
Proof.
  intros Hc Hin. destruct (transparency_try_calls c Hc) as (_ & _ & _ & _ & Hshot & _ & Hpr).
  destruct (transparency_guarded_cases h w) as [(_ & _ & Hok) | (t0 & c' & e' & th & Ht & Hok & _ & Hth)].
  { exfalso. exact (all_ok_no_err _ _ _ Hok Hin). }
  rewrite Ht in Hin |- *. apply in_app_or in Hin as [Hin|[Hin|Hin]].
  - exfalso. exact (all_ok_no_err _ _ _ Hok Hin).
  - injection Hin as <- <-. exists t0, th. split; [reflexivity|].
    destruct Hth as [(e1 & -> & Ho) | (v1 & [v2|e2] & -> & Ho)]; rewrite Ho; eauto 7.
  - exfalso. destruct Hth as [(e1 & -> & _) | (v1 & r2 & -> & _)]; simpl in Hin;
      intuition (try congruence; eapply Hpr; congruence).
Qed.

(** C2: when a statement of the [try] raises [e], the handler prints it
    and, if the print answered, takes the diagnostic screenshot; then the
    [finally] closes the browser and the [with] block exits, in that
    order, and the script raises the last exception of these calls, else
    [e] itself. *)
Theorem transparency_exception_path {W} (h : Call -> W -> result Exn Val * W) (w : W) (c : Call) (e : Exn) :
  In c transparency_try -> In (c, Err e) (trace (run h transparency_main w)) ->
  exists t0 th r3 r4,
    trace (run h transparency_main w) =
      t0 ++ (c, Err e) :: th ++ [(BrowserClose, r3); (PlaywrightStop, r4)] /\
    ((exists e1, th = [(Print (failed_msg e), Err e1)]) \/
     (exists v1 r2, th = [(Print (failed_msg e), Ok v1); (error_screenshot, r2)])) /\
    outcome (run h transparency_main w) =
      Err (last_exn e (th ++ [(BrowserClose, r3); (PlaywrightStop, r4)])).
Proof.
  intros Hc Hin. destruct (transparency_try_calls c Hc) as (Hst & Hsp & Hcl & Hrl & _ & Hpre & _).
  unfold transparency_main in *. pose proof (with_playwright_trace h transparency_run w) as HW.
  destruct (h PlaywrightStart w) as [[v0|e0] w0].
  2: { exfalso. unfold trace in Hin. rewrite HW in Hin. destruct Hin as [Hin|[]]. congruence. }
  destruct HW as [r2 [Ht Ho]]. rewrite Ht in Hin |- *. rewrite Ho. clear Ht Ho.
  apply in_frame_events in Hin; [|assumption..].
  destruct (transparency_run_cases h w0)
    as [[Hs _] | [(t1 & e1 & Hc1 & Ht & _) | (t1 & v & w1 & r3 & Hc1 & _ & Ht & Ho)]].
  - exfalso. apply in_calls, Hs in Hin. contradiction.
  - exfalso. rewrite Ht in Hin. apply in_app_or in Hin as [Hin|[Hin|[]]]; [|congruence].
    apply in_calls in Hin. rewrite Hc1 in Hin. contradiction.
  - rewrite Ht in Hin |- *. rewrite Ho.
    apply in_app_or in Hin as [Hin|[Hin|Hin]];
      [exfalso; apply in_calls in Hin; rewrite Hc1 in Hin; contradiction | congruence |].
    apply in_app_or in Hin as [Hin|[Hin|[]]]; [|congruence].
    destruct (transparency_guarded_error h w1 c e Hc Hin) as (t0 & th & Htg & Hth & Hog).
    exists ((PlaywrightStart, Ok v0) :: t1 ++ (route_leads, Ok v) :: t0), th, r3, r2.
    split; [rewrite Htg; app_norm; reflexivity |].
    split; [exact Hth|]. rewrite Hog, last_exn_app.
    destruct r3, r2; reflexivity.
Qed.

(** C17: a run that returns normally saw every statement of the three
    pages answer, every assertion included ("Test Message Public View",
    "ID Público: sub_generated_id", "sub_123"), and took no diagnostic
    screenshot. *)
Theorem transparency_pass_all_checks {W} (h : Call -> W -> result Exn Val * W) (w : W) :
  outcome (run h transparency_main w) = Ok tt ->
  (forall c, In c transparency_try -> exists v, In (c, Ok v) (trace (run h transparency_main w))) /\
  ~ In error_screenshot (calls (trace (run h transparency_main w))).
Proof.
  unfold transparency_main. intros Hok.
  apply with_playwright_ok in Hok as (v0 & w0 & v5 & _ & Hb & Ht). rewrite Ht. clear Ht.
  destruct (transparency_run_cases h w0)
    as [[_ [e He]] | [(t1 & e & _ & _ & He) | (t1 & v & w1 & r3 & Hc1 & _ & Ht & Ho)]]; try congruence.
  rewrite Ht. rewrite Hb in Ho. destruct r3 as [v3|e3]; [|discriminate].
  destruct (transparency_guarded_cases h w1)
    as [(_ & Hcg & Hokg) | (t0 & c & e & th & _ & _ & _ & [(e1 & _ & He) | (v1 & r2 & _ & He)])];
    [| rewrite He in Ho; discriminate | rewrite He in Ho; destruct r2; discriminate].
  split.
  - intros c Hc. destruct (transparency_try_calls c Hc) as (Hst & Hsp & _).
    rewrite <- Hcg in Hc. destruct (all_ok_in_calls _ _ Hokg Hc) as [v' Hv'].
    exists v'. apply in_frame_events; [exact Hst | exact Hsp |]. apply in_or_app. right. right.
    apply in_or_app. left. exact Hv'.
  - rewrite in_frame_calls by discriminate. rewrite !calls_app, calls_cons, calls_app, Hc1, Hcg.
    simpl. intuition discriminate.
Qed.

(** C18: both routes are registered, and answered, before the first
    navigation: every [page.goto] of a run comes after the two
    [page.route] calls, so every request of the session is intercepted. *)
Theorem transparency_routes_before_navigation {W} (h : Call -> W -> result Exn Val * W) (w : W) (u : string) :
  In (Goto u) (calls (trace (run h transparency_main w))) ->
  exists t0 t1 v1 v2, trace (run h transparency_main w) = t0 ++ t1 /\
    In (route_submissions, Ok v1) t0 /\ In (route_leads, Ok v2) t0 /\
    forall u', ~ In (Goto u') (calls t0).
Proof.
  unfold transparency_main. intros Hg. pose proof (with_playwright_trace h transparency_run w) as HW.
  destruct (h PlaywrightStart w) as [[v0|e0] w0].
  2: { exfalso. unfold trace in Hg. rewrite HW in Hg. destruct Hg as [Hg|[]]. discriminate. }
  destruct HW as [r2 [Ht _]]. rewrite Ht in Hg |- *. clear Ht.
  apply in_frame_calls in Hg; [|discriminate..].
  destruct (transparency_run_cases h w0)
    as [[Hs _] | [(t1 & e & Hc1 & Ht & _) | (t1 & v & w1 & r3 & Hc1 & Hok1 & Ht & _)]].
  - exfalso. apply Hs in Hg. simpl in Hg. intuition discriminate.
  - exfalso. rewrite Ht, calls_app, Hc1 in Hg. simpl in Hg. intuition discriminate.
  - rewrite Ht. destruct (all_ok_in_calls t1 route_submissions Hok1) as [v1 Hv1].
    { rewrite Hc1. simpl. auto. }
    exists ((PlaywrightStart, Ok v0) :: t1 ++ [(route_leads, Ok v)]),
           (trace (run h transparency_guarded w1) ++ [(BrowserClose, r3)] ++ [(PlaywrightStop, r2)]), v1, v.
    repeat split.
    + app_norm. reflexivity.
    + right. apply in_or_app. auto.
    + right. apply in_or_app. simpl. auto.
    + intros u'. rewrite calls_cons, calls_app, Hc1. simpl. intuition discriminate.
Qed.

(** ** Concrete runs *)

Definition leads_assertion : Call := ExpectVisible (GetByText "sub_123") None.
Definition not_visible : Exn := AssertionError "Locator expected to be visible".

(** The leads table does not show [sub_123]: the handler prints, takes
    the error screenshot, the browser is closed and the assertion error
    propagates. *)
Lemma transparency_exception_path_witness :
  exists t0 th r3 r4,
    trace (run (fail_on leads_assertion not_visible) transparency_main tt) =
      t0 ++ (leads_assertion, Err not_visible) :: th ++ [(BrowserClose, r3); (PlaywrightStop, r4)] /\
    ((exists e1, th = [(Print (failed_msg not_visible), Err e1)]) \/
     (exists v1 r2, th = [(Print (failed_msg not_visible), Ok v1); (error_screenshot, r2)])) /\
    outcome (run (fail_on leads_assertion not_visible) transparency_main tt) =
      Err (last_exn not_visible (th ++ [(BrowserClose, r3); (PlaywrightStop, r4)])).
Proof.
  apply (transparency_exception_path (fail_on leads_assertion not_visible) tt leads_assertion not_visible);
    in_concrete.
Defined.

Lemma transparency_pass_all_checks_witness :
  (forall c, In c transparency_try -> exists v, In (c, Ok v) (trace (run all_ok transparency_main tt))) /\
  ~ In error_screenshot (calls (trace (run all_ok transparency_main tt))).
Proof. apply (transparency_pass_all_checks all_ok tt). vm_compute. reflexivity. Defined.

Lemma transparency_routes_before_navigation_witness :
  exists t0 t1 v1 v2, trace (run all_ok transparency_main tt) = t0 ++ t1 /\
    In (route_submissions, Ok v1) t0 /\ In (route_leads, Ok v2) t0 /\
    forall u', ~ In (Goto u') (calls t0).
Proof.
  apply (transparency_routes_before_navigation all_ok tt "http://localhost:4173/contact"). in_concrete.
Defined.

(** ** The contact form's locators on a document *)

(** ** The mocked routes on the network *)

Lemma submissions_pattern_suffix (url : string) :
  url_matches submissions_pattern url = true <-> exists p, url = (p ++ "/api/submissions")%string.
Proof. apply url_matches_deep_suffix. reflexivity. Qed.

Lemma leads_pattern_suffix (url : string) :
  url_matches leads_pattern url = true <-> exists p, url = (p ++ "/api/leads")%string.
Proof. apply url_matches_deep_suffix. reflexivity. Qed.

(** No URL matches both patterns, so the order of the two registrations
    does not matter. *)
Lemma mock_patterns_disjoint (url : string) :
  url_matches submissions_pattern url = true -> url_matches leads_pattern url = false.
Proof.
  intros H1. destruct (url_matches leads_pattern url) eqn:H2; [exfalso|reflexivity].
  apply submissions_pattern_suffix in H1 as [p1 ->]. apply leads_pattern_suffix in H2 as [p2 H2].
  apply (f_equal list_ascii_of_string), (f_equal (@rev ascii)) in H2.
  rewrite !list_ascii_of_string_app, !rev_app_distr in H2. simpl in H2. discriminate.
Qed.

Lemma mock_responses_differ : submissions_response <> leads_response.
Proof. discriminate. Qed.

(** C19: the two registered routes answer exactly the URLs that end with
    their paths: a URL ending in [/api/submissions] gets the submissions
    body, one ending in [/api/leads] the lead, and every other URL goes
    to the backend. *)
Theorem transparency_routes_dispatch (u : string) :
  (dispatch transparency_routes u = Some submissions_response <->
   exists p, u = (p ++ "/api/submissions")%string) /\
  (dispatch transparency_routes u = Some leads_response <->
   exists p, u = (p ++ "/api/leads")%string) /\
  (dispatch transparency_routes u = None <->
   forall p, u <> (p ++ "/api/submissions")%string /\ u <> (p ++ "/api/leads")%string).
Proof.
  unfold transparency_routes, register. cbn [dispatch].
  pose proof (submissions_pattern_suffix u) as Hs. pose proof (leads_pattern_suffix u) as Hl.
  pose proof (mock_patterns_disjoint u) as Hd. pose proof mock_responses_differ as Hne.
  destruct (url_matches leads_pattern u), (url_matches submissions_pattern u);
    [specialize (Hd eq_refl); discriminate | ..]; firstorder congruence.
Qed.

(** ** How many calls a run makes *)

(** The bound of a run from the bounds of its parts: the entry, the
    set-up, the [try], the handler, [browser.close()] and the exit. *)
Lemma transparency_calls_le (P : Call -> bool) (m : nat) :
  (forall e, calls_le P m (transparency_except e)) ->
  calls_le P (weight P PlaywrightStart +
              (count P transparency_setup + ((count P transparency_try + m) + (weight P BrowserClose + 0))) +
              weight P PlaywrightStop) transparency_main.
Proof.
  intros He. apply calls_le_with_playwright, calls_le_bind; [apply calls_le_seq_calls | intros _].
  apply calls_le_try_finally; [apply calls_le_try_except; [apply calls_le_seq_calls | exact He] |].
  apply calls_le_bind; [apply calls_le_call | intros _; constructor].
Qed.

Lemma transparency_except_le (P : Call -> bool) (e : Exn) :
  calls_le P (weight P (Print (failed_msg e)) + (weight P error_screenshot + 0)) (transparency_except e).
Proof.
  unfold transparency_except. apply calls_le_bind; [apply calls_le_call | intros _].
  apply calls_le_bind; [apply calls_le_call | intros _; constructor].
Qed.

Definition leads_verified : Call := Print "Leads Manager Verified.".
Definition print_refused : Exn := PlaywrightError "stdout closed".

(** The script has no loop and no retry: every run makes at most 35
    calls. *)
Lemma transparency_main_calls_le : calls_le any_call 35 transparency_main.
Proof. apply (transparency_calls_le any_call 2). intros e. exact (transparency_except_le any_call e). Qed.

(** Every exception the script ends with was raised by one of its calls:
    the [except] re-raises the exception it caught. *)
Lemma transparency_raises_only_calls : raised_by (fun _ => False) transparency_main.
Proof.
  unfold transparency_main, transparency_run, transparency_guarded, transparency_except.
  apply raised_by_with_playwright, raised_by_bind; [auto with xp|intros _].
  apply raised_by_try_finally; [apply raised_by_try_except; [auto with xp|intros e]|auto with xp].
  apply raised_by_bind; [auto with xp|intros _]. apply raised_by_bind; [auto with xp|intros _].
  apply raised_by_throw. now left.
Qed.

Definition is_error_screenshot (c : Call) : bool := call_eqb c error_screenshot.

(** C9: every run takes at most four screenshots (the three pages and
    the diagnostic one) and at most one [verification/error.png]:
    the handler runs once at most, and nothing is retried. *)
Theorem transparency_screenshot_bounds {W} (h : Call -> W -> result Exn Val * W) (w : W) :
  count is_screenshot (calls (trace (run h transparency_main w))) <= 4 /\
  count is_error_screenshot (calls (trace (run h transparency_main w))) <= 1.
Proof.
  split.
  - apply calls_le_run, (transparency_calls_le is_screenshot 1). intros e. exact (transparency_except_le is_screenshot e).
  - apply calls_le_run, (transparency_calls_le is_error_screenshot 1). intros e.
    apply (calls_le_mono _ _ _ _ (transparency_except_le _ e)). unfold weight, is_error_screenshot, call_eqb.
    destruct (Call_eq_dec (Print (failed_msg e)) error_screenshot) as [H|_]; [discriminate H|].
    destruct (Call_eq_dec error_screenshot error_screenshot); [reflexivity | contradiction].
Qed.

(** ** The mocked bodies and the assertions *)

