(* ===== verification/EndToEnd.v ===== *)
(** * The flows in the browser

    The script files prove what the scripts do for every handler; here
    they run in the browser of [Browser.v], against any application
    ([App]) and any backend.  For the transparency flow, this shows what
    the mocked routes buy:

    - isolation: no request to a URL that one of the two mock patterns
      matches ever reaches the backend, whatever the application requests
      and whatever happens in the flow (spec, section 8);
    - independence: when every request the application makes is one the
      mocks answer, the run's outcome and trace are the same for every
      backend.  A pass on one backend is then a pass on all.

    Both follow the script's structure: the set-up calls only register
    routes ([rsim_setup_iso], [rsim_setup_agree]); after them the routes
    answer what they must, and every call keeps that so
    ([step_guarded], [step_covered], with [rsim_invariant]).

    For all three flows, a passing run wrote exactly the script's
    screenshots (the agents one at an absolute path, or none when its
    navigation failed) and the transparency one printed its six progress
    lines ([browser_output] reads the files and lines off the trace).

    Models of the Xperience front end ([xperience], [dashboard_app],
    [xperience_down]), written from what the scripts and the
    specification expect of it, serve only as the concrete inputs of the
    witnesses. *)

From Stdlib Require Import String List Bool.
From S2P Require Import Prelude Locator Routes Json Prog Sim Browser Dashboard Agents Transparency.
Import ListNotations.
Local Open Scope string_scope.
Local Open Scope list_scope.

(** The requests the two mocks answer. *)
Definition mocked (u : string) : bool := url_matches submissions_pattern u || url_matches leads_pattern u.

Section Flow.
Context `{App}.

Lemma guards_transparency_routes : guards mocked transparency_routes.
Proof.
  intros u Hu. unfold transparency_routes, register. cbn [dispatch]. unfold mocked in Hu.
  destruct (url_matches leads_pattern u); [discriminate|].
  destruct (url_matches submissions_pattern u); discriminate.
Qed.

Lemma transparency_setup_only_routes :
  forallb setup_call transparency_setup = true /\ routes_after [] transparency_setup = transparency_routes.
Proof. split; reflexivity. Qed.

(** The clean-log invariant, from a fresh process, over the whole run. *)
Lemma transparency_main_iso (backend : string -> Response) :
  rsim (browser backend) (browser backend)
       (diag (fun w => net_routes (w_net w) = [] /\ clean mocked (net_backend_log (w_net w))))
       (fun _ => diag (fun w => clean mocked (net_backend_log (w_net w))))
       transparency_main.
Proof.
  destruct transparency_setup_only_routes as [Hs Hr].
  apply (rsim_with_playwright _ _ _ (fun _ => diag (fun w => net_routes (w_net w) = [] /\
                                                     clean mocked (net_backend_log (w_net w))))
                                    (fun _ => diag (fun w => clean mocked (net_backend_log (w_net w))))).
  - apply step_sim_diag. intros w [Hn Hl]. rewrite setup_net by reflexivity. auto.
  - intros _. unfold transparency_run.
    apply (rsim_bind _ _ _ (fun o => diag (fun w => match o with
                                                    | Ok _ => net_routes (w_net w) = routes_after [] transparency_setup
                                                    | Err _ => True end /\
                                                    clean mocked (net_backend_log (w_net w))))).
    + apply rsim_setup_iso, Hs.
    + intros _. apply (rsim_mono _ _ (diag (fun w => guards mocked (net_routes (w_net w)) /\
                                                  clean mocked (net_backend_log (w_net w))))
                                     _ (fun _ => diag (fun w => guards mocked (net_routes (w_net w)) /\
                                                  clean mocked (net_backend_log (w_net w))))).
      * intros w1 w2 [-> [Hn Hl]]. cbv beta iota in Hn. split; [reflexivity|]. rewrite Hn, Hr. split; [apply guards_transparency_routes | exact Hl].
      * intros o w1 w2 [-> [_ Hl]]. split; auto.
      * apply rsim_invariant. intros c. apply step_sim_diag. intros w [Hg Hl]. apply step_guarded; auto.
    + intros e w1 w2 [-> [_ Hl]]. split; auto.
  - intros e w1 w2 [-> [_ Hl]]. split; auto.
  - intros o. apply step_sim_diag. intros w Hl. rewrite setup_net by reflexivity. exact Hl.
Qed.

(** The two runs from a fresh process, over the whole run, when the
    mocks answer every request of the application. *)
Lemma transparency_main_agree (b1 b2 : string -> Response) :
  covers transparency_routes ->
  rsim (browser b1) (browser b2) (agree_rt [] [] []) (fun _ => agree [] []) transparency_main.
Proof.
  intros Hc. destruct transparency_setup_only_routes as [Hs Hr].
  apply (rsim_with_playwright _ _ _ (fun _ => agree_rt [] [] []) (fun _ => agree [] [])).
  - apply step_passive. reflexivity.
  - intros _. unfold transparency_run.
    apply (rsim_bind _ _ _ (fun o => match o with
                                     | Ok _ => agree_rt (routes_after [] transparency_setup) [] []
                                     | Err _ => agree [] [] end)).
    + apply rsim_setup_agree, Hs.
    + intros _. rewrite Hr. apply (rsim_mono _ _ (agree_cov [] []) _ (fun _ => agree_cov [] [])).
      * intros w1 w2 Ha. exists transparency_routes. auto.
      * intros o w1 w2 (rt & _ & Ha). exists rt. exact Ha.
      * apply rsim_invariant. intros c. apply step_covered.
    + auto.
  - intros e w1 w2 Ha. exists []. exact Ha.
  - intros o w1 w2 (rt & Ha). destruct (step_passive b1 b2 rt [] [] PlaywrightStop eq_refl w1 w2 Ha) as [E Ha'].
    split; [exact E | exists rt; exact Ha'].
Qed.

(** C6: whatever the application requests and whatever happens in the
    flow, no request to a URL the mock patterns match reaches the
    backend in a run of [verify_transparency.py] from a fresh process:
    the routes are registered before the first request and stay. *)
Theorem transparency_backend_isolated (backend : string -> Response) (u : string) :
  In u (net_backend_log (w_net (world (run (browser backend) transparency_main fresh)))) ->
  mocked u = false.
Proof.
  revert u. apply (rsim_diag_run _ (fun w => net_routes (w_net w) = [] /\ clean mocked (net_backend_log (w_net w)))
                                  (fun _ w => clean mocked (net_backend_log (w_net w)))).
  - apply transparency_main_iso.
  - split; [reflexivity | intros u []].
Qed.

(** C20: when every request the application makes is one the mocks
    answer, the run of [verify_transparency.py] from a fresh process has
    the same outcome and the same trace for every backend, and the
    backend receives nothing. *)
Theorem transparency_backend_independent (b1 b2 : string -> Response) :
  covers transparency_routes ->
  outcome (run (browser b1) transparency_main fresh) = outcome (run (browser b2) transparency_main fresh) /\
  trace (run (browser b1) transparency_main fresh) = trace (run (browser b2) transparency_main fresh) /\
  net_backend_log (w_net (world (run (browser b1) transparency_main fresh))) = [].
Proof.
  intros Hc. destruct (transparency_main_agree b1 b2 Hc fresh fresh (agree_rt_intro [] [] [] _ _ _ _ _))
    as (Ho & Ht & rt & v & d & s & o & bo & E1 & _).
  repeat split; [exact Ho | exact Ht | rewrite E1; reflexivity].
Qed.
End Flow.

(** ** A model of the Xperience front end

    The application is not in this repository; this instance follows
    what the flow expects of it (spec, section 4.3): the transparency page
    lists the messages of [GET /api/submissions], the contact form posts
    to [/api/leads] and shows the public id it answers, the leads page
    lists the submission ids.  [with_newsletter] adds the footer
    newsletter form the script's comment mentions, with a topic select. *)

Definition base : string := "http://localhost:4173".
Definition transparencia_url : string := base ++ "/transparencia".
Definition contact_url : string := base ++ "/contact".
Definition sent_url : string := base ++ "/contact#enviado".
Definition leads_url : string := base ++ "/leads".
Definition submissions_api : string := base ++ "/api/submissions".
Definition leads_api : string := base ++ "/api/leads".

(** A string field of a JSON response body. *)
Definition body_text (p : list step) (rs : list Response) : string :=
  match rs with
  | r :: _ => match parse_json (body r) with
              | Some v => match get p v with Some (JStr t) => t | _ => "" end
              | None => ""
              end
  | [] => ""
  end.

Definition text_el (id : nat) (tag : string) (role : option string) (t : string) : Element :=
  mkElement id tag role t t None true [].

Definition field_el (id : nat) (tag : string) (role : option string) (ph : option string) (form : nat) : Element :=
  mkElement id tag role "" "" ph true [form].

Definition contact_dom (with_newsletter : bool) : Dom :=
  [ mkElement 10 "form" None "" "" None true [];
    field_el 11 "input" (Some "textbox") (Some "Nome") 10;
    field_el 12 "input" (Some "textbox") (Some "E-mail") 10;
    field_el 13 "input" (Some "textbox") (Some "Telefone") 10;
    field_el 14 "select" (Some "combobox") None 10;
    field_el 15 "textarea" (Some "textbox") (Some "Conte-nos sua necessidade") 10;
    field_el 16 "input" (Some "checkbox") None 10;
    mkElement 17 "button" (Some "button") "Enviar mensagem" "Enviar mensagem" None true [10] ] ++
  (if with_newsletter then
     [ mkElement 20 "form" None "" "" None true [];
       field_el 21 "input" (Some "textbox") (Some "Seu e-mail") 20;
       field_el 22 "select" (Some "combobox") None 20 ]
   else []).

Definition xperience_render (with_newsletter : bool) (v : string) (rs : list Response) : Dom :=
  if String.eqb v transparencia_url then
    [ text_el 1 "h1" (Some "heading") "Transparência Xperience";
      text_el 2 "p" None (body_text [inl "submissions"; inr 0; inl "mensagem"] rs) ]
  else if String.eqb v contact_url then contact_dom with_newsletter
  else if String.eqb v sent_url then
    [ text_el 30 "h2" (Some "heading") "Mensagem enviada com sucesso!";
      text_el 31 "p" None ("ID Público: " ++ body_text [inl "id"] rs) ]
  else if String.eqb v leads_url then
    [ text_el 40 "h1" (Some "heading") "Gerenciador de Submissões";
      text_el 41 "td" (Some "cell") (body_text [inl "submissions"; inr 0; inl "id"] rs) ]
  else [].

Definition xperience_fetches (v : string) : list string :=
  if String.eqb v transparencia_url then [submissions_api]
  else if String.eqb v sent_url then [leads_api]
  else if String.eqb v leads_url then [submissions_api]
  else [].

Definition xperience_click (v : string) (e : Element) : option string :=
  if String.eqb v contact_url && Nat.eqb (el_id e) 17 then Some sent_url else None.

Definition xperience (with_newsletter : bool) : App :=
  {| app_up := true; app_fetches := xperience_fetches;
     app_render := xperience_render with_newsletter; app_click := xperience_click |}.

(** A backend that answers everything with an error page. *)
Definition backend_down : string -> Response := fun _ => mkResponse 502 "text/html" "Bad Gateway".

Lemma xperience_covers (with_newsletter : bool) : @covers (xperience with_newsletter) transparency_routes.
Proof.
  intros v u Hu. cbn [app_fetches xperience] in Hu. unfold xperience_fetches in Hu.
  repeat match type of Hu with context [String.eqb ?a ?b] => destruct (String.eqb a b) end;
    cbn [In] in Hu; repeat destruct Hu as [<-|Hu]; try contradiction; vm_compute; discriminate.
Qed.

Definition backend_ok : string -> Response := fun u => mkResponse 200 "application/json" "{}".

Lemma transparency_backend_independent_witness :
  outcome (run (@browser (xperience false) backend_ok) transparency_main fresh) =
  outcome (run (@browser (xperience false) backend_down) transparency_main fresh) /\
  trace (run (@browser (xperience false) backend_ok) transparency_main fresh) =
  trace (run (@browser (xperience false) backend_down) transparency_main fresh) /\
  net_backend_log (w_net (world (run (@browser (xperience false) backend_ok) transparency_main fresh))) = [].
Proof. exact (@transparency_backend_independent (xperience false) backend_ok backend_down (xperience_covers false)). Defined.

(** The front end model with one more request on the transparency page,
    which no mock answers. *)
Definition analytics_api : string := base ++ "/api/analytics".

Definition xperience_analytics : App :=
  {| app_up := true;
     app_fetches := fun v => xperience_fetches v ++ (if String.eqb v transparencia_url then [analytics_api] else []);
     app_render := xperience_render false; app_click := xperience_click |}.

Lemma transparency_backend_isolated_witness : mocked analytics_api = false.
Proof. apply (@transparency_backend_isolated xperience_analytics backend_down analytics_api). in_concrete. Defined.

(** ** The dashboard flow on a front end model

    The dashboard shows the five section headings; a click on the
    "Agentes" heading opens the agents page, whose title is "Meus Agentes
    de IA".  [with_stats] adds a statistics card titled "Agentes Ativos".
    Neither page requests anything, so the backend plays no part. *)

Definition dashboard_view : string := "http://localhost:5173/dashboard".
Definition agents_view : string := "http://localhost:5173/agents".

Definition dashboard_dom (with_stats : bool) : Dom :=
  [ text_el 50 "h1" (Some "heading") "Área Logada";
    text_el 51 "h2" (Some "heading") "Agentes";
    text_el 52 "h2" (Some "heading") "Relatórios";
    text_el 53 "h2" (Some "heading") "Projetos";
    text_el 54 "h2" (Some "heading") "Configurações" ] ++
  (if with_stats then [text_el 55 "h3" (Some "heading") "Agentes Ativos"] else []).

Definition dashboard_app (with_stats : bool) : App :=
  {| app_up := true; app_fetches := fun _ => [];
     app_render := fun v _ =>
       if String.eqb v dashboard_view then dashboard_dom with_stats
       else if String.eqb v agents_view then [text_el 60 "h1" (Some "heading") "Meus Agentes de IA"]
       else [];
     app_click := fun v e =>
       if String.eqb v dashboard_view && Nat.eqb (el_id e) 51 then Some agents_view else None |}.

(** ** The files a passing run writes *)

(** C13: in the browser, whatever the application, the backend and the
    starting world, a run of [verify_transparency.py] that returns
    normally wrote exactly the three page screenshots, in page order (no
    [error.png]), and printed exactly the six progress lines. *)
Theorem transparency_pass_artifacts (A : App) (backend : string -> Response) (w : World) :
  outcome (run (@browser A backend) transparency_main w) = Ok tt ->
  w_shots (world (run (@browser A backend) transparency_main w)) =
    w_shots w ++ ["verification/transparency_page.png"; "verification/contact_success.png";
                  "verification/leads_manager.png"] /\
  w_out (world (run (@browser A backend) transparency_main w)) =
    w_out w ++ ["Navigating to Transparency Page..."; "Transparency Page Verified.";
                "Navigating to Contact Page..."; "Contact Form Verified.";
                "Navigating to Leads Manager..."; "Leads Manager Verified."].
Proof.
  intros Hok. destruct (transparency_pass_calls _ w Hok) as [Hc Hall].
  destruct (browser_output backend transparency_main w) as [Hs Ho].
  rewrite Hs, Ho, shots_of_ok, prints_of_ok, Hc by exact Hall. split; reflexivity.
Qed.

Lemma transparency_pass_artifacts_witness :
  w_shots (world (run (@browser (xperience false) backend_down) transparency_main fresh)) =
    w_shots fresh ++ ["verification/transparency_page.png"; "verification/contact_success.png";
                      "verification/leads_manager.png"].
Proof.
  apply (transparency_pass_artifacts (xperience false) backend_down fresh). vm_compute. reflexivity.
Defined.

(** C15: in the browser, whatever the application, the backend and the
    starting world, a run of [test_dashboard.py] that returns normally
    wrote exactly [verification/dashboard_restored.png]. *)
Theorem dashboard_pass_artifacts (A : App) (backend : string -> Response) (w : World) :
  outcome (run (@browser A backend) verify_dashboard w) = Ok tt ->
  w_shots (world (run (@browser A backend) verify_dashboard w)) =
    w_shots w ++ ["verification/dashboard_restored.png"].
Proof.
  intros Hok. destruct (with_seq_calls_ok _ verify_dashboard_body w Hok) as [Hc Hall].
  destruct (browser_output backend verify_dashboard w) as [Hs _].
  unfold verify_dashboard in *. rewrite Hs, shots_of_ok, Hc by exact Hall. reflexivity.
Qed.

Lemma dashboard_pass_artifacts_witness :
  w_shots (world (run (@browser (dashboard_app false) backend_down) verify_dashboard fresh)) =
    w_shots fresh ++ ["verification/dashboard_restored.png"].
Proof.
  apply (dashboard_pass_artifacts (dashboard_app false) backend_down fresh). vm_compute. reflexivity.
Defined.

(** C14: in the browser, whatever the application, the backend and the
    starting world, a run of [verify_agents.py] that returns normally
    either wrote no file, when [page.goto] raised, or wrote exactly one
    screenshot, at the absolute path [/home/jules/verification/agents_flow.png]
    of the script rather than under the working directory. *)
Theorem agents_pass_artifacts (A : App) (backend : string -> Response) (w : World) :
  outcome (run (@browser A backend) verify_agents_flow w) = Ok tt ->
  (w_shots (world (run (@browser A backend) verify_agents_flow w)) = w_shots w /\
   exists e, In (Goto agents_url, Err e) (trace (run (@browser A backend) verify_agents_flow w))) \/
  w_shots (world (run (@browser A backend) verify_agents_flow w)) =
    w_shots w ++ ["/home/jules/verification/agents_flow.png"].
Proof.
  intros Hok. destruct (browser_output backend verify_agents_flow w) as [Hs _]. rewrite Hs.
  unfold verify_agents_flow in *. apply with_playwright_ok in Hok as (v0 & w0 & v5 & _ & Hb & Ht).
  rewrite Ht. cbn [shots_of]. rewrite shots_of_app. cbn [shots_of]. rewrite app_nil_r.
  destruct (agents_body_cases (browser backend) w0)
    as [[_ [e He]] | [(t1 & v & w2 & Hc & Ht1 & Ho) | (t1 & e2 & r3 & Hc & Ht1 & _)]]; try congruence;
    rewrite Ht1, shots_of_app, (shots_of_none t1) by (rewrite Hc; reflexivity).
  - right. rewrite Hb in Ho.
    destruct (agents_after_navigation_cases (browser backend) w2)
      as [[_ [e He]] | [(t2 & e & _ & _ & He) | (t2 & v2 & w3 & Hc2 & Ht2 & Ho2)]]; try congruence.
    rewrite Ho2 in Ho. symmetry in Ho. apply seq_calls_ok in Ho as [Hc3 Hall].
    rewrite Ht2. cbn [app shots_of]. rewrite shots_of_app, (shots_of_none t2) by (rewrite Hc2; reflexivity).
    cbn [app shots_of]. rewrite shots_of_ok, Hc3 by exact Hall. reflexivity.
  - left. split; [cbn; rewrite app_nil_r; reflexivity|]. exists e2.
    right. apply in_or_app. left. apply in_or_app. right. left. reflexivity.
Qed.

(** The front end model with its server down. *)
Definition xperience_down : App :=
  {| app_up := false; app_fetches := xperience_fetches;
     app_render := xperience_render false; app_click := xperience_click |}.

Lemma agents_pass_artifacts_witness :
  (w_shots (world (run (@browser xperience_down backend_down) verify_agents_flow fresh)) = w_shots fresh /\
   exists e, In (Goto agents_url, Err e) (trace (run (@browser xperience_down backend_down) verify_agents_flow fresh))) \/
  w_shots (world (run (@browser xperience_down backend_down) verify_agents_flow fresh)) =
    w_shots fresh ++ ["/home/jules/verification/agents_flow.png"].
Proof. apply (agents_pass_artifacts xperience_down backend_down fresh). vm_compute. reflexivity. Defined.
