(* ===== verification/Main.v ===== *)
(** * The three processes

    Each script is run as [python <script>.py]: its [__main__] block
    ([Dashboard.dashboard_main], [Agents.agents_main],
    [Transparency.transparency_main]) runs the flow, and the interpreter
    exits with [exit_status] of the outcome (1 when an exception escaped,
    0 otherwise).  This file holds the theorems about whole processes,
    under every handler: every run ends, within a number of calls that
    some run reaches; and the exit status tells whether a call raised,
    except for the agents script, which can exit 0 after a failed
    navigation. *)

From Stdlib Require Import String List Bool Lia.
From S2P Require Import Prelude Prog Bounds Dashboard Agents Transparency.
Import ListNotations.

(** A program that raises nothing of its own exits with status 0 on
    every run where all of its calls answered. *)
Lemma exit_zero_of_all_ok {A W} (h : Call -> W -> result Exn Val * W) (p : Prog A) (w : W) :
  raised_by (fun _ => False) p -> forallb ev_ok (trace (run h p w)) = true ->
  exit_status (outcome (run h p w)) = 0.
Proof.
  intros Hr Hall. pose proof (raised_by_none_ok h p w Hr Hall) as Hi.
  destruct (outcome (run h p w)); [reflexivity|discriminate].
Qed.

(** The exit status is 0 exactly on the runs where all calls answered,
    for a program that raises nothing of its own and returns normally only
    when all of its calls answered. *)
Lemma exit_zero_iff_all_ok {A W} (h : Call -> W -> result Exn Val * W) (p : Prog A) (w : W) :
  raised_by (fun _ => False) p ->
  (forall a, outcome (run h p w) = Ok a -> forallb ev_ok (trace (run h p w)) = true) ->
  exit_status (outcome (run h p w)) = 0 <-> forallb ev_ok (trace (run h p w)) = true.
Proof.
  intros Hr Hok. split.
  - destruct (outcome (run h p w)) as [a|e] eqn:Ho; [intros _; exact (Hok a eq_refl)|discriminate].
  - exact (exit_zero_of_all_ok h p w Hr).
Qed.

(** ** Exit status *)

(** C8: the dashboard and transparency processes exit with status 0
    exactly on the runs where every call answered, so a failing assertion
    or navigation always gives a non-zero status; the agents process
    exits 0 on every run where every call answered, but also on a run
    where [page.goto] raised (server down), since its [except] returns. *)
Theorem exit_status_reports_failures {W} (h : Call -> W -> result Exn Val * W) (w : W) :
  (exit_status (outcome (run h dashboard_main w)) = 0 <->
   forallb ev_ok (trace (run h dashboard_main w)) = true) /\
  (exit_status (outcome (run h transparency_main w)) = 0 <->
   forallb ev_ok (trace (run h transparency_main w)) = true) /\
  (forallb ev_ok (trace (run h agents_main w)) = true ->
   exit_status (outcome (run h agents_main w)) = 0) /\
  (exit_status (outcome (run (fail_on (Goto agents_url) nav_refused) agents_main tt)) = 0 /\
   In (Goto agents_url, Err nav_refused) (trace (run (fail_on (Goto agents_url) nav_refused) agents_main tt))).
Proof.
  split; [apply exit_zero_iff_all_ok; [exact dashboard_raises_only_calls|intros [] Ho]|].
  { exact (proj2 (with_seq_calls_ok h verify_dashboard_body w Ho)). }
  split; [apply exit_zero_iff_all_ok; [exact transparency_raises_only_calls|intros [] Ho]|].
  { exact (proj2 (transparency_pass_calls h w Ho)). }
  split; [|split; [reflexivity|in_concrete]].
  exact (exit_zero_of_all_ok h agents_main w agents_raises_only_calls).
Qed.

(** ** Termination *)

(** C10: no script has a loop or a retry: whatever the browser answers,
    every run of the dashboard script ends after at most 22 calls, of the
    agents script after at most 26, of the transparency script after at
    most 35; and each bound is reached: by the run where everything
    answers (22 and 26), and by the transparency run where only the last
    statement of the [try] raises (31 calls, then the message, the
    diagnostic screenshot, [browser.close()] and the exit). *)
Theorem scripts_run_length {W} (h : Call -> W -> result Exn Val * W) (w : W) :
  length (trace (run h dashboard_main w)) <= 22 /\
  length (trace (run h agents_main w)) <= 26 /\
  length (trace (run h transparency_main w)) <= 35 /\
  length (trace (run all_ok dashboard_main tt)) = 22 /\
  length (trace (run all_ok agents_main tt)) = 26 /\
  length (trace (run (fail_on leads_verified print_refused) transparency_main tt)) = 35.
Proof.
  split; [exact (run_length_le h _ _ w dashboard_calls_le)|].
  split; [exact (run_length_le h _ _ w agents_calls_le)|].
  split; [exact (run_length_le h _ _ w transparency_main_calls_le)|].
  vm_compute. auto.
Qed.
