(* ===== verification/Process.v ===== *)
(** * What a process leaves behind: files, standard output, exit status

    A script runs as a process of the Python interpreter.  Besides the
    browser, it changes three things a user sees: the files
    [page.screenshot(path=p)] writes (it creates [p] or overwrites it),
    the lines [print] writes to standard output, and, when an exception
    escapes the [__main__] block, the traceback on standard error and the
    exit status 1.

    - [Dir] is the output directory as a map from a path to the number of
      the invocation that last wrote it (the picture itself is the
      browser's business); [write_file] is one [page.screenshot].
    - [with_files h n] extends any handler [h] with the directory: a
      [Screenshot p] call that answered writes [p], stamped [n]; the
      other calls leave it alone.  [run_with_files] shows that the
      directory after a run is the one before, written with the
      screenshots of the trace in order.
    - [python h main n w d] is invocation number [n] of a [__main__]
      block, from the directory [d]: its standard output, standard
      error, directory and exit status.  The dashboard process reports a
      failure only through its traceback on standard error: its standard
      output holds only the script's progress lines
      ([dashboard_failure_console]).
    - [session n d]: the step relation of successive invocations of the
      three scripts, each under any handler; [d] is the directory after
      [n] of them.  Its invariant, proved by rule induction, is that the
      directory only holds the six files of section 6 of the
      specification, each written by one of the [n] invocations.

    A run overwrites only the files of the screenshots it reached: every
    other file keeps the picture of an earlier run ([python_dir_frame]). *)

From Stdlib Require Import String List Bool Arith Lia.
From S2P Require Import Prelude Prog Browser Dashboard Agents Transparency Main.
Import ListNotations.
Local Open Scope string_scope.
Local Open Scope list_scope.

(** ** The output directory *)

Definition Dir : Type := string -> option nat.

Definition empty_dir : Dir := fun _ => None.

(** [page.screenshot(path=p)] in invocation [n]: create or overwrite [p]. *)
Definition write_file (n : nat) (d : Dir) (p : string) : Dir :=
  fun q => if String.eqb q p then Some n else d q.

Definition write_files (n : nat) (ps : list string) (d : Dir) : Dir :=
  fold_left (write_file n) ps d.

Lemma write_files_app (n : nat) (ps1 ps2 : list string) (d : Dir) :
  write_files n (ps1 ++ ps2) d = write_files n ps2 (write_files n ps1 d).
Proof. apply fold_left_app. Qed.

(** A path no screenshot wrote keeps its file. *)
Lemma write_files_other (n : nat) (ps : list string) (d : Dir) (q : string) :
  ~ In q ps -> write_files n ps d q = d q.
Proof.
  revert d. induction ps as [|p ps IH]; intros d Hq; [reflexivity|].
  cbn [write_files fold_left]. fold (write_files n ps (write_file n d p)).
  rewrite IH by (intros H; apply Hq; now right). unfold write_file.
  destruct (String.eqb_spec q p) as [->|_]; [exfalso; apply Hq; now left|reflexivity].
Qed.

(** A path a screenshot wrote holds the picture of this invocation. *)
Lemma write_files_in (n : nat) (ps : list string) (d : Dir) (q : string) :
  In q ps -> write_files n ps d q = Some n.
Proof.
  revert d. induction ps as [|p ps IH]; intros d Hq; [destruct Hq|].
  cbn [write_files fold_left]. fold (write_files n ps (write_file n d p)).
  destruct (in_dec String.string_dec q ps) as [Hin|Hout]; [now apply IH|].
  rewrite write_files_other by exact Hout. unfold write_file.
  destruct Hq as [->|Hq]; [now rewrite String.eqb_refl|contradiction].
Qed.

(** Every file of the directory after the writes was there before or
    was written by them. *)
Lemma write_files_cases (n : nat) (ps : list string) (d : Dir) (q : string) (k : nat) :
  write_files n ps d q = Some k -> (In q ps /\ k = n) \/ d q = Some k.
Proof.
  destruct (in_dec String.string_dec q ps) as [Hin|Hout].
  - rewrite write_files_in by exact Hin. intros [= <-]. now left.
  - rewrite write_files_other by exact Hout. now right.
Qed.

(** ** Screenshots write the directory *)

Section Files.
Context {W : Type} (h : Call -> W -> result Exn Val * W) (n : nat).

Definition with_files (c : Call) (s : W * Dir) : result Exn Val * (W * Dir) :=
  let (r, w') := h c (fst s) in
  (r, (w', write_files n (shots_of [(c, r)]) (snd s))).

Lemma run_with_files {A} (p : Prog A) (w : W) (d : Dir) :
  run with_files p (w, d) =
  let '(o, w', t) := run h p w in (o, (w', write_files n (shots_of t) d), t).
Proof.
  revert w d. induction p as [a|e|c k IH]; intros w d; [reflexivity..|].
  cbn [run]. unfold with_files. cbn [fst snd]. destruct (h c w) as [r w1].
  rewrite IH. destruct (run h (k r) w1) as [[o w2] t].
  rewrite <- write_files_app, <- shots_of_app. reflexivity.
Qed.
End Files.

(** ** The process *)

(** The class Python names in the last line of the traceback. *)
Definition exn_class (e : Exn) : string :=
  match e with
  | TimeoutError _ => "playwright._impl._errors.TimeoutError"
  | AssertionError _ => "AssertionError"
  | PlaywrightError _ => "playwright._impl._errors.Error"
  end.

(** The traceback an uncaught exception prints on standard error (its
    frames left out). *)
Definition traceback (e : Exn) : list string :=
  ["Traceback (most recent call last):"; (exn_class e ++ ": " ++ exn_str e)%string].

Record Proc : Type := mkProc {
  stdout : list string;
  stderr : list string;
  dir : Dir;
  status : nat
}.

(** Invocation [n] of the [__main__] block [main], from the directory [d]. *)
Definition python {W} (h : Call -> W -> result Exn Val * W) (main : Prog unit) (n : nat) (w : W) (d : Dir) : Proc :=
  let '(o, (_, d'), t) := run (with_files h n) main (w, d) in
  mkProc (prints_of t) (match o with Ok _ => [] | Err e => traceback e end) d' (exit_status o).

Lemma python_run {W} (h : Call -> W -> result Exn Val * W) (main : Prog unit) (n : nat) (w : W) (d : Dir) :
  python h main n w d =
  mkProc (prints_of (trace (run h main w)))
         (match outcome (run h main w) with Ok _ => [] | Err e => traceback e end)
         (write_files n (shots_of (trace (run h main w))) d)
         (exit_status (outcome (run h main w))).
Proof.
  unfold python. rewrite run_with_files. unfold outcome, trace.
  destruct (run h main w) as [[o w'] t]. reflexivity.
Qed.

(** A run overwrites only the files of the screenshots it took. *)
Lemma python_dir_frame {W} (h : Call -> W -> result Exn Val * W) (main : Prog unit) (n : nat) (w : W) (d : Dir) (q : string) :
  ~ In q (shots_of (trace (run h main w))) -> dir (python h main n w d) q = d q.
Proof. rewrite python_run. apply write_files_other. Qed.

(** ** The files of the specification *)

(** The screenshot paths section 6 of the specification lists. *)
Definition artifact_paths : list string :=
  [ "verification/dashboard_restored.png"; "/home/jules/verification/agents_flow.png";
    "verification/transparency_page.png"; "verification/contact_success.png";
    "verification/leads_manager.png"; "verification/error.png" ].

Definition shot_known (c : Call) : bool :=
  match c with Screenshot p => existsb (String.eqb p) artifact_paths | _ => true end.

Lemma in_shots_of (t : list Event) (p : string) :
  In p (shots_of t) -> exists v, In (Screenshot p, Ok v) t.
Proof.
  induction t as [|[c r] t IH]; [intros []|].
  destruct c, r; cbn; try (intros H; destruct (IH H) as [v' Hv']; eauto; fail).
  intros [<-|H]; [eauto|destruct (IH H) as [v' Hv']; eauto].
Qed.

(** A program whose screenshots are all known writes only known files. *)
Lemma known_shots {W} (h : Call -> W -> result Exn Val * W) (main : Prog unit) (w : W) (p : string) :
  only_calls (fun c => shot_known c = true) main ->
  In p (shots_of (trace (run h main w))) -> In p artifact_paths.
Proof.
  intros Hm Hp. destruct (in_shots_of _ _ Hp) as [v Hv].
  pose proof (only_calls_run _ h main w _ Hm Hv) as Hk. cbn [fst shot_known] in Hk.
  apply existsb_exists in Hk as [q [Hq Heq]]. apply String.eqb_eq in Heq. now subst.
Qed.

(** The three [__main__] blocks. *)
Definition scripts : list (Prog unit) := [dashboard_main; agents_main; transparency_main].

Lemma scripts_shots_known (main : Prog unit) :
  In main scripts -> only_calls (fun c => shot_known c = true) main.
Proof.
  intros [<-|[<-|[<-|[]]]]; unfold dashboard_main, verify_dashboard, agents_main, verify_agents_flow,
    transparency_main; apply only_calls_with_playwright; try reflexivity.
  - now apply only_calls_seq_calls_b.
  - unfold agents_body, agents_navigate, agents_after_navigation.
    apply only_calls_bind; [now apply only_calls_seq_calls_b|intros _].
    apply only_calls_bind; [apply only_calls_try_except; auto with xp|intros []; auto with xp].
    apply only_calls_bind; [now apply only_calls_seq_calls_b|intros _].
    apply only_calls_bind; [auto with xp|intros v]. apply only_calls_seq_calls_b.
    unfold agents_entry_choice. destruct (negb (truthy v)); reflexivity.
  - unfold transparency_run, transparency_guarded, transparency_except.
    apply only_calls_bind; [now apply only_calls_seq_calls_b|intros _].
    apply only_calls_try_finally; [apply only_calls_try_except; [now apply only_calls_seq_calls_b|]|auto with xp].
    intros e. apply only_calls_bind; [auto with xp|intros _]. apply only_calls_bind; [|intros _; constructor].
    now apply only_calls_call.
Qed.

(** Every file after a run was written by it, or was there before. *)
Lemma python_dir_cases {W} (h : Call -> W -> result Exn Val * W) (main : Prog unit) (n : nat) (w : W) (d : Dir) (q : string) (k : nat) :
  dir (python h main n w d) q = Some k ->
  (In q (shots_of (trace (run h main w))) /\ k = n) \/ d q = Some k.
Proof. rewrite python_run. apply write_files_cases. Qed.

(** ** Standard output and standard error *)

Lemma in_prints_of (t : list Event) (s : string) :
  In s (prints_of t) -> exists v, In (Print s, Ok v) t.
Proof.
  induction t as [|[c r] t IH]; [intros []|].
  destruct c, r; cbn; try (intros H; destruct (IH H) as [v' Hv']; eauto; fail).
  intros [<-|H]; [eauto|destruct (IH H) as [v' Hv']; eauto].
Qed.

(** The calls that print only lines of [ls]. *)
Definition prints_in (ls : list string) (c : Call) : bool :=
  match c with Print s => existsb (String.eqb s) ls | _ => true end.

Lemma stdout_in {W} (h : Call -> W -> result Exn Val * W) (main : Prog unit) (n : nat) (w : W) (d : Dir) (ls : list string) (s : string) :
  only_calls (fun c => prints_in ls c = true) main ->
  In s (stdout (python h main n w d)) -> In s ls.
Proof.
  rewrite python_run. cbn [stdout]. intros Hm Hs. destruct (in_prints_of _ _ Hs) as [v Hv].
  pose proof (only_calls_run _ h main w _ Hm Hv) as Hk. cbn [fst prints_in] in Hk.
  apply existsb_exists in Hk as [q [Hq Heq]]. apply String.eqb_eq in Heq. now subst.
Qed.

(** The dashboard process reports a failure only on standard error: its
    standard output holds nothing but the progress lines of the script,
    and a non-zero exit comes with the traceback of the exception. *)
Lemma dashboard_failure_console {W} (h : Call -> W -> result Exn Val * W) (n : nat) (w : W) (d : Dir) :
  (forall s, In s (stdout (python h dashboard_main n w d)) -> In s (printed verify_dashboard_body)) /\
  (status (python h dashboard_main n w d) = 1 -> exists e, stderr (python h dashboard_main n w d) = traceback e).
Proof.
  split.
  - intros s. apply stdout_in. unfold dashboard_main, verify_dashboard.
    apply only_calls_with_playwright; [reflexivity..|]. now apply only_calls_seq_calls_b.
  - rewrite python_run. cbn [status stderr].
    destruct (outcome (run h dashboard_main w)) as [u|e]; [discriminate|eauto].
Qed.

(** ** Successive invocations *)

(** [session n d]: after [n] invocations of the three scripts, in any
    order and each against any browser, the output directory is [d]. *)
Inductive session : nat -> Dir -> Prop :=
| session_start : session 0 empty_dir
| session_run (n : nat) (d : Dir) (main : Prog unit) {W : Type} (h : Call -> W -> result Exn Val * W) (w : W) :
    In main scripts -> session n d -> session (S n) (dir (python h main (S n) w d)).

(** C12: the invariant of the output directory over a session: after
    any [n] invocations of the three scripts, whatever the browser
    answered, every file of the directory is one of the six paths of
    section 6 of the specification, and was written by one of the [n]
    invocations. *)
Theorem session_dir_known (n : nat) (d : Dir) :
  session n d -> forall q k, d q = Some k -> In q artifact_paths /\ 1 <= k <= n.
Proof.
  induction 1 as [|n d main W h w Hmain _ IH]; intros q k Hq; [discriminate|].
  destruct (python_dir_cases h main (S n) w d q k Hq) as [[Hin ->]|Hold].
  - split; [exact (known_shots h main w q (scripts_shots_known main Hmain) Hin)|lia].
  - destruct (IH q k Hold) as [Hk Hb]. split; [exact Hk|lia].
Qed.

(** The directory after a failing then a passing transparency run. *)
Definition fail_then_pass_dir : Dir :=
  dir (python all_ok transparency_main 2 tt
         (dir (python (fail_on leads_verified print_refused) transparency_main 1 tt empty_dir))).

Lemma session_dir_known_witness :
  session 2 fail_then_pass_dir /\ In "verification/error.png" artifact_paths /\ 1 <= 1 <= 2.
Proof.
  assert (Hs : session 2 fail_then_pass_dir).
  { unfold fail_then_pass_dir. apply session_run; [right; right; left; reflexivity|].
    apply session_run; [right; right; left; reflexivity|apply session_start]. }
  split; [exact Hs|]. apply (session_dir_known 2 fail_then_pass_dir Hs "verification/error.png" 1).
  vm_compute. reflexivity.
Defined.

